(** * Tableau export pipeline: a shallow embedding of
    [scripts/export_tableau_data.py] and the properties of its extracts.

    The script reads the tables of a SQLite database and builds five data
    frames with pandas.  Tables and frames are lists of records, a NULL / NaN /
    NaT / <NA> cell is [None], a timestamp is a number of seconds, and a
    finite float is the rational it denotes (float rounding error is outside
    the model; the special values NaN and +-inf are inside it).  Code that can
    raise returns a [result].  The pandas and SQLite primitives the script
    calls (merge, groupby, drop_duplicates, qcut, rank, JULIANDAY) are modelled
    by the functions of the same name, following the behaviour the libraries
    document for pandas 2: there [astype(str)] turns a missing nullable
    integer into the text <NA> and a missing period into the text NaT.
    Timestamps are taken as parsed ([pd.to_datetime] is outside
    the model), the calendar label columns of orders_fact other than the
    month are left out, and
    so are the columns that [export_product_sales] only carries from a table
    to its output. *)

From Stdlib Require Import String ZArith QArith Qround Bool Lia Lqa Permutation Sorted List.
From Stdlib Require Import DecimalString.
Import ListNotations.

Open Scope Z_scope.

(* ================================================================== *)
(** * Cells, floats and errors *)

(** A float64 cell: a finite value, an infinity, or NaN. *)
Inductive fval : Type :=
| FNum (q : Q)
| FInf (negative : bool)
| FNaN.

(** What a raising pandas call returns. *)
Inductive result (A : Type) : Type :=
| OK (a : A)
| ValueError (msg : string).
Arguments OK {A} a.
Arguments ValueError {A} msg.

Definition bind {A B} (r : result A) (k : A -> result B) : result B :=
  match r with
  | OK a => k a
  | ValueError m => ValueError m
  end.

Notation "x <- r ;; k" := (bind r (fun x => k))
  (at level 61, r at next level, right associativity).

Definition isna {A} (x : option A) : bool :=
  match x with None => true | Some _ => false end.

Definition opt_map2 {A B C} (f : A -> B -> C) (x : option A) (y : option B) : option C :=
  match x, y with
  | Some a, Some b => Some (f a b)
  | _, _ => None
  end.

(* ================================================================== *)
(** * Timestamps and calendar *)

(** A parsed timestamp: seconds since 1970-01-01T00:00:00; NaT is [None]. *)
Definition timestamp := Z.

Definition SECONDS_PER_DAY : Z := 86400.

(** [Timedelta.days]: the day component of a difference, a floor. *)
Definition td_days (delta : Z) : Z := delta / SECONDS_PER_DAY.

(** [(a - b).dt.days] on two datetime cells. *)
Definition dt_diff_days (a b : option timestamp) : option Z :=
  opt_map2 (fun x y => td_days (x - y)) a b.

(** Days since the epoch of a proleptic Gregorian date. *)
Definition days_from_civil (y m d : Z) : Z :=
  let y' := if m <=? 2 then y - 1 else y in
  let era := y' / 400 in
  let yoe := y' - era * 400 in
  let mp := if m <=? 2 then m + 9 else m - 3 in
  let doy := (153 * mp + 2) / 5 + d - 1 in
  let doe := yoe * 365 + yoe / 4 - yoe / 100 + doy in
  era * 146097 + doe - 719468.

(** The date (year, month, day) of a number of days since the epoch. *)
Definition civil_from_days (z : Z) : Z * Z * Z :=
  let z := z + 719468 in
  let era := z / 146097 in
  let doe := z - era * 146097 in
  let yoe := (doe - doe / 1460 + doe / 36524 - doe / 146096) / 365 in
  let doy := doe - (365 * yoe + yoe / 4 - yoe / 100) in
  let mp := (5 * doy + 2) / 153 in
  let d := doy - (153 * mp + 2) / 5 + 1 in
  let m := if mp <? 10 then mp + 3 else mp - 9 in
  ((if m <=? 2 then yoe + era * 400 + 1 else yoe + era * 400), m, d).

(** The timestamp of [y-m-d hh:mi:ss]. *)
Definition mk_ts (y m d hh mi ss : Z) : timestamp :=
  days_from_civil y m d * SECONDS_PER_DAY + hh * 3600 + mi * 60 + ss.

(** [dt.to_period('M')]: the ordinal of the calendar month, months since
    1970-01. *)
Definition to_period_M (t : timestamp) : Z :=
  let '(y, m, _) := civil_from_days (t / SECONDS_PER_DAY) in
  (y - 1970) * 12 + (m - 1).

(* ================================================================== *)
(** * The relational source *)

Record order : Type := mk_order {
  order_id : string;
  customer_id : option string;
  order_status : string;
  order_purchase_timestamp : option timestamp;
  order_approved_at : option timestamp;
  order_delivered_carrier_date : option timestamp;
  order_delivered_customer_date : option timestamp;
  order_estimated_delivery_date : option timestamp
}.

Record customer : Type := mk_customer {
  c_customer_id : string;
  customer_unique_id : string;
  customer_city : string;
  customer_state : string;
  customer_zip_code_prefix : string
}.

Record order_payment : Type := mk_payment {
  p_order_id : string;
  payment_value : Q;
  payment_type : string;
  payment_installments : Z
}.

Record order_review : Type := mk_review {
  rv_order_id : string;
  review_score : Z;
  review_creation_date : option timestamp
}.

Record order_item : Type := mk_item {
  i_order_id : string;
  order_item_id : Z;
  i_seller_id : string;
  price : Q;
  freight_value : Q
}.

Record seller : Type := mk_seller {
  seller_id : string;
  seller_city : string;
  seller_state : string
}.

Record database : Type := mk_db {
  orders : list order;
  customers : list customer;
  order_payments : list order_payment;
  order_reviews : list order_review;
  order_items : list order_item;
  sellers : list seller
}.

Definition is_delivered (o : order) : bool :=
  String.eqb (order_status o) "delivered".

(** SQL [a = b] on a nullable and a non-null column: NULL matches nothing. *)
Definition sql_eq (a : option string) (b : string) : bool :=
  match a with
  | Some x => String.eqb x b
  | None => false
  end.

(* ================================================================== *)
(** * Data-frame primitives *)

Section Frames.
Context {K : Type} (eqb : K -> K -> bool).

(** [drop_duplicates(subset=key, keep='first')], with the keys already
    seen. *)
Fixpoint drop_duplicates_from {R} (key : R -> K) (seen : list K) (rows : list R)
  : list R :=
  match rows with
  | [] => []
  | r :: rest =>
      if existsb (eqb (key r)) seen
      then drop_duplicates_from key seen rest
      else r :: drop_duplicates_from key (key r :: seen) rest
  end.

Definition drop_duplicates {R} (key : R -> K) (rows : list R) : list R :=
  drop_duplicates_from key [] rows.

(** The distinct values of a column, in order of first appearance. *)
Definition unique (ks : list K) : list K := drop_duplicates (fun k => k) ks.

(** The rows of one group. *)
Definition group {R} (key : R -> K) (k : K) (rows : list R) : list R :=
  filter (fun r => eqb (key r) k) rows.

(** Insertion of a key into a sorted list of keys. *)
Fixpoint insert_sorted (leb : K -> K -> bool) (k : K) (l : list K) : list K :=
  match l with
  | [] => [k]
  | h :: t => if leb k h then k :: l else h :: insert_sorted leb k t
  end.

(** The group keys of [groupby(key)] (sort=True): distinct, ascending. *)
Definition group_keys (leb : K -> K -> bool) (ks : list K) : list K :=
  fold_right (insert_sorted leb) [] (unique ks).

(** SQL [GROUP BY key]: one aggregated row per distinct key. *)
Definition sql_group_by {R A} (key : R -> K) (agg : K -> list R -> A)
    (rows : list R) : list A :=
  map (fun k => agg k (group key k rows)) (unique (map key rows)).

(** pandas [groupby(key).agg(...)]: one aggregated row per key, keys
    ascending. *)
Definition groupby {R A} (leb : K -> K -> bool) (key : R -> K)
    (agg : K -> list R -> A) (rows : list R) : list A :=
  map (fun k => agg k (group key k rows)) (group_keys leb (map key rows)).
End Frames.

(** A left join: every left row with each matching right row, in left order;
    a left row without a match is kept once with a missing right side.  This
    is pandas [merge(how='left')] and SQL [LEFT JOIN]. *)
Definition merge_left {L R} (on : L -> R -> bool) (left : list L) (right : list R)
  : list (L * option R) :=
  flat_map (fun x =>
    match filter (on x) right with
    | [] => [(x, None)]
    | ms => map (fun y => (x, Some y)) ms
    end) left.

(** SQL inner [JOIN]: the matching pairs. *)
Definition inner_join {L R} (on : L -> R -> bool) (left : list L) (right : list R)
  : list (L * R) :=
  flat_map (fun x => map (fun y => (x, y)) (filter (on x) right)) left.

Definition qsum (l : list Q) : Q := fold_right Qplus 0%Q l.

(** The non-missing cells of a column. *)
Fixpoint dropna {A} (l : list (option A)) : list A :=
  match l with
  | [] => []
  | Some a :: t => a :: dropna t
  | None :: t => dropna t
  end.

Definition string_max (l : list string) : string :=
  fold_right (fun s acc => if String.leb s acc then acc else s) EmptyString l.

Definition pair_eqb (a b : string * string) : bool :=
  String.eqb (fst a) (fst b) && String.eqb (snd a) (snd b).

(** The maximum of a datetime column, NaT skipped; NaT when nothing is left. *)
Definition ts_max (l : list (option timestamp)) : option timestamp :=
  fold_right (fun x acc =>
    match x, acc with
    | Some a, Some b => Some (Z.max a b)
    | Some a, None => Some a
    | None, _ => acc
    end) None l.

Definition ts_min (l : list (option timestamp)) : option timestamp :=
  fold_right (fun x acc =>
    match x, acc with
    | Some a, Some b => Some (Z.min a b)
    | Some a, None => Some a
    | None, _ => acc
    end) None l.

(* ================================================================== *)
(** * Float arithmetic on cells *)

(** IEEE division of two finite values: x/0 is an infinity, 0/0 is NaN. *)
Definition fdiv_num (a b : Q) : fval :=
  if Qeq_bool b 0 then
    (if Qeq_bool a 0 then FNaN else FInf (negb (Qle_bool 0 a)))
  else FNum (a / b).

Definition q_negative (q : Q) : bool := negb (Qle_bool 0 q).

(** Multiplication by a finite constant. *)
Definition fscale (x : fval) (c : Q) : fval :=
  match x with
  | FNum q => FNum (q * c)
  | FInf s => if Qeq_bool c 0 then FNaN else FInf (xorb s (q_negative c))
  | FNaN => FNaN
  end.

Definition fadd (x y : fval) : fval :=
  match x, y with
  | FNaN, _ | _, FNaN => FNaN
  | FNum a, FNum b => FNum (a + b)
  | FInf s, FNum _ | FNum _, FInf s => FInf s
  | FInf s, FInf t => if Bool.eqb s t then FInf s else FNaN
  end.

(** Round half to even, to an integer. *)
Definition round_half_even (q : Q) : Z :=
  let f := Qfloor q in
  let r := (q - inject_Z f)%Q in
  match Qcompare r (1 # 2) with
  | Lt => f
  | Gt => f + 1
  | Eq => if Z.even f then f else f + 1
  end.

(** [Series.round(d)] on a float cell, [scale] being 10^d. *)
Definition fround_to (scale : Q) (x : fval) : fval :=
  match x with
  | FNum q => FNum (inject_Z (round_half_even (q * scale)) / scale)
  | other => other
  end.

Definition fround2 : fval -> fval := fround_to 100.
Definition fround1 : fval -> fval := fround_to 10.

(** IEEE [<] between two cells; false when either is NaN. *)
Definition fltb (x y : fval) : bool :=
  match x, y with
  | FNaN, _ | _, FNaN => false
  | FNum a, FNum b => negb (Qle_bool b a)
  | FNum _, FInf s => negb s
  | FInf s, FNum _ => s
  | FInf s, FInf t => s && negb t
  end.

(** Two cells hold the same value (NaN is the same as NaN only here, not
    under IEEE [==]). *)
Definition fsame (x y : fval) : Prop :=
  match x, y with
  | FNum a, FNum b => (a == b)%Q
  | FInf s, FInf t => s = t
  | FNaN, FNaN => True
  | _, _ => False
  end.

Definition fisnan (x : fval) : bool :=
  match x with FNaN => true | _ => false end.

(** The mean of a list of finite values; NaN for an empty one. *)
Definition qmean (l : list Q) : fval :=
  fdiv_num (qsum l) (inject_Z (Z.of_nat (List.length l))).

(** [mean()] of a column, missing cells skipped. *)
Definition mean_skipna (l : list (option Q)) : fval := qmean (dropna l).

(** [mean()] of a boolean column. *)
Definition mean_bool (l : list bool) : fval :=
  qmean (map (fun b : bool => if b then 1%Q else 0%Q) l).

(** [nunique()] of a column of identifiers. *)
Definition nunique (l : list string) : Z :=
  Z.of_nat (List.length (unique String.eqb l)).

(** Decimal rendering of an integer. *)
Definition string_of_Z (z : Z) : string := NilZero.string_of_int (Z.to_int z).

(** A month number on two digits. *)
Definition pad2 (n : Z) : string :=
  if n <? 10 then ("0" ++ string_of_Z n)%string else string_of_Z n.

(** [str] of a monthly period, given by its ordinal: year, dash, month on
    two digits.  (A pandas timestamp lies in the years 1677 to 2262, where
    the year has four digits.) *)
Definition period_M_str (p : Z) : string :=
  (string_of_Z (1970 + p / 12) ++ "-" ++ pad2 (p mod 12 + 1))%string.

(** [astype(str)] on a period cell: the missing period NaT becomes the text
    "NaT", it does not stay missing. *)
Definition period_astype_str (p : option Z) : string :=
  match p with
  | Some x => period_M_str x
  | None => "NaT"%string
  end.

(* ================================================================== *)
(** * Orders fact ([export_orders_fact]) *)

Record payment_agg : Type := mk_payment_agg {
  pa_order_id : string;
  total_payment_value : Q;
  primary_payment_type : string;
  total_installments : Z;
  payment_count : Z
}.

(** [SELECT order_id, SUM(..), MAX(..), SUM(..), COUNT( * ) FROM order_payments
    GROUP BY order_id]. *)
Definition of_payments_df (db : database) : list payment_agg :=
  sql_group_by String.eqb p_order_id
    (fun k rows =>
       mk_payment_agg k
         (qsum (map payment_value rows))
         (string_max (map payment_type rows))
         (fold_right Z.add 0 (map payment_installments rows))
         (Z.of_nat (length rows)))
    (order_payments db).

(** The reviews, first review per order kept. *)
Definition of_reviews_df (db : database) : list order_review :=
  drop_duplicates String.eqb rv_order_id (order_reviews db).

(** [FROM orders o LEFT JOIN customers c ON o.customer_id = c.customer_id]. *)
Definition of_orders_df (db : database) : list (order * option customer) :=
  merge_left (fun o c => sql_eq (customer_id o) (c_customer_id c))
    (orders db) (customers db).

Definition delivered_mask (o : order) : bool := is_delivered o.

(** [actual_delivery_days]: NaN, then the day difference on the delivered
    rows. *)
Definition actual_delivery_days (o : order) : option Z :=
  if delivered_mask o
  then dt_diff_days (order_delivered_customer_date o) (order_purchase_timestamp o)
  else None.

Definition estimated_delivery_days (o : order) : option Z :=
  if delivered_mask o
  then dt_diff_days (order_estimated_delivery_date o) (order_purchase_timestamp o)
  else None.

Definition delivery_delay_days (o : order) : option Z :=
  opt_map2 Z.sub (actual_delivery_days o) (estimated_delivery_days o).

(** [col <= 0] on a float column: a NaN cell compares False. *)
Definition le_zero (x : option Z) : bool :=
  match x with
  | Some d => d <=? 0
  | None => false
  end.

Definition on_time_label (b : bool) : string :=
  if b then "On Time"%string else "Late"%string.

(** [on_time_delivery]: the comparison mapped to a label on every row, then
    None on the rows outside the delivered mask. *)
Definition on_time_delivery (o : order) : option string :=
  let mapped := Some (on_time_label (le_zero (delivery_delay_days o))) in
  if negb (delivered_mask o) then None else mapped.

Record orders_fact_row : Type := mk_fact {
  of_order : order;
  of_customer : option customer;
  of_payment : option payment_agg;
  of_review : option order_review;
  of_order_month : string;
  of_actual_delivery_days : option Z;
  of_estimated_delivery_days : option Z;
  of_delivery_delay_days : option Z;
  of_on_time_delivery : option string
}.

Definition export_orders_fact (db : database) : list orders_fact_row :=
  let with_payments :=
    merge_left (fun (oc : order * option customer) p =>
                  String.eqb (order_id (fst oc)) (pa_order_id p))
      (of_orders_df db) (of_payments_df db) in
  let with_reviews :=
    merge_left (fun (ocp : order * option customer * option payment_agg) r =>
                  String.eqb (order_id (fst (fst ocp))) (rv_order_id r))
      with_payments (of_reviews_df db) in
  map (fun '(((o, c), p), r) =>
         mk_fact o c p r
           (period_astype_str
              (option_map to_period_M (order_purchase_timestamp o)))
           (actual_delivery_days o)
           (estimated_delivery_days o)
           (delivery_delay_days o)
           (on_time_delivery o))
      with_reviews.

(* ================================================================== *)
(** * Quantile cuts and ranks (pandas [qcut], [rank]) *)

Fixpoint insert_Q (x : Q) (l : list Q) : list Q :=
  match l with
  | [] => [x]
  | h :: t => if Qle_bool x h then x :: l else h :: insert_Q x t
  end.

Definition sort_Q (l : list Q) : list Q := fold_right insert_Q [] l.

(** Linear interpolation at the position (n-1)*k/q of ascending values: the
    value lies between the neighbours [lo] and [hi] of the position. *)
Definition interpolate (sorted : list Q) (default : Q) (q k : nat) : Q :=
  let n := List.length sorted in
  let pos := ((n - 1) * k)%nat in
  let j := (pos / q)%nat in
  let r := (pos mod q)%nat in
  let lo := nth j sorted default in
  let hi := nth (Nat.min (j + 1) (n - 1)) sorted default in
  (lo + (inject_Z (Z.of_nat r) / inject_Z (Z.of_nat q)) * (hi - lo))%Q.

(** [Series.quantile(k/q)] of ascending values, linear interpolation; NaN on
    an empty series. *)
Definition quantile (sorted : list Q) (q k : nat) : option Q :=
  match sorted with
  | [] => None
  | first :: _ => Some (interpolate sorted first q k)
  end.

(** Equality of two bin edges, NaN equal to NaN as in [algos.unique]. *)
Definition edge_eqb (a b : option Q) : bool :=
  match a, b with
  | Some x, Some y => Qeq_bool x y
  | None, None => true
  | _, _ => false
  end.

Definition edge_ltb (b : option Q) (v : Q) : bool :=
  match b with
  | Some e => negb (Qle_bool v e)
  | None => false
  end.

(** [bins.searchsorted(v, side='left')] on ascending edges: how many edges
    lie strictly below [v]. *)
Definition searchsorted_left (bins : list (option Q)) (v : Q) : nat :=
  List.length (filter (fun b => edge_ltb b v) bins).

(** The bin of one cell: right-closed bins, lowest edge included; a missing
    cell, or one outside the edges, has no bin. *)
Definition cut_cell (bins : list (option Q)) (labels : list Z) (x : option Q)
  : option Z :=
  match x with
  | None => None
  | Some v =>
      let ids := if edge_eqb (Some v) (hd None bins) then 1%nat
                 else searchsorted_left bins v in
      if (ids =? List.length bins)%nat || (ids =? 0)%nat then None
      else nth_error labels (ids - 1)
  end.

Definition MSG_EDGES : string := "Bin edges must be unique"%string.
Definition MSG_LABELS : string :=
  "Bin labels must be one fewer than the number of bin edges"%string.

(** [pd.qcut(x, q, labels=labels, duplicates=...)]: [drop] is
    [duplicates='drop'], otherwise the default [duplicates='raise']. *)
Definition qcut (x : list (option Q)) (q : nat) (labels : list Z) (drop : bool)
  : result (list (option Z)) :=
  let edges := map (quantile (sort_Q (dropna x)) q) (seq 0 (S q)) in
  let unique_bins := unique edge_eqb edges in
  bins <- (if (List.length unique_bins <? List.length edges)%nat
              && negb (List.length edges =? 2)%nat
           then (if drop then OK unique_bins else ValueError MSG_EDGES)
           else OK edges) ;;
  if negb (List.length labels =? List.length bins - 1)%nat
  then ValueError MSG_LABELS
  else OK (map (cut_cell bins labels) x).

Definition count_if {A} (p : A -> bool) (l : list A) : Z :=
  Z.of_nat (List.length (filter p l)).

(** [Series.rank(method='first')] on an integer column: rank in ascending
    order, equal values ranked in the order they appear. *)
Fixpoint rank_first_from (all before rest : list Z) : list Z :=
  match rest with
  | [] => []
  | x :: t =>
      (1 + count_if (fun y => y <? x) all + count_if (fun y => y =? x) before)
        :: rank_first_from all (before ++ [x]) t
  end.

Definition rank_first (xs : list Z) : list Z := rank_first_from xs [] xs.

(** The descending minimum rank of a cell in a column: one plus the number of
    strictly greater cells; NaN keeps a missing rank. *)
Definition rank_cell (xs : list fval) (x : fval) : option Z :=
  if fisnan x then None
  else Some (1 + count_if (fun y => fltb x y) xs).

(** [Series.rank(ascending=False, method='min')] on a float column. *)
Definition rank_min_desc (xs : list fval) : list (option Z) :=
  map (rank_cell xs) xs.

(** Integer counterparts of the sort and of an ascending run, used to
    reason about the cut of a column of ranks. *)
Fixpoint insert_Z (x : Z) (l : list Z) : list Z :=
  match l with
  | [] => [x]
  | h :: t => if x <=? h then x :: l else h :: insert_Z x t
  end.

Definition sort_Z (l : list Z) : list Z := fold_right insert_Z [] l.

(** [a; a+1; ...], [n] values. *)
Fixpoint seqZ (a : Z) (n : nat) : list Z :=
  match n with
  | O => []
  | S k => a :: seqZ (a + 1) k
  end.

(* ================================================================== *)
(** * Customer segments ([export_customer_segments]) *)

(** A row of [customer_orders]: a delivered order with its customer and the
    summed payments of the order (NaN when the order has none). *)
Record customer_order : Type := mk_co {
  co_customer_unique_id : string;
  co_customer_city : string;
  co_customer_state : string;
  co_order_id : string;
  co_order_purchase_timestamp : option timestamp;
  co_payment_value : option Q
}.

(** [SELECT order_id, SUM(payment_value) FROM order_payments GROUP BY
    order_id]. *)
Definition payments_per_order (db : database) : list (string * Q) :=
  sql_group_by String.eqb p_order_id
    (fun k rows => (k, qsum (map payment_value rows)))
    (order_payments db).

(** [FROM customers c JOIN orders o ON c.customer_id = o.customer_id WHERE
    o.order_status = 'delivered'], left-merged with the payments. *)
Definition customer_orders (db : database) : list customer_order :=
  let joined :=
    filter (fun co : customer * order => is_delivered (snd co))
      (inner_join (fun c o => sql_eq (customer_id o) (c_customer_id c))
         (customers db) (orders db)) in
  map (fun '((c, o), p) =>
         mk_co (customer_unique_id c) (customer_city c) (customer_state c)
           (order_id o) (order_purchase_timestamp o) (option_map snd p))
      (merge_left (fun (co : customer * order) (p : string * Q) =>
                     String.eqb (order_id (snd co)) (fst p))
         joined (payments_per_order db)).

(** [customer_orders['order_purchase_timestamp'].max() + Timedelta(days=1)]. *)
Definition analysis_date (cos : list customer_order) : option timestamp :=
  option_map (fun t => t + SECONDS_PER_DAY)
    (ts_max (map co_order_purchase_timestamp cos)).

(** The aggregated row of one customer, before scoring. *)
Record rfm_metrics : Type := mk_rfm {
  rfm_customer_unique_id : string;
  recency : option Z;
  frequency : Z;
  monetary : Q;
  rfm_customer_city : string;
  rfm_customer_state : string
}.

(** The aggregation of one group: recency is
    [(analysis_date - x.max()).days], frequency the count of order ids,
    monetary the sum of the payments with NaN skipped. *)
Definition rfm_agg (adate : option timestamp) (k : string) (rows : list customer_order)
  : rfm_metrics :=
  mk_rfm k
    (dt_diff_days adate (ts_max (map co_order_purchase_timestamp rows)))
    (Z.of_nat (List.length rows))
    (qsum (dropna (map co_payment_value rows)))
    (hd EmptyString (map co_customer_city rows))
    (hd EmptyString (map co_customer_state rows)).

Definition rfm_table (cos : list customer_order) : list rfm_metrics :=
  groupby String.eqb String.leb co_customer_unique_id
    (rfm_agg (analysis_date cos)) cos.

(** [astype(str)] on a nullable integer cell. *)
Definition astype_str (x : option Z) : string :=
  match x with
  | Some z => string_of_Z z
  | None => "<NA>"%string
  end.

(** The combined code: the three rendered scores, concatenated. *)
Definition rfm_score_of (r f m : option Z) : string :=
  (astype_str r ++ astype_str f ++ astype_str m)%string.

(** The ordered decision table on (recency score, frequency score). *)
Definition segment_customer (r f : option Z) : string :=
  match r, f with
  | Some r, Some f =>
      if (r >=? 4) && (f >=? 4) then "Champions"%string
      else if (r >=? 3) && (f >=? 3) then "Loyal Customers"%string
      else if (r >=? 4) && (f <=? 2) then "New Customers"%string
      else if (r >=? 3) && (f <=? 2) then "Potential Loyalists"%string
      else if (r <=? 2) && (f >=? 3) then "At Risk"%string
      else if (r <=? 2) && (f <=? 2) then "Hibernating"%string
      else "Need Attention"%string
  | _, _ => "Unknown"%string
  end.

Record purchase_dates_row : Type := mk_pd {
  pd_customer_unique_id : string;
  pd_first_purchase_date : option timestamp;
  pd_last_purchase_date : option timestamp
}.

Definition purchase_dates (cos : list customer_order) : list purchase_dates_row :=
  groupby String.eqb String.leb co_customer_unique_id
    (fun k rows =>
       mk_pd k (ts_min (map co_order_purchase_timestamp rows))
               (ts_max (map co_order_purchase_timestamp rows)))
    cos.

(** A row of the customer_segments extract. *)
Record segment_row : Type := mk_segment_row {
  seg_metrics : rfm_metrics;
  r_score : option Z;
  f_score : option Z;
  m_score : option Z;
  rfm_score : string;
  segment : string;
  first_purchase_date : option timestamp;
  last_purchase_date : option timestamp;
  customer_tenure_days : option Z;
  avg_order_value : fval
}.

(** The three score columns: recency inverted with duplicate edges dropped,
    frequency cut on its first-come ranks, monetary with duplicate edges
    dropped.  Each cut can raise. *)
Definition r_scores (rfm : list rfm_metrics) : result (list (option Z)) :=
  qcut (map (fun m => option_map inject_Z (recency m)) rfm) 5 [5; 4; 3; 2; 1] true.

Definition f_scores (rfm : list rfm_metrics) : result (list (option Z)) :=
  qcut (map (fun z => Some (inject_Z z)) (rank_first (map frequency rfm)))
    5 [1; 2; 3; 4; 5] false.

Definition m_scores (rfm : list rfm_metrics) : result (list (option Z)) :=
  qcut (map (fun m => Some (monetary m)) rfm) 5 [1; 2; 3; 4; 5] true.

Definition zip3 {A B C D} (la : list A) (lb : list B) (lc : list C) (ld : list D)
  : list (A * B * C * D) :=
  combine (combine (combine la lb) lc) ld.

Definition segment_rows (cos : list customer_order) (rfm : list rfm_metrics)
    (rs fs ms : list (option Z)) : list segment_row :=
  map (fun '((((x, r), f), m), pd) =>
         let first := match pd with Some d => pd_first_purchase_date d | None => None end in
         let last := match pd with Some d => pd_last_purchase_date d | None => None end in
         mk_segment_row x r f m (rfm_score_of r f m) (segment_customer r f)
           first last (dt_diff_days last first)
           (fdiv_num (monetary x) (inject_Z (frequency x))))
      (merge_left (fun (row : rfm_metrics * option Z * option Z * option Z) d =>
                     String.eqb (rfm_customer_unique_id (fst (fst (fst row))))
                                (pd_customer_unique_id d))
         (zip3 rfm rs fs ms) (purchase_dates cos)).

Definition export_customer_segments (db : database) : result (list segment_row) :=
  let cos := customer_orders db in
  let rfm := rfm_table cos in
  rs <- r_scores rfm ;;
  fs <- f_scores rfm ;;
  ms <- m_scores rfm ;;
  OK (segment_rows cos rfm rs fs ms).

(* ================================================================== *)
(** * Monthly metrics ([export_monthly_metrics]) *)

(** A row of [delivered]: a delivered order of the join with the customers,
    with its month, payment, review and delivery columns. *)
Record delivered_row : Type := mk_delivered {
  dr_order_id : string;
  dr_customer_unique_id : string;
  dr_order_month : option Z;
  dr_payment_value : option Q;
  dr_review_score : option Z;
  dr_delivery_days : option Z;
  dr_estimated_days : option Z;
  dr_is_on_time : bool
}.

(** [a <= b] on two float columns: False when either cell is NaN. *)
Definition opt_leb (a b : option Z) : bool :=
  match a, b with
  | Some x, Some y => x <=? y
  | _, _ => false
  end.

(** [a == b] on two period columns: False when either cell is NaT. *)
Definition opt_eqb (a b : option Z) : bool :=
  match a, b with
  | Some x, Some y => x =? y
  | _, _ => false
  end.

Definition mm_reviews (db : database) : list order_review :=
  drop_duplicates String.eqb rv_order_id (order_reviews db).

(** [orders o JOIN customers c], merged with payments and reviews, filtered
    to the delivered orders, with the delivery columns. *)
Definition delivered (db : database) : list delivered_row :=
  let joined :=
    inner_join (fun o c => sql_eq (customer_id o) (c_customer_id c))
      (orders db) (customers db) in
  let with_payments :=
    merge_left (fun (oc : order * customer) (p : string * Q) =>
                  String.eqb (order_id (fst oc)) (fst p))
      joined (payments_per_order db) in
  let with_reviews :=
    merge_left (fun (ocp : order * customer * option (string * Q)) r =>
                  String.eqb (order_id (fst (fst ocp))) (rv_order_id r))
      with_payments (mm_reviews db) in
  map (fun '(((o, c), p), r) =>
         let dd := dt_diff_days (order_delivered_customer_date o)
                     (order_purchase_timestamp o) in
         let ed := dt_diff_days (order_estimated_delivery_date o)
                     (order_purchase_timestamp o) in
         mk_delivered (order_id o) (customer_unique_id c)
           (option_map to_period_M (order_purchase_timestamp o))
           (option_map snd p) (option_map review_score r)
           dd ed (opt_leb dd ed))
      (filter (fun '(((o, _), _), _) => is_delivered o) with_reviews).

(** The rows of one month; the rows without a month are in no group. *)
Definition month_group (k : Z) (rows : list delivered_row) : list delivered_row :=
  filter (fun r => opt_eqb (dr_order_month r) (Some k)) rows.

(** The months of a frame: the group keys, NaT dropped, ascending. *)
Definition month_keys (rows : list delivered_row) : list Z :=
  group_keys Z.eqb Z.leb (dropna (map dr_order_month rows)).

Definition z_min_skipna (l : list (option Z)) : option Z :=
  fold_right (fun x acc =>
    match x, acc with
    | Some a, Some b => Some (Z.min a b)
    | Some a, None => Some a
    | None, _ => acc
    end) None l.

(** [delivered.groupby('customer_unique_id')['order_month'].min()]. *)
Definition first_purchase (rows : list delivered_row) : list (string * option Z) :=
  groupby String.eqb String.leb dr_customer_unique_id
    (fun k g => (k, z_min_skipna (map dr_order_month g)))
    rows.

(** The delivered rows with [first_purchase_month] merged in and the
    [is_new_customer] flag. *)
Definition with_is_new (rows : list delivered_row) : list (delivered_row * bool) :=
  map (fun '(r, fp) =>
         let first_purchase_month :=
           match fp with Some x => snd x | None => None end in
         (r, opt_eqb (dr_order_month r) first_purchase_month))
      (merge_left (fun r (fp : string * option Z) =>
                     String.eqb (dr_customer_unique_id r) (fst fp))
         rows (first_purchase rows)).

(** The [new_customers] frame: per month with at least one new-customer row,
    the number of distinct customers on those rows. *)
Definition new_customers_df (rows : list delivered_row) : list (Z * Z) :=
  let news := map fst (filter snd (with_is_new rows)) in
  map (fun k => (k, nunique (map dr_customer_unique_id (month_group k news))))
      (month_keys news).

Record monthly_row : Type := mk_monthly {
  order_month : Z;
  total_orders : Z;
  unique_customers : Z;
  total_revenue : fval;
  avg_order_value_m : fval;
  avg_review_score_m : fval;
  avg_delivery_days_m : fval;
  on_time_delivery_rate : fval;
  new_customers : option Z;
  returning_customers : option Z
}.

Definition export_monthly_metrics (db : database) : list monthly_row :=
  let rows := delivered db in
  let monthly :=
    map (fun k => (k, month_group k rows)) (month_keys rows) in
  map (fun '((k, g), nc) =>
         let unique_c := nunique (map dr_customer_unique_id g) in
         let new_c := option_map snd nc in
         mk_monthly k
           (Z.of_nat (List.length g))
           unique_c
           (fround2 (FNum (qsum (dropna (map dr_payment_value g)))))
           (fround2 (mean_skipna (map dr_payment_value g)))
           (fround2 (mean_skipna (map (option_map inject_Z) (map dr_review_score g))))
           (fround1 (mean_skipna (map (option_map inject_Z) (map dr_delivery_days g))))
           (fround2 (fscale (mean_bool (map dr_is_on_time g)) 100))
           new_c
           (opt_map2 Z.sub (Some unique_c) new_c))
      (merge_left (fun (m : Z * list delivered_row) (n : Z * Z) => fst m =? fst n)
         monthly (new_customers_df rows)).

(* ================================================================== *)
(** * Seller performance ([export_seller_performance]) *)

(** SQLite [JULIANDAY]: the Julian day number, a fractional number of days. *)
Definition julianday (t : timestamp) : Q :=
  ((4881175 # 2) + inject_Z t / inject_Z SECONDS_PER_DAY)%Q.

(** [a <= b] on two float columns holding finite values or NaN. *)
Definition optQ_leb (a b : option Q) : bool :=
  match a, b with
  | Some x, Some y => Qle_bool x y
  | _, _ => false
  end.

(** A row of the delivery frame. *)
Record delivery_row : Type := mk_delivery {
  dl_seller_id : string;
  dl_order_id : string;
  dl_delivery_days : option Q;
  dl_estimated_days : option Q;
  dl_is_on_time : bool
}.

(** The delivery columns the query computes for an order, and the flag the
    script adds. *)
Definition seller_delivery_days (o : order) : option Q :=
  opt_map2 Qminus (option_map julianday (order_delivered_customer_date o))
                  (option_map julianday (order_purchase_timestamp o)).

Definition seller_estimated_days (o : order) : option Q :=
  opt_map2 Qminus (option_map julianday (order_estimated_delivery_date o))
                  (option_map julianday (order_purchase_timestamp o)).

Definition seller_is_on_time (o : order) : bool :=
  optQ_leb (seller_delivery_days o) (seller_estimated_days o).

(** The [WHERE] clause of the delivery query. *)
Definition delivery_eligible (o : order) : bool :=
  is_delivered o
  && negb (isna (order_delivered_customer_date o))
  && negb (isna (order_estimated_delivery_date o)).

(** [order_items oi JOIN orders o ON oi.order_id = o.order_id WHERE ...],
    with the flag, first row per (order, seller) kept. *)
Definition delivery (db : database) : list delivery_row :=
  drop_duplicates pair_eqb (fun d => (dl_order_id d, dl_seller_id d))
    (map (fun '(oi, o) =>
            mk_delivery (i_seller_id oi) (i_order_id oi)
              (seller_delivery_days o) (seller_estimated_days o)
              (seller_is_on_time o))
       (filter (fun io : order_item * order => delivery_eligible (snd io))
          (inner_join (fun oi o => String.eqb (i_order_id oi) (order_id o))
             (order_items db) (orders db)))).

(** [sellers s JOIN order_items oi JOIN orders o WHERE delivered]. *)
Definition seller_items (db : database) : list (seller * order_item) :=
  map fst
    (filter (fun sio : seller * order_item * order => is_delivered (snd sio))
       (inner_join (fun (si : seller * order_item) o =>
                      String.eqb (i_order_id (snd si)) (order_id o))
          (inner_join (fun s oi => String.eqb (seller_id s) (i_seller_id oi))
             (sellers db) (order_items db))
          (orders db))).

(** [order_reviews r JOIN order_items oi], first row per (order, seller). *)
Definition seller_review_rows (db : database) : list (string * string * Z) :=
  drop_duplicates pair_eqb (fun x : string * string * Z => (snd (fst x), fst (fst x)))
    (map (fun '(r, oi) => (i_seller_id oi, rv_order_id r, review_score r))
       (inner_join (fun r oi => String.eqb (rv_order_id r) (i_order_id oi))
          (order_reviews db) (order_items db))).

(** The merged seller frame, before scoring. *)
Record seller_metrics : Type := mk_seller_metrics {
  sm_seller_id : string;
  sm_total_orders : Z;
  sm_total_revenue : Q;
  sm_total_freight : Q;
  sm_seller_city : string;
  sm_seller_state : string;
  sm_avg_review_score : fval;
  sm_review_count : option Z;
  sm_on_time_rate : fval;
  sm_avg_delivery_days : fval
}.

Definition seller_revenue (db : database)
  : list (string * Z * Q * Q * string * string) :=
  groupby String.eqb String.leb (fun si : seller * order_item => seller_id (fst si))
    (fun k g =>
       (k, nunique (map (fun si => i_order_id (snd si)) g),
        qsum (map (fun si => price (snd si)) g),
        qsum (map (fun si => freight_value (snd si)) g),
        hd EmptyString (map (fun si => seller_city (fst si)) g),
        hd EmptyString (map (fun si => seller_state (fst si)) g)))
    (seller_items db).

Definition seller_reviews (db : database) : list (string * fval * Z) :=
  groupby String.eqb String.leb (fun x : string * string * Z => fst (fst x))
    (fun k g => (k, qmean (map (fun x => inject_Z (snd x)) g),
                 Z.of_nat (List.length g)))
    (seller_review_rows db).

Definition seller_delivery (db : database) : list (string * fval * fval) :=
  groupby String.eqb String.leb dl_seller_id
    (fun k g => (k, mean_bool (map dl_is_on_time g),
                 mean_skipna (map dl_delivery_days g)))
    (delivery db).

Definition seller_frame (db : database) : list seller_metrics :=
  map (fun '((((((k, n), rev), fr), city), st), rv, dv) =>
         mk_seller_metrics k n rev fr city st
           (match rv with Some x => snd (fst x) | None => FNaN end)
           (option_map snd rv)
           (match dv with Some x => snd (fst x) | None => FNaN end)
           (match dv with Some x => snd x | None => FNaN end))
      (merge_left (fun (x : string * Z * Q * Q * string * string
                            * option (string * fval * Z))
                       (d : string * fval * fval) =>
                     String.eqb (fst (fst (fst (fst (fst (fst x)))))) (fst (fst d)))
         (merge_left (fun (x : string * Z * Q * Q * string * string)
                          (r : string * fval * Z) =>
                        String.eqb (fst (fst (fst (fst (fst x))))) (fst (fst r)))
            (seller_revenue db) (seller_reviews db))
         (seller_delivery db)).

Definition q_min (l : list Q) : Q :=
  match l with
  | [] => 0%Q
  | h :: t => fold_right (fun x acc => if Qle_bool x acc then x else acc) h t
  end.

Definition q_max (l : list Q) : Q :=
  match l with
  | [] => 0%Q
  | h :: t => fold_right (fun x acc => if Qle_bool acc x then x else acc) h t
  end.

(** [(x - min) / (max - min) * 100] over the revenue column. *)
Definition revenue_score (revenues : list Q) (x : Q) : fval :=
  fscale (fdiv_num (x - q_min revenues) (q_max revenues - q_min revenues)) 100.

(** [avg_review_score / 5 * 100]. *)
Definition review_score_normalized (avg_review_score : fval) : fval :=
  fscale (fscale avg_review_score (1 # 5)) 100.

(** [on_time_rate * 100]. *)
Definition delivery_score (on_time_rate : fval) : fval :=
  fscale on_time_rate 100.

(** The weighted average, rounded to two decimals. *)
Definition composite_score (revenues : list Q) (s : seller_metrics) : fval :=
  fround2
    (fadd (fadd (fscale (revenue_score revenues (sm_total_revenue s)) (3 # 10))
                (fscale (review_score_normalized (sm_avg_review_score s)) (4 # 10)))
          (fscale (delivery_score (sm_on_time_rate s)) (3 # 10))).

(** A row of the seller_performance extract. *)
Record seller_performance_row : Type := mk_seller_performance {
  sp_metrics : seller_metrics;
  sp_revenue_score : fval;
  sp_review_score_normalized : fval;
  sp_delivery_score : fval;
  sp_composite_score : fval;
  avg_review_score : fval;
  on_time_rate : fval;
  avg_delivery_days : fval;
  sp_total_revenue : fval;
  seller_rank : option Z
}.

(** The scoring and ranking of the merged frame. *)
Definition score_sellers (frame : list seller_metrics) : list seller_performance_row :=
  let revenues := map sm_total_revenue frame in
  let composites := map (composite_score revenues) frame in
  map (fun '(s, rank) =>
         mk_seller_performance s
           (revenue_score revenues (sm_total_revenue s))
           (review_score_normalized (sm_avg_review_score s))
           (delivery_score (sm_on_time_rate s))
           (composite_score revenues s)
           (fround2 (sm_avg_review_score s))
           (fround2 (fscale (sm_on_time_rate s) 100))
           (fround1 (sm_avg_delivery_days s))
           (fround2 (FNum (sm_total_revenue s)))
           rank)
      (combine frame (rank_min_desc composites)).

Definition export_seller_performance (db : database) : list seller_performance_row :=
  score_sellers (seller_frame db).

(* ================================================================== *)
(** * Product sales ([export_product_sales]) *)

Record product : Type := mk_product {
  product_id : string;
  product_category_name : option string
}.

Record category_translation : Type := mk_translation {
  t_product_category_name : string;
  product_category_name_english : option string
}.

(** A row of [order_items] with the two columns that only the product sales
    read. *)
Record sales_item : Type := mk_sales_item {
  si_item : order_item;
  si_product_id : string;
  shipping_limit_date : option timestamp
}.

(** The tables read by [export_product_sales].  The measures of a product
    and the zip code prefix of a seller are carried to the output unchanged
    and are left out. *)
Record sales_database : Type := mk_sales_db {
  sd_order_items : list sales_item;
  sd_products : list product;
  sd_product_category_translation : list category_translation;
  sd_sellers : list seller;
  sd_orders : list order
}.

(** [SELECT order_id, order_purchase_timestamp, order_status FROM orders]. *)
Record order_date : Type := mk_order_date {
  od_order_id : string;
  od_order_purchase_timestamp : option timestamp;
  od_order_status : string
}.

Definition order_dates (sd : sales_database) : list order_date :=
  map (fun o => mk_order_date (order_id o) (order_purchase_timestamp o)
                  (order_status o))
    (sd_orders sd).

(** [dt.year]. *)
Definition dt_year (t : timestamp) : Z :=
  let '(y, _, _) := civil_from_days (t / SECONDS_PER_DAY) in y.

(** [p.product_category_name] of a left-joined product: NULL without a
    product. *)
Definition joined_category (p : option product) : option string :=
  match p with
  | Some x => product_category_name x
  | None => None
  end.

(** [FROM order_items oi LEFT JOIN products p ON oi.product_id = p.product_id
    LEFT JOIN product_category_translation t
      ON p.product_category_name = t.product_category_name
    LEFT JOIN sellers s ON oi.seller_id = s.seller_id]. *)
Definition product_sales_query (sd : sales_database)
  : list (sales_item * option product * option category_translation
          * option seller) :=
  let with_products :=
    merge_left (fun oi p => String.eqb (si_product_id oi) (product_id p))
      (sd_order_items sd) (sd_products sd) in
  let with_translation :=
    merge_left (fun (x : sales_item * option product) t =>
                  sql_eq (joined_category (snd x)) (t_product_category_name t))
      with_products (sd_product_category_translation sd) in
  merge_left (fun (x : sales_item * option product * option category_translation) s =>
                String.eqb (i_seller_id (si_item (fst (fst x)))) (seller_id s))
    with_translation (sd_sellers sd).

(** [fillna('Unknown')] on the English category name of the joined
    translation. *)
Definition fillna_unknown (t : option category_translation) : string :=
  match t with
  | Some tr =>
      match product_category_name_english tr with
      | Some e => e
      | None => "Unknown"%string
      end
  | None => "Unknown"%string
  end.

(** [order_purchase_timestamp] of a left-merged order: NaT without an
    order. *)
Definition merged_purchase (od : option order_date) : option timestamp :=
  match od with
  | Some d => od_order_purchase_timestamp d
  | None => None
  end.

Record product_sales_row : Type := mk_product_sales {
  ps_item : sales_item;
  ps_product : option product;
  ps_translation : option category_translation;
  ps_seller : option seller;
  ps_order_date : option order_date;
  ps_order_month : string;
  ps_order_year : option Z;
  total_item_value : Q;
  ps_product_category_name_english : string
}.

Definition export_product_sales (sd : sales_database) : list product_sales_row :=
  let product_sales :=
    merge_left (fun (x : sales_item * option product
                         * option category_translation * option seller) od =>
                  String.eqb (i_order_id (si_item (fst (fst (fst x)))))
                    (od_order_id od))
      (product_sales_query sd) (order_dates sd) in
  map (fun '((((oi, p), t), s), od) =>
         mk_product_sales oi p t s od
           (period_astype_str (option_map to_period_M (merged_purchase od)))
           (option_map dt_year (merged_purchase od))
           (price (si_item oi) + freight_value (si_item oi))%Q
           (fillna_unknown t))
    product_sales.

(* ================================================================== *)
(** * Views of the source used to state properties *)

(** The payments of one order. *)
Definition payments_of (db : database) (oid : string) : list order_payment :=
  group String.eqb p_order_id oid (order_payments db).

(* ================================================================== *)
(** * Sample data *)

Definition delivered_order (id cid : string) (purchase delivered_at estimated : option timestamp)
  : order :=
  mk_order id (Some cid) "delivered" purchase None None delivered_at estimated.

Definition sample_customer (cid uid : string) : customer :=
  mk_customer cid uid "sao paulo" "SP" "01000".

Definition card_payment (oid : string) (v : Q) : order_payment :=
  mk_payment oid v "credit_card" 1.

(** A delivered order whose delivery date was never recorded. *)
Definition order_without_delivery_date : order :=
  delivered_order "o3" "c3" (Some (mk_ts 2024 2 3 0 0 0)) None
    (Some (mk_ts 2024 2 20 0 0 0)).

(** Delivered at 18:00 of the day estimated for midnight. *)
Definition order_late_same_day : order :=
  delivered_order "o1" "c1" (Some (mk_ts 2024 1 10 0 0 0))
    (Some (mk_ts 2024 1 15 18 0 0)) (Some (mk_ts 2024 1 15 0 0 0)).

(** The scenario of the specification: bought on the 10th, delivered on the
    15th, estimated for the 20th. *)
Definition order_scenario : order :=
  delivered_order "o9" "c9" (Some (mk_ts 2024 1 10 0 0 0))
    (Some (mk_ts 2024 1 15 0 0 0)) (Some (mk_ts 2024 1 20 0 0 0)).

(** Three orders of two persons, with a duplicated review, a split payment,
    an order without payment and an order without customer. *)
Definition sample_db : database :=
  mk_db
    [ order_late_same_day;
      delivered_order "o2" "c2" (Some (mk_ts 2024 2 10 0 0 0))
        (Some (mk_ts 2024 2 12 0 0 0)) (Some (mk_ts 2024 2 20 0 0 0));
      order_without_delivery_date;
      mk_order "o4" None "canceled" (Some (mk_ts 2024 3 1 0 0 0)) None None None None ]
    [ sample_customer "c1" "u1"; sample_customer "c2" "u1"; sample_customer "c3" "u3" ]
    [ card_payment "o1" 10; card_payment "o2" 20; card_payment "o2" (5 # 2) ]
    [ mk_review "o1" 5 None; mk_review "o2" 4 None; mk_review "o1" 1 None ]
    [ mk_item "o1" 1 "s1" 100 10; mk_item "o1" 2 "s1" 50 10;
      mk_item "o2" 1 "s2" 150 5; mk_item "o3" 1 "s3" 150 5 ]
    [ mk_seller "s1" "curitiba" "PR"; mk_seller "s2" "curitiba" "PR";
      mk_seller "s3" "curitiba" "PR" ].

(** Two sellers with one delivered, reviewed, punctual order each and the
    same revenue. *)
Definition tied_revenue_db : database :=
  mk_db
    [ delivered_order "o1" "c1" (Some (mk_ts 2024 1 10 0 0 0))
        (Some (mk_ts 2024 1 15 0 0 0)) (Some (mk_ts 2024 1 20 0 0 0));
      delivered_order "o2" "c2" (Some (mk_ts 2024 2 10 0 0 0))
        (Some (mk_ts 2024 2 12 0 0 0)) (Some (mk_ts 2024 2 20 0 0 0)) ]
    [ sample_customer "c1" "u1"; sample_customer "c2" "u2" ]
    [ card_payment "o1" 160; card_payment "o2" 155 ]
    [ mk_review "o1" 5 None; mk_review "o2" 4 None ]
    [ mk_item "o1" 1 "s1" 150 10; mk_item "o2" 1 "s2" 150 5 ]
    [ mk_seller "s1" "curitiba" "PR"; mk_seller "s2" "curitiba" "PR" ].

(** The composite scores of the ranking scenario: 87.50, 87.50 and 90.00. *)
Definition scenario_scores : list fval :=
  [FNum (8750 # 100); FNum (8750 # 100); FNum (9000 # 100)].

(** Three sellers: the cheapest punctual, the dearest late, the middle one
    punctual; every order reviewed with 5. *)
Definition ranked_db : database :=
  mk_db
    [ delivered_order "o1" "c1" (Some (mk_ts 2024 1 10 0 0 0))
        (Some (mk_ts 2024 1 15 0 0 0)) (Some (mk_ts 2024 1 20 0 0 0));
      delivered_order "o2" "c2" (Some (mk_ts 2024 2 10 0 0 0))
        (Some (mk_ts 2024 2 22 0 0 0)) (Some (mk_ts 2024 2 20 0 0 0));
      delivered_order "o3" "c3" (Some (mk_ts 2024 3 10 0 0 0))
        (Some (mk_ts 2024 3 12 0 0 0)) (Some (mk_ts 2024 3 20 0 0 0)) ]
    [ sample_customer "c1" "u1"; sample_customer "c2" "u2"; sample_customer "c3" "u3" ]
    [ card_payment "o1" 110; card_payment "o2" 210; card_payment "o3" 160 ]
    [ mk_review "o1" 5 None; mk_review "o2" 5 None; mk_review "o3" 5 None ]
    [ mk_item "o1" 1 "s1" 100 10; mk_item "o2" 1 "s2" 200 10;
      mk_item "o3" 1 "s3" 150 10 ]
    [ mk_seller "s1" "curitiba" "PR"; mk_seller "s2" "curitiba" "PR";
      mk_seller "s3" "curitiba" "PR" ].

(** One person buying in January and again in February. *)
Definition returning_only_db : database :=
  mk_db
    [ delivered_order "o1" "c1" (Some (mk_ts 2024 1 10 0 0 0))
        (Some (mk_ts 2024 1 15 0 0 0)) (Some (mk_ts 2024 1 20 0 0 0));
      delivered_order "o2" "c2" (Some (mk_ts 2024 2 10 0 0 0))
        (Some (mk_ts 2024 2 12 0 0 0)) (Some (mk_ts 2024 2 20 0 0 0)) ]
    [ sample_customer "c1" "u1"; sample_customer "c2" "u1" ]
    [ card_payment "o1" 160; card_payment "o2" 155 ]
    [ mk_review "o1" 5 None; mk_review "o2" 4 None ]
    [] [].

Definition bought_at (id cid : string) (purchase : option timestamp) : order :=
  mk_order id (Some cid) "delivered" purchase None None None None.

(** Five persons who all bought at the same moment, for different amounts. *)
Definition tied_recency_db : database :=
  mk_db
    [ bought_at "o1" "c1" (Some (mk_ts 2024 1 1 0 0 0));
      bought_at "o2" "c2" (Some (mk_ts 2024 1 1 0 0 0));
      bought_at "o3" "c3" (Some (mk_ts 2024 1 1 0 0 0));
      bought_at "o4" "c4" (Some (mk_ts 2024 1 1 0 0 0));
      bought_at "o5" "c5" (Some (mk_ts 2024 1 1 0 0 0)) ]
    [ sample_customer "c1" "u1"; sample_customer "c2" "u2";
      sample_customer "c3" "u3"; sample_customer "c4" "u4";
      sample_customer "c5" "u5" ]
    [ card_payment "o1" 10; card_payment "o2" 20; card_payment "o3" 30;
      card_payment "o4" 40; card_payment "o5" 50 ]
    [] [] [].

(** Six persons on different days; u1 bought twice, the order of u6 has no
    purchase timestamp and no payment. *)
Definition six_customers_db : database :=
  mk_db
    [ bought_at "o1" "c1" (Some (mk_ts 2024 1 1 0 0 0));
      bought_at "o2" "c2" (Some (mk_ts 2024 1 2 0 0 0));
      bought_at "o3" "c3" (Some (mk_ts 2024 1 3 0 0 0));
      bought_at "o4" "c4" (Some (mk_ts 2024 1 4 0 0 0));
      bought_at "o5" "c5" (Some (mk_ts 2024 1 5 0 0 0));
      bought_at "o6" "c6" None;
      bought_at "o7" "c7" (Some (mk_ts 2024 1 6 10 0 0)) ]
    [ sample_customer "c6" "u6"; sample_customer "c1" "u1";
      sample_customer "c2" "u2"; sample_customer "c3" "u3";
      sample_customer "c4" "u4"; sample_customer "c5" "u5";
      sample_customer "c7" "u1" ]
    [ card_payment "o1" 10; card_payment "o2" 20; card_payment "o3" 30;
      card_payment "o4" 40; card_payment "o5" 50; card_payment "o7" 5 ]
    [] [] [].

(** Six persons, the two most recent of whom bought at the same moment. *)
Definition partly_tied_db : database :=
  mk_db
    [ bought_at "o1" "c1" (Some (mk_ts 2024 1 1 0 0 0));
      bought_at "o2" "c2" (Some (mk_ts 2024 1 2 0 0 0));
      bought_at "o3" "c3" (Some (mk_ts 2024 1 3 0 0 0));
      bought_at "o4" "c4" (Some (mk_ts 2024 1 4 0 0 0));
      bought_at "o5" "c5" (Some (mk_ts 2024 1 5 0 0 0));
      bought_at "o6" "c6" (Some (mk_ts 2024 1 5 0 0 0)) ]
    [ sample_customer "c1" "u1"; sample_customer "c2" "u2";
      sample_customer "c3" "u3"; sample_customer "c4" "u4";
      sample_customer "c5" "u5"; sample_customer "c6" "u6" ]
    [ card_payment "o1" 10; card_payment "o2" 20; card_payment "o3" 30;
      card_payment "o4" 40; card_payment "o5" 50; card_payment "o6" 60 ]
    [] [] [].

(** The extract of a run, or no rows when the run raised. *)
Definition rows_of {A} (r : result (list A)) : list A :=
  match r with
  | OK rows => rows
  | ValueError _ => []
  end.

(** Three sellers with different revenues; the order of the third has no
    review. *)
Definition ranked_no_review_db : database :=
  mk_db
    [ delivered_order "o1" "c1" (Some (mk_ts 2024 1 10 0 0 0))
        (Some (mk_ts 2024 1 15 0 0 0)) (Some (mk_ts 2024 1 20 0 0 0));
      delivered_order "o2" "c2" (Some (mk_ts 2024 2 10 0 0 0))
        (Some (mk_ts 2024 2 12 0 0 0)) (Some (mk_ts 2024 2 20 0 0 0));
      delivered_order "o3" "c3" (Some (mk_ts 2024 3 10 0 0 0))
        (Some (mk_ts 2024 3 12 0 0 0)) (Some (mk_ts 2024 3 20 0 0 0)) ]
    [ sample_customer "c1" "u1"; sample_customer "c2" "u2"; sample_customer "c3" "u3" ]
    [ card_payment "o1" 110; card_payment "o2" 210; card_payment "o3" 160 ]
    [ mk_review "o1" 5 None; mk_review "o2" 5 None ]
    [ mk_item "o1" 1 "s1" 100 10; mk_item "o2" 1 "s2" 200 10;
      mk_item "o3" 1 "s3" 150 10 ]
    [ mk_seller "s1" "curitiba" "PR"; mk_seller "s2" "curitiba" "PR";
      mk_seller "s3" "curitiba" "PR" ].

(** Four order items: a translated category, a product without category, a
    product missing from [products], and an item whose category has no
    translation and whose order and seller are missing from their tables. *)
Definition sales_sample_db : sales_database :=
  mk_sales_db
    [ mk_sales_item (mk_item "o1" 1 "s1" 100 10) "p1" (Some (mk_ts 2024 1 12 0 0 0));
      mk_sales_item (mk_item "o1" 2 "s2" 50 5) "p2" (Some (mk_ts 2024 1 12 0 0 0));
      mk_sales_item (mk_item "o2" 1 "s1" 20 2) "p3" None;
      mk_sales_item (mk_item "o9" 1 "s9" 30 3) "p4" None ]
    [ mk_product "p1" (Some "beleza_saude"%string);
      mk_product "p2" None;
      mk_product "p4" (Some "pc_gamer"%string) ]
    [ mk_translation "beleza_saude" (Some "health_beauty"%string) ]
    [ mk_seller "s1" "curitiba" "PR"; mk_seller "s2" "curitiba" "PR" ]
    [ delivered_order "o1" "c1" (Some (mk_ts 2024 1 10 8 30 0))
        (Some (mk_ts 2024 1 15 0 0 0)) (Some (mk_ts 2024 1 20 0 0 0));
      delivered_order "o2" "c2" None None None ].

(** One order whose customer_id is carried by two rows of the customers
    table. *)
Definition repeated_customer_db : database :=
  mk_db
    [ delivered_order "o1" "c1" (Some (mk_ts 2024 1 10 0 0 0))
        (Some (mk_ts 2024 1 15 0 0 0)) (Some (mk_ts 2024 1 20 0 0 0)) ]
    [ sample_customer "c1" "u1"; sample_customer "c1" "u2" ]
    [ card_payment "o1" 110 ]
    [ mk_review "o1" 5 None ]
    [] [].

(* ================================================================== *)
(** * Properties of the data-frame primitives *)

Section FrameFacts.
Context {K : Type} (eqb : K -> K -> bool).
Hypothesis eqb_spec : forall a b, eqb a b = true <-> a = b.

Lemma existsb_eqb_In (k : K) (seen : list K) :
  existsb (eqb k) seen = true <-> In k seen.
Proof.
  rewrite existsb_exists. split.
  - intros [x [Hin Hx]]. apply eqb_spec in Hx. now subst.
  - intros Hin. exists k. split; [assumption | now apply eqb_spec].
Qed.

Lemma drop_duplicates_from_keys {R} (key : R -> K) (rows : list R) :
  forall seen,
    NoDup (map key (drop_duplicates_from eqb key seen rows))
    /\ (forall r, In r (drop_duplicates_from eqb key seen rows) ->
                  In r rows /\ ~ In (key r) seen).
Proof.
  induction rows as [| r rest IH]; intros seen; simpl.
  - split; [constructor | intros ? []].
  - destruct (existsb (eqb (key r)) seen) eqn:E.
    + destruct (IH seen) as [Hnd Hin]. split; [assumption |].
      intros x Hx. destruct (Hin x Hx). auto.
    + destruct (IH (key r :: seen)) as [Hnd Hin]. split.
      * simpl. constructor; [| assumption].
        intros Hc. apply in_map_iff in Hc. destruct Hc as [x [Hk Hx]].
        destruct (Hin x Hx) as [_ Hn]. apply Hn. left. now symmetry.
      * intros x [Hx | Hx].
        -- subst x. split; [now left |].
           intros Hc. apply existsb_eqb_In in Hc. congruence.
        -- destruct (Hin x Hx) as [H1 H2]. split; [now right |].
           intros Hc. apply H2. now right.
Qed.

Lemma drop_duplicates_NoDup {R} (key : R -> K) (rows : list R) :
  NoDup (map key (drop_duplicates eqb key rows)).
Proof. apply (drop_duplicates_from_keys key rows []). Qed.

Lemma drop_duplicates_incl {R} (key : R -> K) (rows : list R) (r : R) :
  In r (drop_duplicates eqb key rows) -> In r rows.
Proof. intros H. now apply (drop_duplicates_from_keys key rows []) in H. Qed.

Lemma drop_duplicates_from_complete {R} (key : R -> K) (rows : list R) :
  forall seen r, In r rows -> ~ In (key r) seen ->
    In (key r) (map key (drop_duplicates_from eqb key seen rows)).
Proof.
  induction rows as [| a rest IH]; intros seen r Hin Hns; simpl in *.
  - contradiction.
  - destruct (existsb (eqb (key a)) seen) eqn:E.
    + destruct Hin as [-> | Hin].
      * apply existsb_eqb_In in E. contradiction.
      * now apply IH.
    + simpl. destruct Hin as [-> | Hin]; [now left |].
      destruct (eqb (key a) (key r)) eqn:Ek.
      * apply eqb_spec in Ek. now left.
      * right. apply IH; [assumption |].
        intros [Hc | Hc]; [| contradiction].
        apply eqb_spec in Hc. congruence.
Qed.

Lemma unique_NoDup (ks : list K) : NoDup (unique eqb ks).
Proof.
  unfold unique. rewrite <- (map_id (drop_duplicates eqb (fun k => k) ks)).
  apply drop_duplicates_NoDup.
Qed.

Lemma unique_In (ks : list K) (k : K) : In k (unique eqb ks) <-> In k ks.
Proof.
  unfold unique. split.
  - apply drop_duplicates_incl.
  - intros H.
    pose proof (drop_duplicates_from_complete (fun k => k) ks [] k H (fun x => x)) as Hc.
    now rewrite map_id in Hc.
Qed.

Lemma insert_sorted_perm (leb : K -> K -> bool) (k : K) (l : list K) :
  Permutation (k :: l) (insert_sorted leb k l).
Proof.
  induction l as [| h t IH]; simpl.
  - apply Permutation_refl.
  - destruct (leb k h).
    + apply Permutation_refl.
    + eapply perm_trans; [apply perm_swap |]. now apply perm_skip.
Qed.

Lemma group_keys_perm (leb : K -> K -> bool) (ks : list K) :
  Permutation (unique eqb ks) (group_keys eqb leb ks).
Proof.
  unfold group_keys. induction (unique eqb ks) as [| h t IH]; simpl.
  - apply Permutation_refl.
  - eapply perm_trans; [| apply insert_sorted_perm]. now apply perm_skip.
Qed.

Lemma group_keys_NoDup (leb : K -> K -> bool) (ks : list K) :
  NoDup (group_keys eqb leb ks).
Proof.
  eapply Permutation_NoDup; [apply group_keys_perm | apply unique_NoDup].
Qed.

Lemma group_keys_In (leb : K -> K -> bool) (ks : list K) (k : K) :
  In k (group_keys eqb leb ks) <-> In k ks.
Proof.
  rewrite <- (unique_In ks k). split; apply Permutation_in.
  - apply Permutation_sym, group_keys_perm.
  - apply group_keys_perm.
Qed.

(** At most one row of a frame with distinct keys carries a given key. *)
Lemma filter_key_at_most_one {R} (key : R -> K) (f : R -> bool) (k : K)
    (rows : list R) :
  NoDup (map key rows) ->
  (forall r, f r = true -> key r = k) ->
  (List.length (filter f rows) <= 1)%nat.
Proof.
  intros Hnd Hf. induction rows as [| a rest IH]; simpl; [lia |].
  inversion Hnd as [| ? ? Hnotin Hnd']; subst.
  destruct (f a) eqn:Ea; [| now apply IH].
  assert (Hempty : filter f rest = []).
  { destruct (filter f rest) as [| b more] eqn:Eb; [reflexivity |].
    exfalso. assert (Hb : In b (filter f rest)) by (rewrite Eb; now left).
    apply filter_In in Hb. destruct Hb as [Hb1 Hb2].
    apply Hnotin. rewrite (Hf a Ea), <- (Hf b Hb2). now apply in_map. }
  rewrite Hempty. simpl. lia.
Qed.
End FrameFacts.

(** A left join whose right side matches each left row at most once returns
    the left rows, each once, in order. *)
Lemma merge_left_fst {L R} (on : L -> R -> bool) (left : list L) (right : list R) :
  (forall x, In x left -> (List.length (filter (on x) right) <= 1)%nat) ->
  map fst (merge_left on left right) = left.
Proof.
  induction left as [| x rest IH]; intros H; simpl; [reflexivity |].
  rewrite map_app, IH by (intros y Hy; apply H; now right).
  specialize (H x (or_introl eq_refl)).
  destruct (filter (on x) right) as [| y [| z more]]; simpl in *;
    [reflexivity | reflexivity | lia].
Qed.

(** Every row of a left join comes from a left row. *)
Lemma merge_left_In_fst {L R} (on : L -> R -> bool) (left : list L) (right : list R)
    (x : L) (y : option R) :
  In (x, y) (merge_left on left right) -> In x left.
Proof.
  unfold merge_left. rewrite in_flat_map. intros [a [Ha Hin]].
  destruct (filter (on a) right) as [| b more].
  - destruct Hin as [Heq | []]. inversion Heq. now subst.
  - apply in_map_iff in Hin. destruct Hin as [c [Heq _]]. inversion Heq. now subst.
Qed.

(* ================================================================== *)
(** * Orders fact: grain and delivery columns *)

Lemma string_eqb_spec (a b : string) : String.eqb a b = true <-> a = b.
Proof. apply String.eqb_eq. Qed.

(** The aggregated payments hold one row per order id. *)
Lemma of_payments_df_keys (db : database) :
  NoDup (map pa_order_id (of_payments_df db)).
Proof.
  unfold of_payments_df, sql_group_by. rewrite map_map. simpl. rewrite map_id.
  apply unique_NoDup, string_eqb_spec.
Qed.

(** The deduplicated reviews hold one row per order id. *)
Lemma of_reviews_df_keys (db : database) :
  NoDup (map rv_order_id (of_reviews_df db)).
Proof. apply drop_duplicates_NoDup, string_eqb_spec. Qed.

Lemma of_orders_df_orders (db : database) :
  NoDup (map c_customer_id (customers db)) ->
  map fst (of_orders_df db) = orders db.
Proof.
  intros Hnd. apply merge_left_fst. intros o _.
  destruct (customer_id o) as [k |] eqn:Ek.
  - apply (filter_key_at_most_one c_customer_id _ k);
      [assumption |].
    intros c Hc. simpl in Hc.
    symmetry. now apply String.eqb_eq.
  - simpl. clear Hnd.
    induction (customers db) as [| c rest IH]; simpl; [lia | exact IH].
Qed.

(** C9, amended.  When customer_id is a key of the customers table, the
    orders_fact extract holds exactly one row per row of the orders table, in
    table order: the left joins with the customers, with the payments
    aggregated per order and with the reviews deduplicated per order keep
    every order, also one without customer, payment or review, and repeat
    none.  The script brings the payments and the reviews to one row per
    order itself; the customers it joins as they are. *)
Theorem export_orders_fact_one_row_per_order (db : database) :
  NoDup (map c_customer_id (customers db)) ->
  map of_order (export_orders_fact db) = orders db.
Proof.
  intros Hnd. unfold export_orders_fact.
  set (U := of_orders_df db).
  set (V := merge_left _ U (of_payments_df db)).
  set (W := merge_left _ V (of_reviews_df db)).
  assert (HU : map fst U = orders db) by now apply of_orders_df_orders.
  assert (HV : map fst V = U).
  { apply merge_left_fst. intros x _.
    apply (filter_key_at_most_one
             pa_order_id _ (order_id (fst x)));
      [apply of_payments_df_keys |].
    intros p Hp. symmetry. now apply String.eqb_eq. }
  assert (HW : map fst W = V).
  { apply merge_left_fst. intros x _.
    apply (filter_key_at_most_one
             rv_order_id _ (order_id (fst (fst x))));
      [apply of_reviews_df_keys |].
    intros r Hr. symmetry. now apply String.eqb_eq. }
  transitivity (map fst (map fst (map fst W))).
  - rewrite !map_map. apply map_ext. intros [[[o c] p] r]. reflexivity.
  - now rewrite HW, HV.
Qed.

Lemma export_orders_fact_one_row_per_order_witness :
  map of_order (export_orders_fact sample_db) = orders sample_db.
Proof.
  apply (export_orders_fact_one_row_per_order sample_db).
  vm_compute. repeat constructor; simpl; intuition discriminate.
Defined.

(** C9 fails as stated: the customers are joined without being brought to
    one row per customer_id, so an order whose customer_id is carried by two
    customers rows has two rows in orders_fact. *)
Lemma repeated_customer_id_duplicates_order :
  map order_id (orders repeated_customer_db) = ["o1"%string]
  /\ map (fun row => (order_id (of_order row),
                      option_map customer_unique_id (of_customer row),
                      option_map total_payment_value (of_payment row)))
       (export_orders_fact repeated_customer_db)
     = [("o1"%string, Some "u1"%string, Some 110%Q);
        ("o1"%string, Some "u2"%string, Some 110%Q)]
  /\ map of_order (export_orders_fact repeated_customer_db)
     <> orders repeated_customer_db.
Proof.
  split; [reflexivity |]. split; [vm_compute; reflexivity |].
  intros H. apply (f_equal (@List.length order)) in H.
  vm_compute in H. discriminate.
Qed.

(** The derived columns of a fact row are those of its order. *)
Lemma export_orders_fact_columns (db : database) (row : orders_fact_row) :
  In row (export_orders_fact db) ->
  of_actual_delivery_days row = actual_delivery_days (of_order row)
  /\ of_estimated_delivery_days row = estimated_delivery_days (of_order row)
  /\ of_delivery_delay_days row = delivery_delay_days (of_order row)
  /\ of_on_time_delivery row = on_time_delivery (of_order row).
Proof.
  unfold export_orders_fact. rewrite in_map_iff.
  intros [[[[o c] p] r] [Heq _]]. subst row. simpl. auto.
Qed.

(** Outside the delivered mask every derived delivery cell is missing. *)
Lemma on_time_delivery_outside_mask (o : order) :
  delivered_mask o = false ->
  actual_delivery_days o = None /\ estimated_delivery_days o = None
  /\ delivery_delay_days o = None /\ on_time_delivery o = None.
Proof.
  intros H. unfold delivery_delay_days, on_time_delivery,
    actual_delivery_days, estimated_delivery_days. rewrite H. simpl. auto.
Qed.

(** With both durations present the label is "On Time" exactly when the
    delay is at most zero. *)
Lemma on_time_delivery_present (o : order) (a e : Z) :
  actual_delivery_days o = Some a ->
  estimated_delivery_days o = Some e ->
  delivery_delay_days o = Some (a - e)
  /\ on_time_delivery o = Some (on_time_label (a - e <=? 0)).
Proof.
  intros Ha He. unfold on_time_delivery, delivery_delay_days.
  rewrite Ha, He. simpl.
  unfold actual_delivery_days in Ha.
  destruct (delivered_mask o); [split; reflexivity | discriminate].
Qed.

(** C4. On a delivered row whose actual or estimated duration is missing, the
    comparison [delivery_delay_days <= 0] is False on the NaN delay and the
    row is labelled "Late": the on-time cell is not missing although a
    duration is. *)
Theorem on_time_delivery_late_when_duration_missing (o : order) :
  delivered_mask o = true ->
  actual_delivery_days o = None \/ estimated_delivery_days o = None ->
  delivery_delay_days o = None
  /\ on_time_delivery o = Some "Late"%string.
Proof.
  intros Hm Hmiss.
  assert (Hd : delivery_delay_days o = None).
  { unfold delivery_delay_days.
    destruct Hmiss as [-> | ->]; [reflexivity |].
    now destruct (actual_delivery_days o). }
  split; [assumption |].
  unfold on_time_delivery. rewrite Hd, Hm. reflexivity.
Qed.

Lemma on_time_delivery_late_when_duration_missing_witness :
  delivered_mask order_without_delivery_date = true
  /\ actual_delivery_days order_without_delivery_date = None
  /\ estimated_delivery_days order_without_delivery_date = Some 17
  /\ delivery_delay_days order_without_delivery_date = None
  /\ on_time_delivery order_without_delivery_date = Some "Late"%string.
Proof.
  split; [reflexivity |]. split; [reflexivity |]. split; [reflexivity |].
  apply (on_time_delivery_late_when_duration_missing order_without_delivery_date).
  - reflexivity.
  - left. reflexivity.
Defined.

(** The scenario of the specification. *)
Example order_scenario_on_time :
  actual_delivery_days order_scenario = Some 5
  /\ estimated_delivery_days order_scenario = Some 10
  /\ delivery_delay_days order_scenario = Some (-5)
  /\ on_time_delivery order_scenario = Some "On Time"%string.
Proof. repeat split. Qed.

(* ================================================================== *)
(** * Seller performance: delivery flag, normalization, ranks *)

Lemma julianday_le (d e : Z) : (julianday d <= julianday e)%Q <-> d <= e.
Proof.
  unfold julianday. rewrite Qplus_le_r. unfold Qdiv.
  rewrite Qmult_le_r by reflexivity. rewrite <- Zle_Qle. reflexivity.
Qed.

Lemma julianday_diff_le (p d e : Z) :
  Qle_bool (julianday d - julianday p) (julianday e - julianday p) = true <-> d <= e.
Proof.
  rewrite Qle_bool_iff. unfold Qminus. rewrite Qplus_le_l. apply julianday_le.
Qed.

Lemma julianday_diff (p d : Z) :
  (julianday d - julianday p == inject_Z (d - p) / inject_Z SECONDS_PER_DAY)%Q.
Proof.
  unfold julianday, SECONDS_PER_DAY, Z.sub.
  rewrite inject_Z_plus, inject_Z_opp. field.
Qed.

Lemma Qfloor_days (a : Z) :
  Qfloor (inject_Z a / inject_Z SECONDS_PER_DAY) = td_days a.
Proof.
  unfold td_days, SECONDS_PER_DAY, Qdiv, Qmult, Qinv, inject_Z. simpl.
  rewrite Z.mul_1_r. reflexivity.
Qed.

Lemma td_days_mono (a b : Z) : a <= b -> td_days a <= td_days b.
Proof.
  intros H. unfold td_days, SECONDS_PER_DAY. apply Z.div_le_mono; lia.
Qed.

(** The seller-side duration is the fractional number of days; the
    orders_fact duration is its integer part. *)
Lemma seller_delivery_days_fraction (o : order) (p d : timestamp) :
  is_delivered o = true ->
  order_purchase_timestamp o = Some p ->
  order_delivered_customer_date o = Some d ->
  exists x, seller_delivery_days o = Some x
            /\ (x == inject_Z (d - p) / inject_Z SECONDS_PER_DAY)%Q
            /\ actual_delivery_days o = Some (Qfloor x).
Proof.
  intros Hs Hp Hd. exists (julianday d - julianday p)%Q.
  unfold seller_delivery_days, actual_delivery_days, delivered_mask.
  rewrite Hs, Hp, Hd. cbn [opt_map2 option_map dt_diff_days].
  split; [reflexivity |].
  split; [apply julianday_diff |].
  now rewrite (Qfloor_comp _ _ (julianday_diff p d)), Qfloor_days.
Qed.

(** C5, as the code has it.  For a delivered order with its three
    timestamps, the seller-side flag compares the fractional durations of the
    JULIANDAY differences, so it holds exactly when the delivery timestamp is
    not after the estimated one; the orders_fact label compares the whole-day
    durations.  A seller-side on-time order is "On Time" in orders_fact; the
    converse does not hold. *)
Theorem seller_on_time_implies_orders_fact_on_time (o : order) (p d e : timestamp) :
  is_delivered o = true ->
  order_purchase_timestamp o = Some p ->
  order_delivered_customer_date o = Some d ->
  order_estimated_delivery_date o = Some e ->
  (seller_is_on_time o = true <-> d <= e)
  /\ (on_time_delivery o = Some "On Time"%string
      <-> td_days (d - p) <= td_days (e - p))
  /\ (seller_is_on_time o = true -> on_time_delivery o = Some "On Time"%string).
Proof.
  intros Hs Hp Hd He.
  assert (H1 : seller_is_on_time o = true <-> d <= e).
  { unfold seller_is_on_time, seller_delivery_days, seller_estimated_days.
    rewrite Hp, Hd, He. cbn [opt_map2 option_map optQ_leb].
    apply julianday_diff_le. }
  assert (H2 : on_time_delivery o = Some "On Time"%string
               <-> td_days (d - p) <= td_days (e - p)).
  { unfold on_time_delivery, delivery_delay_days, actual_delivery_days,
      estimated_delivery_days, delivered_mask.
    rewrite Hs, Hp, Hd, He.
    cbn [dt_diff_days opt_map2 negb le_zero].
    destruct (td_days (d - p) - td_days (e - p) <=? 0) eqn:E;
      cbn [on_time_label].
    - apply Z.leb_le in E. split; [lia | reflexivity].
    - apply Z.leb_gt in E. split; [discriminate | lia]. }
  split; [exact H1 |]. split; [exact H2 |].
  intros H. apply H2, td_days_mono. apply H1 in H. lia.
Qed.

Lemma seller_on_time_implies_orders_fact_on_time_witness :
  (seller_is_on_time order_scenario = true
   <-> mk_ts 2024 1 15 0 0 0 <= mk_ts 2024 1 20 0 0 0)
  /\ (on_time_delivery order_scenario = Some "On Time"%string
      <-> td_days (mk_ts 2024 1 15 0 0 0 - mk_ts 2024 1 10 0 0 0)
          <= td_days (mk_ts 2024 1 20 0 0 0 - mk_ts 2024 1 10 0 0 0))
  /\ (seller_is_on_time order_scenario = true
      -> on_time_delivery order_scenario = Some "On Time"%string).
Proof.
  apply (seller_on_time_implies_orders_fact_on_time order_scenario);
    reflexivity.
Defined.

(** C5 fails as stated: an order delivered at 18:00 of the day estimated for
    midnight is returned by the delivery query, is late for its seller
    (5.75 days against 5) and "On Time" in orders_fact (5 whole days against
    5). *)
Lemma seller_on_time_differs_from_orders_fact :
  delivery_eligible order_late_same_day = true
  /\ actual_delivery_days order_late_same_day = Some 5
  /\ estimated_delivery_days order_late_same_day = Some 5
  /\ on_time_delivery order_late_same_day = Some "On Time"%string
  /\ optQ_leb (seller_delivery_days order_late_same_day) (Some (23 # 4)) = true
  /\ optQ_leb (Some (23 # 4)) (seller_delivery_days order_late_same_day) = true
  /\ seller_is_on_time order_late_same_day = false
  /\ map (fun r => (dl_order_id r, dl_seller_id r, dl_is_on_time r))
       (delivery sample_db)
     = [("o1", "s1", false); ("o2", "s2", true)]%string
  /\ map (fun r => (order_id (of_order r), of_on_time_delivery r))
       (export_orders_fact sample_db)
     = [("o1", Some "On Time"); ("o2", Some "On Time");
        ("o3", Some "Late"); ("o4", None)]%string.
Proof. vm_compute. repeat split. Qed.

Lemma q_min_In (l : list Q) : l <> [] -> In (q_min l) l.
Proof.
  destruct l as [| h t]; [congruence | intros _]. simpl.
  induction t as [| a t IH]; simpl; [now left |].
  destruct (Qle_bool a _); [right; now left |].
  destruct IH as [IH | IH]; [now left | right; now right].
Qed.

Lemma q_max_In (l : list Q) : l <> [] -> In (q_max l) l.
Proof.
  destruct l as [| h t]; [congruence | intros _]. simpl.
  induction t as [| a t IH]; simpl; [now left |].
  destruct (Qle_bool _ a); [right; now left |].
  destruct IH as [IH | IH]; [now left | right; now right].
Qed.

(** Min-max normalization of a constant column divides zero by zero. *)
Lemma revenue_score_constant_column (revenues : list Q) (x : Q) :
  In x revenues ->
  (forall y, In y revenues -> (y == x)%Q) ->
  revenue_score revenues x = FNaN.
Proof.
  intros Hin Hall.
  assert (Hne : revenues <> []) by (intros ->; inversion Hin).
  pose proof (Hall _ (q_min_In revenues Hne)) as Hmin.
  pose proof (Hall _ (q_max_In revenues Hne)) as Hmax.
  unfold revenue_score, fdiv_num.
  assert (E1 : Qeq_bool (q_max revenues - q_min revenues) 0 = true).
  { apply Qeq_bool_iff. rewrite Hmin, Hmax. ring. }
  assert (E2 : Qeq_bool (x - q_min revenues) 0 = true).
  { apply Qeq_bool_iff. rewrite Hmin. ring. }
  rewrite E1, E2. reflexivity.
Qed.

Lemma composite_score_nan_revenue (revenues : list Q) (s : seller_metrics) :
  revenue_score revenues (sm_total_revenue s) = FNaN ->
  composite_score revenues s = FNaN.
Proof. intros H. unfold composite_score. rewrite H. reflexivity. Qed.

(** C2, as the code has it.  When every seller has the same total revenue the
    normalization is not guarded: the revenue score of every seller is NaN,
    the NaN reaches the composite score, and the rank of the seller is
    missing. *)
Theorem zero_variance_revenue_gives_nan (frame : list seller_metrics)
    (row : seller_performance_row) :
  (forall s t, In s frame -> In t frame ->
               (sm_total_revenue s == sm_total_revenue t)%Q) ->
  In row (score_sellers frame) ->
  sp_revenue_score row = FNaN
  /\ sp_composite_score row = FNaN
  /\ seller_rank row = None.
Proof.
  intros Hall Hrow.
  assert (Hrev : forall s, In s frame ->
            revenue_score (map sm_total_revenue frame) (sm_total_revenue s) = FNaN).
  { intros s Hs. apply revenue_score_constant_column; [now apply in_map |].
    intros y Hy. apply in_map_iff in Hy. destruct Hy as [t [<- Ht]]. now apply Hall. }
  unfold score_sellers in Hrow. apply in_map_iff in Hrow.
  destruct Hrow as [[s rank] [<- Hin]]. simpl.
  pose proof (in_combine_l _ _ _ _ Hin) as Hs.
  pose proof (in_combine_r _ _ _ _ Hin) as Hr.
  split; [now apply Hrev |].
  split; [now apply composite_score_nan_revenue, Hrev |].
  unfold rank_min_desc in Hr. apply in_map_iff in Hr.
  destruct Hr as [c [Hc Hcin]]. apply in_map_iff in Hcin.
  destruct Hcin as [t [<- Ht]].
  rewrite (composite_score_nan_revenue _ t (Hrev t Ht)) in Hc. simpl in Hc.
  now symmetry.
Qed.

Lemma tied_revenue_frame :
  map (fun s => (sm_seller_id s, sm_total_revenue s, sm_avg_review_score s,
                 sm_on_time_rate s))
      (seller_frame tied_revenue_db)
  = [("s1"%string, 150%Q, FNum 5, FNum 1); ("s2"%string, 150%Q, FNum 4, FNum 1)].
Proof. vm_compute. reflexivity. Qed.

Lemma zero_variance_revenue_gives_nan_witness :
  Forall (fun row => sp_revenue_score row = FNaN
                     /\ sp_composite_score row = FNaN
                     /\ seller_rank row = None)
         (export_seller_performance tied_revenue_db)
  /\ List.length (export_seller_performance tied_revenue_db) = 2%nat.
Proof.
  split; [| reflexivity].
  apply Forall_forall. intros row.
  apply (zero_variance_revenue_gives_nan (seller_frame tied_revenue_db)).
  intros s t Hs Ht.
  assert (H : forall u, In u (seller_frame tied_revenue_db) ->
                        sm_total_revenue u = 150%Q).
  { intros u Hu. vm_compute in Hu.
    destruct Hu as [<- | [<- | []]]; reflexivity. }
  rewrite (H s Hs), (H t Ht). reflexivity.
Defined.

(** C2 fails as stated: with two sellers of equal revenue, both reviewed and
    punctual, the revenue score is NaN, not 100, and the composite score is
    NaN. *)
Lemma zero_variance_revenue_not_guarded :
  map (fun r => (sm_seller_id (sp_metrics r), sp_revenue_score r,
                 sp_composite_score r, seller_rank r))
      (export_seller_performance tied_revenue_db)
  = [("s1"%string, FNaN, FNaN, None); ("s2"%string, FNaN, FNaN, None)].
Proof. vm_compute. reflexivity. Qed.

(** ** Ranks *)

Lemma fsame_fltb (a b y : fval) : fsame a b -> fltb a y = fltb b y.
Proof.
  destruct a as [qa | sa |], b as [qb | sb |]; simpl; try contradiction.
  - intros H. destruct y as [qy | sy |]; try reflexivity.
    simpl. now rewrite H.
  - now intros ->.
  - reflexivity.
Qed.

Lemma fsame_fisnan (a b : fval) : fsame a b -> fisnan a = fisnan b.
Proof.
  destruct a, b; simpl; try contradiction; reflexivity.
Qed.

Lemma fltb_irrefl (a : fval) : fltb a a = false.
Proof.
  destruct a as [q | s |]; simpl; try reflexivity.
  - apply negb_false_iff, Qle_bool_iff, Qle_refl.
  - now destruct s.
Qed.

Lemma Qlt_negb_le (a b : Q) : negb (Qle_bool b a) = true <-> (a < b)%Q.
Proof.
  rewrite negb_true_iff. split.
  - intros H. apply Qnot_le_lt. intros Hc. apply Qle_bool_iff in Hc. congruence.
  - intros H. destruct (Qle_bool b a) eqn:E; [| reflexivity].
    apply Qle_bool_iff in E. exfalso. exact (Qlt_not_le _ _ H E).
Qed.

Lemma fltb_trans (a b c : fval) :
  fltb a b = true -> fltb b c = true -> fltb a c = true.
Proof.
  destruct a as [qa | sa |], b as [qb | sb |], c as [qc | sc |]; simpl;
    try discriminate; try (intros; assumption);
    try (rewrite !Qlt_negb_le; apply Qlt_trans);
    repeat match goal with s : bool |- _ => destruct s end;
    simpl; intros; congruence.
Qed.

Lemma fltb_not_nan (a b : fval) :
  fltb a b = true -> fisnan a = false /\ fisnan b = false.
Proof. destruct a, b; simpl; try discriminate; auto. Qed.

(** A predicate that implies another, strictly on some cell, counts fewer
    cells. *)
Lemma count_if_strict {A} (p q : A -> bool) (l : list A) (w : A) :
  (forall y, p y = true -> q y = true) ->
  In w l -> q w = true -> p w = false ->
  count_if p l < count_if q l.
Proof.
  intros Himp Hin Hq Hp. unfold count_if.
  assert (Hle : forall l', (List.length (filter p l') <= List.length (filter q l'))%nat).
  { induction l' as [| a t IH]; simpl; [lia |].
    destruct (p a) eqn:Ea.
    - rewrite (Himp a Ea). simpl. lia.
    - destruct (q a); simpl; lia. }
  apply Nat2Z.inj_lt.
  induction l as [| a t IH]; simpl; [contradiction |].
  destruct Hin as [-> | Hin].
  - rewrite Hp, Hq. simpl. specialize (Hle t). lia.
  - specialize (IH Hin). destruct (p a) eqn:Ea.
    + rewrite (Himp a Ea). simpl. lia.
    + destruct (q a); simpl; lia.
Qed.

Lemma rank_cell_ties (xs : list fval) (a b : fval) :
  fsame a b -> rank_cell xs a = rank_cell xs b.
Proof.
  intros H. unfold rank_cell, count_if. rewrite (fsame_fisnan a b H).
  rewrite (filter_ext (fun y => fltb a y) (fun y => fltb b y)); [reflexivity |].
  intros y. now apply fsame_fltb.
Qed.

Lemma rank_cell_order (xs : list fval) (hi lo : fval) :
  In hi xs -> fltb lo hi = true ->
  exists a b, rank_cell xs hi = Some a /\ rank_cell xs lo = Some b /\ a < b.
Proof.
  intros Hin Hlt. destruct (fltb_not_nan _ _ Hlt) as [Hlo Hhi].
  unfold rank_cell. rewrite Hlo, Hhi.
  eexists; eexists. split; [reflexivity |]. split; [reflexivity |].
  apply Z.add_lt_mono_l.
  apply (count_if_strict _ _ xs hi); [| assumption | assumption | apply fltb_irrefl].
  intros y Hy. now apply (fltb_trans lo hi y).
Qed.

Lemma in_combine_map {A B} (h : A -> B) (l : list A) (a : A) (b : B) :
  In (a, b) (combine l (map h l)) -> b = h a.
Proof.
  induction l as [| x t IH]; simpl; [contradiction |].
  intros [H | H]; [inversion H; now subst | now apply IH].
Qed.

Lemma map_combine_fst {A B C} (f : A * B -> C) (h : A -> C)
    (l : list A) (l' : list B) :
  List.length l = List.length l' ->
  (forall a b, f (a, b) = h a) ->
  map f (combine l l') = map h l.
Proof.
  intros Hlen Hf. revert l' Hlen.
  induction l as [| a t IH]; intros [| b t'] Hlen; simpl in *;
    try discriminate; [reflexivity |].
  rewrite Hf, IH by lia. reflexivity.
Qed.

(** The composite column of the extract. *)
Lemma score_sellers_composites (frame : list seller_metrics) :
  map sp_composite_score (score_sellers frame)
  = map (composite_score (map sm_total_revenue frame)) frame.
Proof.
  unfold score_sellers. rewrite map_map. apply map_combine_fst.
  - unfold rank_min_desc. now rewrite !length_map.
  - intros s rank. reflexivity.
Qed.

(** The rank column of the extract is the rank of its composite column. *)
Lemma score_sellers_rank (frame : list seller_metrics) (row : seller_performance_row) :
  In row (score_sellers frame) ->
  seller_rank row
  = rank_cell (map sp_composite_score (score_sellers frame)) (sp_composite_score row)
  /\ In (sp_composite_score row) (map sp_composite_score (score_sellers frame)).
Proof.
  intros Hin. split; [| now apply in_map].
  rewrite score_sellers_composites.
  unfold score_sellers, rank_min_desc in Hin. rewrite map_map in Hin.
  apply in_map_iff in Hin. destruct Hin as [[s rank] [<- Hin]].
  apply in_combine_map in Hin. simpl. exact Hin.
Qed.

(** C6. Seller ranks follow minimum rank on ties over the composite score,
    descending: two sellers of the extract with the same composite score
    have the same rank, and of two sellers with different scores the one
    with the higher score has the strictly smaller rank; with the scores
    87.50, 87.50 and 90.00 the ranks are 2, 2 and 1. *)
Theorem seller_rank_min_on_ties :
  (forall (db : database) (ri rj : seller_performance_row),
      In ri (export_seller_performance db) ->
      In rj (export_seller_performance db) ->
      (fsame (sp_composite_score ri) (sp_composite_score rj) ->
       seller_rank ri = seller_rank rj)
      /\ (fltb (sp_composite_score rj) (sp_composite_score ri) = true ->
          exists a b, seller_rank ri = Some a /\ seller_rank rj = Some b /\ a < b))
  /\ rank_min_desc scenario_scores = [Some 2; Some 2; Some 1].
Proof.
  split; [| reflexivity].
  intros db ri rj Hi Hj. unfold export_seller_performance in *.
  destruct (score_sellers_rank _ _ Hi) as [Ei Ini].
  destruct (score_sellers_rank _ _ Hj) as [Ej Inj].
  rewrite Ei, Ej. split.
  - apply rank_cell_ties.
  - now apply rank_cell_order.
Qed.

Lemma seller_rank_min_on_ties_witness :
  Forall (fun ri =>
    Forall (fun rj =>
      (fsame (sp_composite_score ri) (sp_composite_score rj) ->
       seller_rank ri = seller_rank rj)
      /\ (fltb (sp_composite_score rj) (sp_composite_score ri) = true ->
          exists a b, seller_rank ri = Some a /\ seller_rank rj = Some b /\ a < b))
      (export_seller_performance ranked_db))
    (export_seller_performance ranked_db)
  /\ map seller_rank (export_seller_performance ranked_db) = [Some 2; Some 2; Some 1].
Proof.
  split; [| vm_compute; reflexivity].
  apply Forall_forall. intros ri Hi. apply Forall_forall. intros rj Hj.
  exact (proj1 seller_rank_min_on_ties ranked_db ri rj Hi Hj).
Defined.

(* ================================================================== *)
(** * Monthly metrics: new and returning customers *)

(** A matched row of a left join pairs a left row with a right row that
    matches it. *)
Lemma merge_left_In_snd {L R} (on : L -> R -> bool) (left : list L) (right : list R)
    (x : L) (y : R) :
  In (x, Some y) (merge_left on left right) ->
  In x left /\ In y right /\ on x y = true.
Proof.
  unfold merge_left. rewrite in_flat_map. intros [a [Ha Hin]].
  destruct (filter (on a) right) as [| b more] eqn:E.
  - destruct Hin as [Heq | []]. discriminate.
  - apply in_map_iff in Hin. destruct Hin as [c [Heq Hc]].
    inversion Heq; subst. rewrite <- E in Hc. apply filter_In in Hc.
    destruct Hc. auto.
Qed.

Lemma nunique_incl (l1 l2 : list string) :
  incl l1 l2 -> nunique l1 <= nunique l2.
Proof.
  intros H. unfold nunique. apply Nat2Z.inj_le.
  apply NoDup_incl_length; [apply unique_NoDup, string_eqb_spec |].
  intros x Hx.
  apply (proj2 (unique_In String.eqb string_eqb_spec l2 x)), H.
  exact (proj1 (unique_In String.eqb string_eqb_spec l1 x) Hx).
Qed.

Lemma nunique_nonneg (l : list string) : 0 <= nunique l.
Proof. unfold nunique. lia. Qed.

(** The new-customer rows are delivered rows. *)
Lemma with_is_new_rows (rows : list delivered_row) (r : delivered_row) :
  In r (map fst (filter snd (with_is_new rows))) -> In r rows.
Proof.
  intros H. apply in_map_iff in H. destruct H as [[r' b] [<- H]].
  apply filter_In in H. destruct H as [H _].
  unfold with_is_new in H. apply in_map_iff in H.
  destruct H as [[x fp] [Heq H]]. inversion Heq; subst.
  simpl. now apply merge_left_In_fst in H.
Qed.

(** Every month row: when the new-customer count is present, the returning
    count is the difference and lies between 0 and the distinct count; when
    it is missing, so is the returning count. *)
Lemma monthly_new_returning (db : database) (row : monthly_row) :
  In row (export_monthly_metrics db) ->
  match new_customers row with
  | Some n =>
      returning_customers row = Some (unique_customers row - n)
      /\ 0 <= n <= unique_customers row
  | None => returning_customers row = None
  end.
Proof.
  unfold export_monthly_metrics. intros H. apply in_map_iff in H.
  destruct H as [[[k g] nc] [<- H]]. simpl.
  destruct nc as [[k' n] |]; simpl; [| reflexivity].
  split; [reflexivity |].
  apply merge_left_In_snd in H. destruct H as [Hm [Hn Hk]].
  simpl in Hk. apply Z.eqb_eq in Hk. subst k'.
  apply in_map_iff in Hm. destruct Hm as [k0 [Heq _]]. inversion Heq; subst.
  unfold new_customers_df in Hn. apply in_map_iff in Hn.
  destruct Hn as [k1 [Heq1 _]]. inversion Heq1; subst.
  split; [apply nunique_nonneg |].
  apply nunique_incl. intros c Hc.
  apply in_map_iff in Hc. destruct Hc as [r [<- Hr]].
  apply in_map. unfold month_group in *. apply filter_In in Hr.
  destruct Hr as [Hr Hmonth]. apply filter_In. split; [| assumption].
  now apply with_is_new_rows.
Qed.

(** C7. For a person who buys in January and again in February, the February
    row has one distinct customer and no row in the new-customer frame: the
    left merge leaves [new_customers] missing and the subtraction leaves
    [returning_customers] missing, where the claim has 0 and 1. *)
Theorem monthly_returning_missing_without_new_customers :
  map (fun r => (order_month r, unique_customers r, new_customers r,
                 returning_customers r))
      (export_monthly_metrics returning_only_db)
  = [(648, 1, Some 1, Some 0); (649, 1, None, None)].
Proof. vm_compute. reflexivity. Qed.

(* ================================================================== *)
(** * Customer segments: metrics, scores and segments *)

Lemma ts_max_ge (l : list (option timestamp)) (t : timestamp) :
  In (Some t) l -> exists M, ts_max l = Some M /\ t <= M.
Proof.
  induction l as [| x rest IH]; simpl; [contradiction |].
  intros [-> | Hin].
  - destruct (ts_max rest) as [b |]; eexists; split; try reflexivity; lia.
  - destruct (IH Hin) as [M [-> HM]].
    destruct x as [a |]; eexists; split; try reflexivity; lia.
Qed.

Lemma ts_max_In (l : list (option timestamp)) (M : timestamp) :
  ts_max l = Some M -> In (Some M) l.
Proof.
  revert M. induction l as [| x rest IH]; simpl; [discriminate |].
  intros M H. destruct x as [a |]; [| right; now apply IH].
  destruct (ts_max rest) as [b |].
  - inversion H; subst. destruct (Z.max_spec a b) as [[_ ->] | [_ ->]].
    + right. now apply IH.
    + now left.
  - inversion H; subst. now left.
Qed.

(** Every row of the metrics table aggregates the non-empty group of its
    customer. *)
Lemma rfm_table_rows (cos : list customer_order) (x : rfm_metrics) :
  In x (rfm_table cos) ->
  let mine := group String.eqb co_customer_unique_id (rfm_customer_unique_id x) cos in
  x = rfm_agg (analysis_date cos) (rfm_customer_unique_id x) mine
  /\ mine <> [].
Proof.
  unfold rfm_table, groupby. intros H. apply in_map_iff in H.
  destruct H as [k [<- Hk]]. simpl. split; [reflexivity |].
  apply (group_keys_In String.eqb string_eqb_spec) in Hk.
  apply in_map_iff in Hk. destruct Hk as [r [Hr Hin]].
  intros Hempty.
  assert (Hg : In r (group String.eqb co_customer_unique_id k cos)).
  { unfold group. apply filter_In. split; [assumption |].
    now apply String.eqb_eq. }
  rewrite Hempty in Hg. contradiction.
Qed.

(** The metrics of every row of the extract come from the metrics table. *)
Lemma segment_rows_metrics (cos : list customer_order) (rfm : list rfm_metrics)
    (rs fs ms : list (option Z)) (row : segment_row) :
  In row (segment_rows cos rfm rs fs ms) ->
  In (seg_metrics row) rfm
  /\ In (r_score row) rs /\ In (f_score row) fs /\ In (m_score row) ms
  /\ rfm_score row = rfm_score_of (r_score row) (f_score row) (m_score row)
  /\ segment row = segment_customer (r_score row) (f_score row).
Proof.
  unfold segment_rows, zip3. intros H. apply in_map_iff in H.
  destruct H as [[[[[x r] f] m] pd] [<- H]]. simpl.
  apply merge_left_In_fst in H.
  pose proof (in_combine_r _ _ _ _ H) as Hm.
  apply in_combine_l in H.
  pose proof (in_combine_r _ _ _ _ H) as Hf.
  apply in_combine_l in H.
  pose proof (in_combine_r _ _ _ _ H) as Hr.
  apply in_combine_l in H. auto 10.
Qed.

Lemma export_customer_segments_rows (db : database) (rows : list segment_row) :
  export_customer_segments db = OK rows ->
  exists rs fs ms,
    r_scores (rfm_table (customer_orders db)) = OK rs
    /\ f_scores (rfm_table (customer_orders db)) = OK fs
    /\ m_scores (rfm_table (customer_orders db)) = OK ms
    /\ rows = segment_rows (customer_orders db) (rfm_table (customer_orders db))
                rs fs ms.
Proof.
  unfold export_customer_segments. intros H.
  destruct (r_scores _) as [rs |]; [| discriminate].
  destruct (f_scores _) as [fs |]; [| discriminate].
  destruct (m_scores _) as [ms |]; [| discriminate].
  simpl in H. inversion H. exists rs, fs, ms. auto.
Qed.

(** C8, amended.  Every customer of the customer_segments extract has
    frequency >= 1, the number of its delivered orders.  For a customer with
    a purchase timestamp on a delivered order the recency is the whole-day
    difference between the analysis date (the latest purchase timestamp of
    all delivered orders plus one day) and its last delivered purchase
    date, and is >= 0.  A customer none of whose delivered orders has a
    purchase timestamp has no last purchase date, and its recency is
    missing. *)
Theorem segments_frequency_and_recency (db : database) (rows : list segment_row)
    (row : segment_row) :
  export_customer_segments db = OK rows ->
  In row rows ->
  let cos := customer_orders db in
  let mine := group String.eqb co_customer_unique_id
                (rfm_customer_unique_id (seg_metrics row)) cos in
  frequency (seg_metrics row) = Z.of_nat (List.length mine)
  /\ 1 <= frequency (seg_metrics row)
  /\ match ts_max (map co_order_purchase_timestamp mine) with
     | Some last =>
         exists latest d,
           ts_max (map co_order_purchase_timestamp cos) = Some latest
           /\ recency (seg_metrics row) = Some d
           /\ d = td_days (latest + SECONDS_PER_DAY - last)
           /\ 0 <= d
     | None => recency (seg_metrics row) = None
     end.
Proof.
  intros Hrun Hin cos mine.
  destruct (export_customer_segments_rows db rows Hrun) as [rs [fs [ms [_ [_ [_ ->]]]]]].
  apply segment_rows_metrics in Hin. destruct Hin as [Hx _].
  destruct (rfm_table_rows _ _ Hx) as [Hagg Hne]. fold cos in Hagg, Hne.
  fold mine in Hagg, Hne.
  assert (Hfreq : frequency (seg_metrics row) = Z.of_nat (List.length mine))
    by (rewrite Hagg at 1; reflexivity).
  assert (Hrec : recency (seg_metrics row)
                 = dt_diff_days (analysis_date cos)
                     (ts_max (map co_order_purchase_timestamp mine)))
    by (rewrite Hagg at 1; reflexivity).
  split; [exact Hfreq |]. split.
  - rewrite Hfreq. destruct mine; [congruence | simpl; lia].
  - destruct (ts_max (map co_order_purchase_timestamp mine)) as [last |] eqn:El.
    + apply ts_max_In in El. apply in_map_iff in El.
      destruct El as [r [Hts Hr]].
      assert (Hcos : In (Some last) (map co_order_purchase_timestamp cos)).
      { rewrite <- Hts. apply in_map. unfold mine, group in Hr.
        now apply filter_In in Hr. }
      destruct (ts_max_ge _ _ Hcos) as [latest [Hl Hle]].
      exists latest, (td_days (latest + SECONDS_PER_DAY - last)).
      split; [exact Hl |]. split.
      * rewrite Hrec. unfold analysis_date. rewrite Hl. reflexivity.
      * split; [reflexivity |].
        unfold td_days, SECONDS_PER_DAY. apply Z.div_pos; lia.
    + rewrite Hrec. unfold dt_diff_days, opt_map2.
      now destruct (analysis_date cos).
Qed.

Lemma segments_frequency_and_recency_witness :
  Forall (fun row =>
    let cos := customer_orders six_customers_db in
    let mine := group String.eqb co_customer_unique_id
                  (rfm_customer_unique_id (seg_metrics row)) cos in
    frequency (seg_metrics row) = Z.of_nat (List.length mine)
    /\ 1 <= frequency (seg_metrics row)
    /\ match ts_max (map co_order_purchase_timestamp mine) with
       | Some last =>
           exists latest d,
             ts_max (map co_order_purchase_timestamp cos) = Some latest
             /\ recency (seg_metrics row) = Some d
             /\ d = td_days (latest + SECONDS_PER_DAY - last)
             /\ 0 <= d
       | None => recency (seg_metrics row) = None
       end)
    (rows_of (export_customer_segments six_customers_db))
  /\ map (fun row => (rfm_customer_unique_id (seg_metrics row),
                      frequency (seg_metrics row), recency (seg_metrics row)))
       (rows_of (export_customer_segments six_customers_db))
     = [("u1", 2, Some 1); ("u2", 1, Some 5); ("u3", 1, Some 4);
        ("u4", 1, Some 3); ("u5", 1, Some 2); ("u6", 1, None)]%string.
Proof.
  split; [| vm_compute; reflexivity].
  apply Forall_forall. intros row Hin.
  apply (segments_frequency_and_recency six_customers_db
           (rows_of (export_customer_segments six_customers_db)));
    [vm_compute; reflexivity | exact Hin].
Defined.

(** C8 fails as stated: the customer u6, whose only delivered order has no
    purchase timestamp, is in the extract with frequency 1 and a missing
    recency, so not every customer of the extract has a recency >= 0. *)
Lemma recency_missing_without_purchase_timestamp :
  (exists rows, export_customer_segments six_customers_db = OK rows)
  /\ map (fun row => (rfm_customer_unique_id (seg_metrics row),
                      frequency (seg_metrics row), recency (seg_metrics row)))
       (rows_of (export_customer_segments six_customers_db))
     = [("u1", 2, Some 1); ("u2", 1, Some 5); ("u3", 1, Some 4);
        ("u4", 1, Some 3); ("u5", 1, Some 2); ("u6", 1, None)]%string
  /\ ~ (forall rows row,
          export_customer_segments six_customers_db = OK rows ->
          In row rows ->
          1 <= frequency (seg_metrics row)
          /\ exists d, recency (seg_metrics row) = Some d /\ 0 <= d).
Proof.
  assert (E : export_customer_segments six_customers_db
              = OK (rows_of (export_customer_segments six_customers_db)))
    by (vm_compute; reflexivity).
  split; [eexists; exact E |]. split; [vm_compute; reflexivity |].
  intros H.
  destruct (find (fun row => isna (recency (seg_metrics row)))
              (rows_of (export_customer_segments six_customers_db)))
    as [row |] eqn:F; [| vm_compute in F; discriminate].
  apply find_some in F. destruct F as [Hin Hna].
  destruct (H _ row E Hin) as [_ [d [Hd _]]].
  rewrite Hd in Hna. discriminate.
Qed.

(** The scenario of the specification: one delivered order of 100 on
    2024-06-01, analysis date 2024-12-02. *)
Example recency_scenario :
  rfm_agg (Some (mk_ts 2024 12 2 0 0 0)) "u1"
    [mk_co "u1" "sao paulo" "SP" "o1" (Some (mk_ts 2024 6 1 0 0 0)) (Some 100%Q)]
  = mk_rfm "u1" (Some 184) 1 (100 + 0)%Q "sao paulo" "SP".
Proof. reflexivity. Qed.

(** C1. With five customers who all bought at the same moment every recency
    is 1, the six quantile edges collapse to one, [duplicates='drop'] leaves
    a single edge against five labels, and [pd.qcut] raises: the
    segmentation pass returns no row at all. *)
Theorem degenerate_recency_split_raises :
  map (fun m => (rfm_customer_unique_id m, recency m, frequency m))
      (rfm_table (customer_orders tied_recency_db))
  = [("u1", Some 1, 1); ("u2", Some 1, 1); ("u3", Some 1, 1);
     ("u4", Some 1, 1); ("u5", Some 1, 1)]%string
  /\ r_scores (rfm_table (customer_orders tied_recency_db)) = ValueError MSG_LABELS
  /\ export_customer_segments tied_recency_db = ValueError MSG_LABELS.
Proof. vm_compute. repeat split. Qed.

(** Two equal recencies among six are enough: the two lowest edges coincide,
    five edges remain for five labels, and the cut raises. *)
Example partly_tied_recency_raises :
  map recency (rfm_table (customer_orders partly_tied_db))
  = [Some 5; Some 4; Some 3; Some 2; Some 1; Some 1]
  /\ export_customer_segments partly_tied_db = ValueError MSG_LABELS.
Proof. vm_compute. split; reflexivity. Qed.

(** A defined score of a quantile cut is one of its labels. *)
Lemma qcut_In_labels (x : list (option Q)) (q : nat) (labels : list Z)
    (drop : bool) (l : list (option Z)) (z : Z) :
  qcut x q labels drop = OK l -> In (Some z) l -> In z labels.
Proof.
  unfold qcut, bind. intros H Hin.
  assert (Hcell : forall bins, In (Some z) (map (cut_cell bins labels) x) ->
                               In z labels).
  { intros bins Hc. apply in_map_iff in Hc. destruct Hc as [c [Hc _]].
    unfold cut_cell in Hc. destruct c as [v |]; [| discriminate].
    destruct (_ || _); [discriminate |].
    now apply nth_error_In in Hc. }
  destruct (_ && _).
  - destruct drop; [| discriminate].
    destruct (negb _); [discriminate |]. inversion H; subst. eauto.
  - destruct (negb _); [discriminate |]. inversion H; subst. eauto.
Qed.

Lemma score_digits (a b c : Z) :
  In a [5; 4; 3; 2; 1] -> In b [1; 2; 3; 4; 5] -> In c [1; 2; 3; 4; 5] ->
  String.length (rfm_score_of (Some a) (Some b) (Some c)) = 3%nat.
Proof.
  simpl. intros Ha Hb Hc.
  repeat match goal with
         | H : _ \/ _ |- _ => destruct H as [H | H]
         | H : False |- _ => contradiction
         end; subst; reflexivity.
Qed.

(** The row function alone: the segment is "Unknown" exactly when the
    recency or the frequency score is missing. *)
Lemma segment_customer_unknown (r f : option Z) :
  segment_customer r f = "Unknown"%string <-> r = None \/ f = None.
Proof.
  split.
  - destruct r as [r |], f as [f |]; auto. simpl.
    repeat match goal with
           | |- context [if ?b then _ else _] => destruct b
           end; discriminate.
  - intros [-> | ->]; [reflexivity | now destruct r].
Qed.

(** C3, as the code has it.  For every customer of the segmentation output
    the segment is "Unknown" exactly when the recency or the frequency score
    is undefined; the monetary score is not consulted.  When the three
    scores are defined the combined code is their three digits. *)
Theorem segment_unknown_iff_r_or_f_undefined (db : database)
    (rows : list segment_row) (row : segment_row) :
  export_customer_segments db = OK rows ->
  In row rows ->
  (segment row = "Unknown"%string <-> r_score row = None \/ f_score row = None)
  /\ (forall r f m,
        r_score row = Some r -> f_score row = Some f -> m_score row = Some m ->
        rfm_score row = (string_of_Z r ++ string_of_Z f ++ string_of_Z m)%string
        /\ String.length (rfm_score row) = 3%nat).
Proof.
  intros Hrun Hin.
  destruct (export_customer_segments_rows db rows Hrun)
    as [rs [fs [ms [Hr [Hf [Hm ->]]]]]].
  apply segment_rows_metrics in Hin.
  destruct Hin as [_ [Hir [Hif [Him [Hcode Hseg]]]]].
  split.
  - rewrite Hseg. apply segment_customer_unknown.
  - intros r f m Er Ef Em. rewrite Hcode, Er, Ef, Em.
    split; [reflexivity |].
    rewrite Er in Hir. rewrite Ef in Hif. rewrite Em in Him.
    unfold r_scores in Hr. unfold f_scores in Hf. unfold m_scores in Hm.
    apply score_digits.
    + exact (qcut_In_labels _ _ _ _ _ _ Hr Hir).
    + exact (qcut_In_labels _ _ _ _ _ _ Hf Hif).
    + exact (qcut_In_labels _ _ _ _ _ _ Hm Him).
Qed.

Lemma segment_unknown_iff_r_or_f_undefined_witness :
  Forall (fun row =>
    (segment row = "Unknown"%string <-> r_score row = None \/ f_score row = None)
    /\ (forall r f m,
          r_score row = Some r -> f_score row = Some f -> m_score row = Some m ->
          rfm_score row = (string_of_Z r ++ string_of_Z f ++ string_of_Z m)%string
          /\ String.length (rfm_score row) = 3%nat))
    (rows_of (export_customer_segments six_customers_db))
  /\ List.length (rows_of (export_customer_segments six_customers_db)) = 6%nat.
Proof.
  split; [| vm_compute; reflexivity].
  apply Forall_forall. intros row Hin.
  apply (segment_unknown_iff_r_or_f_undefined six_customers_db
           (rows_of (export_customer_segments six_customers_db)));
    [vm_compute; reflexivity | exact Hin].
Defined.

(** C3 fails as stated.  The customer u6, whose only delivered order has no
    purchase timestamp, has an undefined recency score: the segment is
    "Unknown" but the combined code is the concatenation "<NA>41", not
    "Unknown".  And the row function gives a customer with an undefined
    monetary score the segment of its two other scores. *)
Lemma undefined_score_code_not_unknown :
  map (fun row => (rfm_customer_unique_id (seg_metrics row),
                   r_score row, f_score row, m_score row,
                   rfm_score row, segment row))
      (rows_of (export_customer_segments six_customers_db))
  = [("u1", Some 5, Some 5, Some 1, "551", "Champions");
     ("u2", Some 1, Some 1, Some 2, "112", "Hibernating");
     ("u3", Some 2, Some 1, Some 3, "213", "Hibernating");
     ("u4", Some 3, Some 2, Some 4, "324", "Potential Loyalists");
     ("u5", Some 4, Some 3, Some 5, "435", "Loyal Customers");
     ("u6", None, Some 4, Some 1, "<NA>41", "Unknown")]%string
  /\ "<NA>41"%string <> "Unknown"%string
  /\ segment_customer (Some 5) (Some 5) = "Champions"%string
  /\ rfm_score_of (Some 5) (Some 5) None = "55<NA>"%string.
Proof.
  split; [vm_compute; reflexivity |].
  split; [discriminate |]. split; reflexivity.
Qed.

(* ================================================================== *)
(** * Customer segments: the frequency score is always defined *)

(** ** First-come ranks are a permutation of 1..n *)

Lemma count_if_app {A} (p : A -> bool) (l1 l2 : list A) :
  count_if p (l1 ++ l2) = count_if p l1 + count_if p l2.
Proof. unfold count_if. rewrite filter_app, length_app. lia. Qed.

Lemma count_if_nonneg {A} (p : A -> bool) (l : list A) : 0 <= count_if p l.
Proof. unfold count_if. lia. Qed.

Lemma count_if_cons {A} (p : A -> bool) (a : A) (l : list A) :
  count_if p (a :: l) = (if p a then 1 else 0) + count_if p l.
Proof.
  unfold count_if. cbn [filter]. destruct (p a); cbn [List.length]; lia.
Qed.

(** The cells below [x] and the cells equal to [x] are different cells. *)
Lemma count_lt_eq_le_length (x : Z) (l : list Z) :
  count_if (fun y => y <? x) l + count_if (fun y => y =? x) l
  <= Z.of_nat (List.length l).
Proof.
  induction l as [| a t IH]; [unfold count_if; simpl; lia |].
  rewrite !count_if_cons. simpl List.length.
  destruct (a <? x) eqn:E1, (a =? x) eqn:E2; lia.
Qed.

(** Below a larger value lie the cells below and the cells equal to a
    smaller one. *)
Lemma count_lt_mono (x y : Z) (l : list Z) :
  y < x ->
  count_if (fun z => z <? y) l + count_if (fun z => z =? y) l
  <= count_if (fun z => z <? x) l.
Proof.
  intros Hlt. induction l as [| a t IH]; [unfold count_if; simpl; lia |].
  rewrite !count_if_cons.
  destruct (a <? y) eqn:E1, (a =? y) eqn:E2, (a <? x) eqn:E3; lia.
Qed.

Lemma count_eq_self (x : Z) (l : list Z) :
  count_if (fun z => z =? x) (x :: l) = 1 + count_if (fun z => z =? x) l.
Proof. rewrite count_if_cons, Z.eqb_refl. reflexivity. Qed.

(** Every rank is the rank of a cell of the rest, counted against the whole
    column and the cells before it. *)
Lemma rank_first_from_In (all : list Z) (rest before : list Z) (r : Z) :
  In r (rank_first_from all before rest) ->
  exists pre x post,
    rest = pre ++ x :: post
    /\ r = 1 + count_if (fun y => y <? x) all
             + count_if (fun y => y =? x) (before ++ pre).
Proof.
  revert before. induction rest as [| x t IH]; intros before;
    cbn [rank_first_from In].
  - contradiction.
  - intros [<- | Hin].
    + exists [], x, t. rewrite app_nil_r. auto.
    + destruct (IH _ Hin) as [pre [y [post [-> Hr]]]].
      exists (x :: pre), y, post. rewrite <- app_assoc in Hr. auto.
Qed.

Lemma rank_first_from_length (all rest before : list Z) :
  List.length (rank_first_from all before rest) = List.length rest.
Proof.
  revert before. induction rest as [| x t IH]; intros before; simpl;
    [reflexivity | now rewrite IH].
Qed.

Lemma rank_first_from_NoDup (all rest before : list Z) :
  all = before ++ rest -> NoDup (rank_first_from all before rest).
Proof.
  revert before. induction rest as [| x t IH]; intros before Hall;
    cbn [rank_first_from].
  - constructor.
  - constructor.
    + intros Hin. apply rank_first_from_In in Hin.
      destruct Hin as [pre [y [post [Ht Hr]]]].
      assert (Hall' : all = before ++ x :: pre ++ y :: post) by (now rewrite <- Ht).
      pose proof (count_if_nonneg (fun z => z =? x) pre) as Hp1.
      pose proof (count_if_nonneg (fun z => z =? x) (y :: post)) as Hp2.
      pose proof (count_if_nonneg (fun z => z =? y) post) as Hp3.
      pose proof (count_if_nonneg (fun z => z =? y) before) as Hp4.
      pose proof (count_if_nonneg (fun z => z =? y) pre) as Hp5.
      pose proof (count_if_nonneg (fun z => z =? y) ((before ++ [x]) ++ pre)) as Hp6.
      pose proof (count_if_nonneg (fun z => z =? x) before) as Hp7.
      assert (Hx : count_if (fun z => z =? x) all
                   = count_if (fun z => z =? x) before + 1
                     + count_if (fun z => z =? x) pre
                     + count_if (fun z => z =? x) (y :: post)).
      { rewrite Hall', count_if_app, count_eq_self, count_if_app. lia. }
      assert (Hy : count_if (fun z => z =? y) all
                   = count_if (fun z => z =? y) ((before ++ [x]) ++ pre) + 1
                     + count_if (fun z => z =? y) post).
      { rewrite Hall'.
        replace (before ++ x :: pre ++ y :: post)
          with (((before ++ [x]) ++ pre) ++ y :: post)
          by (rewrite <- !app_assoc; reflexivity).
        rewrite (count_if_app _ ((before ++ [x]) ++ pre)), count_eq_self. lia. }
      destruct (Z.lt_trichotomy x y) as [Hlt | [Heq | Hgt]].
      * pose proof (count_lt_mono y x all Hlt). lia.
      * subst y. rewrite !count_if_app, count_if_cons, Z.eqb_refl in Hr.
        replace (count_if (fun z => z =? x) []) with 0 in Hr by reflexivity.
        lia.
      * pose proof (count_lt_mono x y all Hgt). lia.
    + apply IH. rewrite <- app_assoc. exact Hall.
Qed.

Lemma rank_first_from_bounds (all rest before : list Z) (r : Z) :
  all = before ++ rest ->
  In r (rank_first_from all before rest) ->
  1 <= r <= Z.of_nat (List.length all).
Proof.
  intros Hall Hin. apply rank_first_from_In in Hin.
  destruct Hin as [pre [x [post [Hrest ->]]]].
  pose proof (count_if_nonneg (fun y => y <? x) all).
  pose proof (count_if_nonneg (fun y => y =? x) (before ++ pre)).
  pose proof (count_if_nonneg (fun y => y =? x) post).
  pose proof (count_lt_eq_le_length x all) as Hle.
  assert (Hx : count_if (fun z => z =? x) all
               = count_if (fun z => z =? x) (before ++ pre) + 1
                 + count_if (fun z => z =? x) post).
  { rewrite Hall, Hrest, app_assoc, (count_if_app _ (before ++ pre)),
      count_eq_self. lia. }
  lia.
Qed.

Lemma rank_first_NoDup (xs : list Z) : NoDup (rank_first xs).
Proof. now apply rank_first_from_NoDup. Qed.

Lemma rank_first_bounds (xs : list Z) (r : Z) :
  In r (rank_first xs) -> 1 <= r <= Z.of_nat (List.length xs).
Proof. now apply rank_first_from_bounds. Qed.

Lemma rank_first_length (xs : list Z) :
  List.length (rank_first xs) = List.length xs.
Proof. apply rank_first_from_length. Qed.

(** ** The sorted ranks are 1, 2, ..., n *)

Lemma insert_Z_perm (x : Z) (l : list Z) : Permutation (x :: l) (insert_Z x l).
Proof.
  induction l as [| h t IH]; cbn [insert_Z]; [apply Permutation_refl |].
  destruct (x <=? h); [apply Permutation_refl |].
  eapply perm_trans; [apply perm_swap | now apply perm_skip].
Qed.

Lemma sort_Z_perm (l : list Z) : Permutation l (sort_Z l).
Proof.
  induction l as [| h t IH]; cbn [sort_Z fold_right]; [apply Permutation_refl |].
  eapply perm_trans; [| apply insert_Z_perm]. now apply perm_skip.
Qed.

Lemma insert_Z_sorted (x : Z) (l : list Z) :
  StronglySorted Z.le l -> StronglySorted Z.le (insert_Z x l).
Proof.
  induction l as [| h t IH]; cbn [insert_Z]; intros Hs.
  - repeat constructor.
  - inversion Hs as [| ? ? Ht Hall]; subst.
    destruct (x <=? h) eqn:E.
    + apply Z.leb_le in E. constructor; [assumption |].
      constructor; [assumption |].
      eapply Forall_impl; [| exact Hall]. intros a Ha. cbv beta in Ha. lia.
    + apply Z.leb_gt in E. constructor; [now apply IH |].
      apply (Permutation_Forall (insert_Z_perm x t)).
      constructor; [lia | assumption].
Qed.

Lemma sort_Z_sorted (l : list Z) : StronglySorted Z.le (sort_Z l).
Proof.
  induction l as [| h t IH]; cbn [sort_Z fold_right]; [constructor |].
  now apply insert_Z_sorted.
Qed.

Lemma sorted_NoDup_strict (l : list Z) :
  StronglySorted Z.le l -> NoDup l -> StronglySorted Z.lt l.
Proof.
  induction l as [| h t IH]; intros Hs Hnd; [constructor |].
  inversion Hs as [| ? ? Ht Hall]; subst.
  inversion Hnd as [| ? ? Hnotin Hnd']; subst.
  constructor; [now apply IH |].
  rewrite Forall_forall in *. intros a Ha.
  specialize (Hall a Ha).
  assert (a <> h) by (intros ->; contradiction). lia.
Qed.

(** A strictly ascending list of [n] integers within [a, a+n) is the run
    a, a+1, ... *)
Lemma strict_range_seqZ (l : list Z) :
  forall a,
    StronglySorted Z.lt l ->
    (forall z, In z l -> a <= z < a + Z.of_nat (List.length l)) ->
    l = seqZ a (List.length l).
Proof.
  induction l as [| h t IH]; intros a Hs Hr; [reflexivity |].
  inversion Hs as [| ? ? Ht Hall]; subst.
  rewrite Forall_forall in Hall.
  cbn [List.length seqZ].
  assert (Htail : t = seqZ (a + 1) (List.length t)).
  { apply IH; [assumption |]. intros z Hz.
    specialize (Hall z Hz).
    pose proof (Hr z (or_intror Hz)) as Hz'.
    pose proof (Hr h (or_introl eq_refl)) as Hh.
    cbn [List.length] in Hz', Hh. lia. }
  f_equal; [| exact Htail].
  pose proof (Hr h (or_introl eq_refl)) as Hh. cbn [List.length] in Hh.
  destruct t as [| b t'].
  - cbn [List.length] in Hh. lia.
  - cbn [List.length seqZ] in Htail.
    assert (Hb : b = a + 1) by congruence.
    specialize (Hall b (or_introl eq_refl)). lia.
Qed.

Lemma sort_Z_rank_first (xs : list Z) :
  sort_Z (rank_first xs) = seqZ 1 (List.length xs).
Proof.
  pose proof (sort_Z_perm (rank_first xs)) as Hp.
  rewrite <- (rank_first_length xs), (Permutation_length Hp).
  apply strict_range_seqZ.
  - apply sorted_NoDup_strict; [apply sort_Z_sorted |].
    apply (Permutation_NoDup Hp), rank_first_NoDup.
  - intros z Hz. apply (Permutation_in _ (Permutation_sym Hp)) in Hz.
    apply rank_first_bounds in Hz.
    rewrite <- (Permutation_length Hp), rank_first_length. lia.
Qed.

Lemma Qle_bool_inject_Z (a b : Z) :
  Qle_bool (inject_Z a) (inject_Z b) = (a <=? b).
Proof. unfold Qle_bool, inject_Z. cbn [Qnum Qden]. now rewrite !Z.mul_1_r. Qed.

Lemma insert_Q_inject_Z (x : Z) (l : list Z) :
  insert_Q (inject_Z x) (map inject_Z l) = map inject_Z (insert_Z x l).
Proof.
  induction l as [| h t IH]; cbn [insert_Q insert_Z map]; [reflexivity |].
  rewrite Qle_bool_inject_Z. destruct (x <=? h); cbn [map]; [reflexivity |].
  now rewrite IH.
Qed.

Lemma sort_Q_inject_Z (l : list Z) :
  sort_Q (map inject_Z l) = map inject_Z (sort_Z l).
Proof.
  induction l as [| h t IH]; [reflexivity |].
  cbn [map sort_Q sort_Z fold_right]. fold (sort_Q (map inject_Z t)).
  fold (sort_Z t). now rewrite IH, insert_Q_inject_Z.
Qed.

Lemma nth_seqZ (n : nat) : forall a j d,
  (j < n)%nat -> nth j (seqZ a n) d = a + Z.of_nat j.
Proof.
  induction n as [| n IH]; intros a j d Hj; [lia |].
  destruct j as [| j]; cbn [seqZ nth]; [lia |].
  rewrite IH by lia. lia.
Qed.

Lemma length_seqZ (n : nat) : forall a, List.length (seqZ a n) = n.
Proof. induction n as [| n IH]; intros a; cbn [seqZ List.length]; auto. Qed.

(** ** The quantile edges of the ranks 1..n *)

(** Five times the [k]-th edge of the ranks 1..n is 5 + (n-1)*k. *)
Lemma interpolate_ranks (n k : nat) :
  (1 <= n)%nat -> (k <= 5)%nat ->
  (interpolate (map inject_Z (seqZ 1 n)) (inject_Z 1) 5 k * 5
   == inject_Z (5 + Z.of_nat (n - 1) * Z.of_nat k))%Q.
Proof.
  intros Hn Hk. unfold interpolate.
  rewrite length_map, length_seqZ.
  set (pos := ((n - 1) * k)%nat).
  pose proof (Nat.div_mod_eq pos 5) as Hdm.
  pose proof (Nat.mod_upper_bound pos 5 ltac:(lia)) as Hr.
  set (j := (pos / 5)%nat) in *. set (r := (pos mod 5)%nat) in *.
  assert (Hpos : (pos <= 5 * (n - 1))%nat) by (unfold pos; nia).
  assert (Hj : (j <= n - 1)%nat) by lia.
  rewrite !(map_nth inject_Z), !nth_seqZ by lia.
  replace (Z.of_nat (n - 1) * Z.of_nat k) with (5 * Z.of_nat j + Z.of_nat r)
    by (fold pos in Hdm; unfold pos in Hdm; nia).
  assert (Hcases : r = 0%nat \/ (Nat.min (j + 1) (n - 1) = j + 1)%nat) by lia.
  change (inject_Z (Z.of_nat 5)) with 5%Q.
  destruct Hcases as [-> | ->].
  - change (inject_Z (Z.of_nat 0)) with 0%Q.
    rewrite !inject_Z_plus, !inject_Z_mult.
    change (inject_Z 5) with 5%Q. change (inject_Z 1) with 1%Q.
    change (inject_Z (Z.of_nat 0)) with 0%Q. field.
  - rewrite Nat2Z.inj_add.
    rewrite !inject_Z_plus, !inject_Z_mult.
    change (inject_Z 5) with 5%Q. change (inject_Z 1) with 1%Q.
    change (inject_Z (Z.of_nat 1)) with 1%Q. field.
Qed.

Lemma quantile_ranks (n k : nat) :
  (1 <= n)%nat -> (k <= 5)%nat ->
  exists e,
    quantile (map inject_Z (seqZ 1 n)) 5 k = Some e
    /\ (e * 5 == inject_Z (5 + Z.of_nat (n - 1) * Z.of_nat k))%Q.
Proof.
  intros Hn Hk. pose proof (interpolate_ranks n k Hn Hk) as H.
  destruct n as [| n]; [lia |].
  eexists. split; [| exact H]. reflexivity.
Qed.

(** Comparisons against an edge known by its fivefold. *)
Lemma scaled_le (e : Q) (E r : Z) :
  (e * 5 == inject_Z E)%Q -> Qle_bool (inject_Z r) e = (5 * r <=? E).
Proof.
  intros He.
  assert (Hiff : (inject_Z r <= e)%Q <-> 5 * r <= E).
  { rewrite <- (Qmult_le_r (inject_Z r) e 5) by reflexivity.
    rewrite He. change 5%Q with (inject_Z 5).
    rewrite <- inject_Z_mult, <- Zle_Qle. lia. }
  destruct (5 * r <=? E) eqn:E1.
  - apply Qle_bool_iff, Hiff. lia.
  - destruct (Qle_bool (inject_Z r) e) eqn:E2; [| reflexivity].
    apply Qle_bool_iff, Hiff in E2. lia.
Qed.

Lemma scaled_eq (e : Q) (E r : Z) :
  (e * 5 == inject_Z E)%Q -> Qeq_bool (inject_Z r) e = (5 * r =? E).
Proof.
  intros He.
  assert (Hiff : (inject_Z r == e)%Q <-> 5 * r = E).
  { split.
    - intros H. apply inject_Z_injective.
      rewrite inject_Z_mult, <- He, <- H. change (inject_Z 5) with 5%Q. ring.
    - intros H. apply (Qmult_inj_r _ _ 5); [discriminate |].
      rewrite He, <- H, inject_Z_mult. change (inject_Z 5) with 5%Q. ring. }
  destruct (5 * r =? E) eqn:E1.
  - apply Qeq_bool_iff, Hiff. lia.
  - destruct (Qeq_bool (inject_Z r) e) eqn:E2; [| reflexivity].
    apply Qeq_bool_iff, Hiff in E2. lia.
Qed.

Lemma scaled_neq (e1 e2 : Q) (E1 E2 : Z) :
  (e1 * 5 == inject_Z E1)%Q -> (e2 * 5 == inject_Z E2)%Q -> E1 <> E2 ->
  edge_eqb (Some e1) (Some e2) = false.
Proof.
  intros H1 H2 Hne. cbn [edge_eqb].
  destruct (Qeq_bool e1 e2) eqn:E; [| reflexivity].
  apply Qeq_bool_iff in E. exfalso. apply Hne.
  apply inject_Z_injective. now rewrite <- H1, <- H2, E.
Qed.

(** ** The cut of a column of ranks *)

Lemma dropna_map_Some {A B} (f : A -> B) (l : list A) :
  dropna (map (fun a => Some (f a)) l) = map f l.
Proof. induction l as [| a t IH]; cbn [map dropna]; [reflexivity | now rewrite IH]. Qed.

(** Pairwise different edges survive the removal of duplicates. *)
Lemma drop_duplicates_from_distinct {K} (eqb : K -> K -> bool) (l : list K) :
  forall seen,
    (forall b s, In b l -> In s seen -> eqb b s = false) ->
    ForallOrdPairs (fun a b => eqb b a = false) l ->
    drop_duplicates_from eqb (fun k => k) seen l = l.
Proof.
  induction l as [| a t IH]; intros seen Hseen Hpairs; [reflexivity |].
  inversion Hpairs as [| ? ? Ha Ht]; subst.
  cbn [drop_duplicates_from].
  assert (E : existsb (eqb a) seen = false).
  { destruct (existsb (eqb a) seen) eqn:E; [| reflexivity].
    apply existsb_exists in E. destruct E as [s [Hs Hes]].
    rewrite (Hseen a s (or_introl eq_refl) Hs) in Hes. discriminate. }
  rewrite E. f_equal. apply IH; [| assumption].
  intros b s Hb [<- | Hs].
  - rewrite Forall_forall in Ha. now apply Ha.
  - apply Hseen; [now right | assumption].
Qed.

Lemma unique_distinct {K} (eqb : K -> K -> bool) (l : list K) :
  ForallOrdPairs (fun a b => eqb b a = false) l -> unique eqb l = l.
Proof.
  intros H. apply drop_duplicates_from_distinct; [| assumption].
  intros b s _ [].
Qed.

(** A rank between 1 and n falls into one of the five bins of the edges of
    1..n. *)
Lemma cut_cell_ranks (m : Z) (e0 e1 e2 e3 e4 e5 : Q) (r : Z) :
  1 <= m ->
  (e0 * 5 == inject_Z (5 + m * 0))%Q ->
  (e1 * 5 == inject_Z (5 + m * 1))%Q ->
  (e2 * 5 == inject_Z (5 + m * 2))%Q ->
  (e3 * 5 == inject_Z (5 + m * 3))%Q ->
  (e4 * 5 == inject_Z (5 + m * 4))%Q ->
  (e5 * 5 == inject_Z (5 + m * 5))%Q ->
  1 <= r <= m + 1 ->
  exists z,
    cut_cell [Some e0; Some e1; Some e2; Some e3; Some e4; Some e5]
      [1; 2; 3; 4; 5] (Some (inject_Z r)) = Some z
    /\ 1 <= z <= 5.
Proof.
  intros Hm H0 H1 H2 H3 H4 H5 Hr.
  unfold cut_cell. cbn [hd edge_eqb].
  rewrite (scaled_eq e0 _ r H0).
  destruct (5 * r =? 5 + m * 0) eqn:E0.
  - exists 1. split; [reflexivity | lia].
  - unfold searchsorted_left. cbn [filter edge_ltb].
    rewrite (scaled_le e0 _ r H0), (scaled_le e1 _ r H1), (scaled_le e2 _ r H2),
      (scaled_le e3 _ r H3), (scaled_le e4 _ r H4), (scaled_le e5 _ r H5).
    replace (5 * r <=? 5 + m * 0) with false by lia.
    replace (5 * r <=? 5 + m * 5) with true by lia.
    destruct (5 * r <=? 5 + m * 1), (5 * r <=? 5 + m * 2),
      (5 * r <=? 5 + m * 3), (5 * r <=? 5 + m * 4);
      cbn; eexists; (split; [reflexivity | lia]).
Qed.

(** The cut of n >= 2 distinct ranks 1..n into five labelled bins never
    raises and leaves no cell without a label. *)
Lemma qcut_ranks (ranks : list Z) :
  (2 <= List.length ranks)%nat ->
  sort_Z ranks = seqZ 1 (List.length ranks) ->
  (forall r, In r ranks -> 1 <= r <= Z.of_nat (List.length ranks)) ->
  exists fs,
    qcut (map (fun z => Some (inject_Z z)) ranks) 5 [1; 2; 3; 4; 5] false = OK fs
    /\ List.length fs = List.length ranks
    /\ Forall (fun s => exists z, s = Some z /\ 1 <= z <= 5) fs.
Proof.
  intros Hn Hsort Hbounds.
  set (n := List.length ranks) in *.
  set (m := Z.of_nat (n - 1)).
  assert (Hm : 1 <= m) by (unfold m; lia).
  destruct (quantile_ranks n 0 ltac:(lia) ltac:(lia)) as [e0 [Q0 H0]].
  destruct (quantile_ranks n 1 ltac:(lia) ltac:(lia)) as [e1 [Q1 H1]].
  destruct (quantile_ranks n 2 ltac:(lia) ltac:(lia)) as [e2 [Q2 H2]].
  destruct (quantile_ranks n 3 ltac:(lia) ltac:(lia)) as [e3 [Q3 H3]].
  destruct (quantile_ranks n 4 ltac:(lia) ltac:(lia)) as [e4 [Q4 H4]].
  destruct (quantile_ranks n 5 ltac:(lia) ltac:(lia)) as [e5 [Q5 H5]].
  fold m in H0, H1, H2, H3, H4, H5.
  change (Z.of_nat 0) with 0 in H0. change (Z.of_nat 1) with 1 in H1.
  change (Z.of_nat 2) with 2 in H2. change (Z.of_nat 3) with 3 in H3.
  change (Z.of_nat 4) with 4 in H4. change (Z.of_nat 5) with 5 in H5.
  unfold qcut.
  rewrite (dropna_map_Some inject_Z), sort_Q_inject_Z, Hsort.
  cbn [seq map]. rewrite Q0, Q1, Q2, Q3, Q4, Q5.
  rewrite unique_distinct.
  - cbn [List.length Nat.ltb Nat.leb Nat.eqb andb negb bind Nat.sub].
    eexists. split; [reflexivity |]. split.
    + now rewrite !length_map.
    + apply Forall_forall. intros s Hs. apply in_map_iff in Hs.
      destruct Hs as [c [<- Hc]]. apply in_map_iff in Hc.
      destruct Hc as [r [<- Hr]].
      apply (cut_cell_ranks m); try assumption.
      specialize (Hbounds r Hr). unfold m. lia.
  - repeat constructor;
      match goal with
      | Ha : (?a * 5 == _)%Q, Hb : (?b * 5 == _)%Q
        |- edge_eqb (Some ?a) (Some ?b) = false =>
          apply (scaled_neq _ _ _ _ Ha Hb); lia
      end.
Qed.

Lemma f_scores_defined (rfm : list rfm_metrics) :
  (2 <= List.length rfm)%nat ->
  exists fs,
    f_scores rfm = OK fs
    /\ List.length fs = List.length rfm
    /\ Forall (fun s => exists z, s = Some z /\ 1 <= z <= 5) fs.
Proof.
  intros Hn. unfold f_scores.
  pose proof (rank_first_length (map frequency rfm)) as Hlen.
  rewrite length_map in Hlen.
  destruct (qcut_ranks (rank_first (map frequency rfm))) as [fs [Hq [Hl Hall]]].
  - lia.
  - rewrite sort_Z_rank_first, Hlen, length_map. reflexivity.
  - intros r Hr. rewrite Hlen. apply rank_first_bounds in Hr.
    now rewrite length_map in Hr.
  - exists fs. split; [exact Hq |]. split; [lia | exact Hall].
Qed.

(** C10. For every population of at least 5 customers the frequency cut
    never raises and gives every customer a frequency score, an integer
    from 1 to 5: the frequencies are replaced by their first-come ranks,
    which are distinct, so the five quantile bins are never degenerate,
    however many frequencies are equal.  Hence every row of the extract has
    a defined frequency score. *)
Theorem f_score_always_defined (db : database) :
  (5 <= List.length (rfm_table (customer_orders db)))%nat ->
  (exists fs,
     f_scores (rfm_table (customer_orders db)) = OK fs
     /\ List.length fs = List.length (rfm_table (customer_orders db))
     /\ Forall (fun s => exists z, s = Some z /\ 1 <= z <= 5) fs)
  /\ (forall rows row,
        export_customer_segments db = OK rows -> In row rows ->
        exists z, f_score row = Some z /\ 1 <= z <= 5).
Proof.
  intros Hn.
  destruct (f_scores_defined (rfm_table (customer_orders db)) ltac:(lia))
    as [fs [Hf [Hl Hall]]].
  split; [exists fs; auto |].
  intros rows row Hrun Hin.
  destruct (export_customer_segments_rows db rows Hrun)
    as [rs [fs' [ms [_ [Hf' [_ ->]]]]]].
  apply segment_rows_metrics in Hin. destruct Hin as [_ [_ [Hif _]]].
  rewrite Hf in Hf'. inversion Hf'; subst fs'.
  rewrite Forall_forall in Hall. now apply Hall.
Qed.

Lemma f_score_always_defined_witness :
  (exists fs,
     f_scores (rfm_table (customer_orders six_customers_db)) = OK fs
     /\ List.length fs = List.length (rfm_table (customer_orders six_customers_db))
     /\ Forall (fun s => exists z, s = Some z /\ 1 <= z <= 5) fs)
  /\ (forall rows row,
        export_customer_segments six_customers_db = OK rows -> In row rows ->
        exists z, f_score row = Some z /\ 1 <= z <= 5).
Proof.
  apply (f_score_always_defined six_customers_db).
  apply Nat.leb_le. vm_compute. reflexivity.
Defined.

(** The frequency cut of five customers with the same frequency. *)
Example f_scores_all_tied :
  f_scores (rfm_table (customer_orders tied_recency_db))
  = OK [Some 1; Some 2; Some 3; Some 4; Some 5].
Proof. vm_compute. reflexivity. Qed.

(* ================================================================== *)
(** * Further properties of the extracts *)

(** ** Left joins, row by row *)

(** An unmatched row of a left join has no match on the right. *)
Lemma merge_left_In_None {L R} (on : L -> R -> bool) (left : list L) (right : list R)
    (x : L) :
  In (x, None) (merge_left on left right) ->
  In x left /\ forall y, In y right -> on x y = false.
Proof.
  unfold merge_left. rewrite in_flat_map. intros [a [Ha Hin]].
  destruct (filter (on a) right) as [| b more] eqn:E.
  - destruct Hin as [Heq | []]. inversion Heq; subst. split; [assumption |].
    intros y Hy. destruct (on x y) eqn:Ey; [| reflexivity].
    assert (Hc : In y (filter (on x) right)) by (apply filter_In; auto).
    rewrite E in Hc. contradiction.
  - apply in_map_iff in Hin. destruct Hin as [c [Heq _]]. discriminate.
Qed.

(** ** The segment table *)

(** X1. The decision table on two defined scores: each segment is one region
    of the (recency score, frequency score) plane, the six regions cover
    every pair of integers, and the final branch "Need Attention" is never
    taken. *)
Theorem segment_customer_regions (r f : Z) :
  let s := segment_customer (Some r) (Some f) in
  (s = "Champions"%string <-> 4 <= r /\ 4 <= f)
  /\ (s = "Loyal Customers"%string <-> 3 <= r /\ 3 <= f /\ ~ (4 <= r /\ 4 <= f))
  /\ (s = "New Customers"%string <-> 4 <= r /\ f <= 2)
  /\ (s = "Potential Loyalists"%string <-> r = 3 /\ f <= 2)
  /\ (s = "At Risk"%string <-> r <= 2 /\ 3 <= f)
  /\ (s = "Hibernating"%string <-> r <= 2 /\ f <= 2)
  /\ s <> "Need Attention"%string
  /\ s <> "Unknown"%string.
Proof.
  cbv zeta. unfold segment_customer.
  destruct (r >=? 4) eqn:R4, (r >=? 3) eqn:R3, (r <=? 2) eqn:R2,
    (f >=? 4) eqn:F4, (f >=? 3) eqn:F3, (f <=? 2) eqn:F2;
    cbn [andb];
    repeat split; try discriminate; try lia; intros; try discriminate; try lia.
Qed.

(** ** Orders fact, row by row *)

(** Every fact row is built from an order of the table, a payment aggregate
    or none, and a kept review or none, each matched on the order id. *)
Lemma export_orders_fact_parts (db : database) (row : orders_fact_row) :
  In row (export_orders_fact db) ->
  In (of_order row) (orders db)
  /\ match of_payment row with
     | Some pa => In pa (of_payments_df db)
                  /\ pa_order_id pa = order_id (of_order row)
     | None => forall pa, In pa (of_payments_df db) ->
                          pa_order_id pa <> order_id (of_order row)
     end
  /\ match of_review row with
     | Some rv => In rv (of_reviews_df db)
                  /\ rv_order_id rv = order_id (of_order row)
     | None => forall rv, In rv (of_reviews_df db) ->
                          rv_order_id rv <> order_id (of_order row)
     end.
Proof.
  unfold export_orders_fact. intros H. apply in_map_iff in H.
  destruct H as [[[[o c] p] r] [<- H]]. cbn [of_order of_payment of_review].
  assert (Hp : In (o, c, p) (merge_left
                 (fun (oc : order * option customer) p =>
                    String.eqb (order_id (fst oc)) (pa_order_id p))
                 (of_orders_df db) (of_payments_df db))).
  { destruct r; [apply merge_left_In_snd in H | apply merge_left_In_None in H];
      tauto. }
  assert (Ho : In (o, c) (of_orders_df db)).
  { destruct p; [apply merge_left_In_snd in Hp | apply merge_left_In_None in Hp];
      tauto. }
  split.
  - unfold of_orders_df in Ho.
    destruct c; [apply merge_left_In_snd in Ho | apply merge_left_In_None in Ho];
      tauto.
  - split.
    + destruct p as [pa |].
      * apply merge_left_In_snd in Hp. destruct Hp as [_ [Hin Heq]].
        cbn [fst] in Heq. apply String.eqb_eq in Heq. auto.
      * apply merge_left_In_None in Hp. destruct Hp as [_ Hno].
        intros pa Hpa Heq. specialize (Hno pa Hpa). cbn [fst] in Hno.
        rewrite Heq, String.eqb_refl in Hno. discriminate.
    + destruct r as [rv |].
      * apply merge_left_In_snd in H. destruct H as [_ [Hin Heq]].
        cbn [fst] in Heq. apply String.eqb_eq in Heq. auto.
      * apply merge_left_In_None in H. destruct H as [_ Hno].
        intros rv Hrv Heq. specialize (Hno rv Hrv). cbn [fst] in Hno.
        rewrite Heq, String.eqb_refl in Hno. discriminate.
Qed.

(** X2. The payment columns of a fact row aggregate exactly the payment rows
    of its order: the value and the installments are their sums and the
    count their number, at least 1.  An order without payment rows has
    missing payment columns, not zeros. *)
Theorem orders_fact_payment_columns (db : database) (row : orders_fact_row) :
  In row (export_orders_fact db) ->
  match of_payment row with
  | Some pa =>
      payments_of db (order_id (of_order row)) <> []
      /\ total_payment_value pa
         = qsum (map payment_value (payments_of db (order_id (of_order row))))
      /\ total_installments pa
         = fold_right Z.add 0
             (map payment_installments (payments_of db (order_id (of_order row))))
      /\ payment_count pa
         = Z.of_nat (List.length (payments_of db (order_id (of_order row))))
      /\ 1 <= payment_count pa
  | None => payments_of db (order_id (of_order row)) = []
  end.
Proof.
  intros H. destruct (export_orders_fact_parts db row H) as [_ [Hp _]].
  destruct (of_payment row) as [pa |].
  - destruct Hp as [Hin Hid]. unfold of_payments_df, sql_group_by in Hin.
    apply in_map_iff in Hin. destruct Hin as [k [<- Hk]].
    cbn [pa_order_id] in Hid. subst k.
    cbn [total_payment_value total_installments payment_count].
    fold (payments_of db (order_id (of_order row))).
    apply (proj1 (unique_In String.eqb string_eqb_spec _ _)) in Hk.
    apply in_map_iff in Hk. destruct Hk as [p [Hp1 Hp2]].
    assert (Hne : payments_of db (order_id (of_order row)) <> []).
    { intros Hempty.
      assert (Hg : In p (payments_of db (order_id (of_order row)))).
      { unfold payments_of, group. apply filter_In. split; [assumption |].
        now apply String.eqb_eq. }
      rewrite Hempty in Hg. contradiction. }
    repeat split; try assumption.
    destruct (payments_of db (order_id (of_order row))); [congruence |].
    cbn [List.length]. lia.
  - unfold payments_of, group.
    destruct (filter _ (order_payments db)) as [| p more] eqn:E; [reflexivity |].
    exfalso.
    assert (Hin : In p (filter (fun r => String.eqb (p_order_id r)
                                  (order_id (of_order row))) (order_payments db)))
      by (rewrite E; now left).
    apply filter_In in Hin. destruct Hin as [Hin Hk]. apply String.eqb_eq in Hk.
    assert (Hkey : In (p_order_id p) (unique String.eqb (map p_order_id (order_payments db)))).
    { apply (unique_In String.eqb string_eqb_spec). now apply in_map. }
    apply (Hp (mk_payment_agg (p_order_id p)
                 (qsum (map payment_value
                    (group String.eqb p_order_id (p_order_id p) (order_payments db))))
                 (string_max (map payment_type
                    (group String.eqb p_order_id (p_order_id p) (order_payments db))))
                 (fold_right Z.add 0 (map payment_installments
                    (group String.eqb p_order_id (p_order_id p) (order_payments db))))
                 (Z.of_nat (List.length
                    (group String.eqb p_order_id (p_order_id p) (order_payments db)))))).
    + unfold of_payments_df, sql_group_by. apply in_map_iff.
      exists (p_order_id p). split; [reflexivity | assumption].
    + exact Hk.
Qed.

Lemma orders_fact_payment_columns_witness :
  Forall (fun row =>
    match of_payment row with
    | Some pa =>
        payments_of sample_db (order_id (of_order row)) <> []
        /\ total_payment_value pa
           = qsum (map payment_value (payments_of sample_db (order_id (of_order row))))
        /\ total_installments pa
           = fold_right Z.add 0
               (map payment_installments
                  (payments_of sample_db (order_id (of_order row))))
        /\ payment_count pa
           = Z.of_nat (List.length (payments_of sample_db (order_id (of_order row))))
        /\ 1 <= payment_count pa
    | None => payments_of sample_db (order_id (of_order row)) = []
    end)
    (export_orders_fact sample_db)
  /\ map (fun row => option_map payment_count (of_payment row))
       (export_orders_fact sample_db)
     = [Some 1; Some 2; None; None].
Proof.
  split; [| vm_compute; reflexivity].
  apply Forall_forall. intros row.
  apply (orders_fact_payment_columns sample_db).
Defined.

(** A row kept by [drop_duplicates] is the first row of its key. *)
Lemma drop_duplicates_from_first {K R} (eqb : K -> K -> bool)
    (eqb_spec : forall a b, eqb a b = true <-> a = b)
    (key : R -> K) (rows : list R) :
  forall seen r,
    In r (drop_duplicates_from eqb key seen rows) ->
    find (fun x => eqb (key x) (key r)) rows = Some r.
Proof.
  induction rows as [| a rest IH]; intros seen r Hin;
    cbn [drop_duplicates_from] in Hin; [contradiction |].
  cbn [find].
  destruct (existsb (eqb (key a)) seen) eqn:E.
  - pose proof (proj2 (drop_duplicates_from_keys eqb eqb_spec key rest seen) r Hin)
      as [_ Hns].
    apply (existsb_eqb_In eqb eqb_spec) in E.
    destruct (eqb (key a) (key r)) eqn:Ek.
    + apply eqb_spec in Ek. congruence.
    + now apply (IH seen).
  - destruct Hin as [-> | Hin].
    + now rewrite (proj2 (eqb_spec (key r) (key r)) eq_refl).
    + pose proof (proj2 (drop_duplicates_from_keys eqb eqb_spec key rest
                           (key a :: seen)) r Hin) as [_ Hns].
      destruct (eqb (key a) (key r)) eqn:Ek.
      * apply eqb_spec in Ek. exfalso. apply Hns. now left.
      * now apply (IH (key a :: seen)).
Qed.

(** X3. The review columns of a fact row are those of the first review of
    its order in table order; later reviews of the same order are ignored,
    and an order without review has missing review columns. *)
Theorem orders_fact_review_is_first (db : database) (row : orders_fact_row) :
  In row (export_orders_fact db) ->
  of_review row
  = find (fun rv => String.eqb (rv_order_id rv) (order_id (of_order row)))
      (order_reviews db).
Proof.
  intros H. destruct (export_orders_fact_parts db row H) as [_ [_ Hr]].
  destruct (of_review row) as [rv |].
  - destruct Hr as [Hin Hid]. unfold of_reviews_df, drop_duplicates in Hin.
    apply (drop_duplicates_from_first String.eqb string_eqb_spec) in Hin.
    rewrite Hid in Hin. now symmetry.
  - destruct (find _ (order_reviews db)) as [r |] eqn:E; [| reflexivity].
    exfalso. apply find_some in E. destruct E as [Hin Hk].
    apply String.eqb_eq in Hk.
    pose proof (drop_duplicates_from_complete String.eqb string_eqb_spec
                  rv_order_id (order_reviews db) [] r Hin (fun x => x)) as Hc.
    apply in_map_iff in Hc. destruct Hc as [rv [Hkey Hrv]].
    apply (Hr rv Hrv). congruence.
Qed.

Lemma orders_fact_review_is_first_witness :
  Forall (fun row =>
    of_review row
    = find (fun rv => String.eqb (rv_order_id rv) (order_id (of_order row)))
        (order_reviews sample_db))
    (export_orders_fact sample_db)
  /\ map (fun row => option_map review_score (of_review row))
       (export_orders_fact sample_db)
     = [Some 5; Some 4; None; None].
Proof.
  split; [| vm_compute; reflexivity].
  apply Forall_forall. intros row.
  apply (orders_fact_review_is_first sample_db).
Defined.

(** X4. The delivery columns of a fact row.  A duration is present exactly
    when the order is delivered and both of its timestamps are; the delay
    exactly when both durations are; the on-time label is missing exactly
    on the orders that are not delivered, "On Time" exactly when both
    durations are present and the actual one is at most the estimated one
    (a tie is on time), and "Late" on every other delivered order. *)
Theorem orders_fact_delivery_columns (db : database) (row : orders_fact_row) :
  In row (export_orders_fact db) ->
  let o := of_order row in
  (of_actual_delivery_days row <> None
   <-> is_delivered o = true /\ order_purchase_timestamp o <> None
       /\ order_delivered_customer_date o <> None)
  /\ (of_estimated_delivery_days row <> None
      <-> is_delivered o = true /\ order_purchase_timestamp o <> None
          /\ order_estimated_delivery_date o <> None)
  /\ (of_delivery_delay_days row <> None
      <-> of_actual_delivery_days row <> None
          /\ of_estimated_delivery_days row <> None)
  /\ (of_on_time_delivery row = None <-> is_delivered o = false)
  /\ (of_on_time_delivery row = Some "On Time"%string
      <-> exists a e, of_actual_delivery_days row = Some a
                      /\ of_estimated_delivery_days row = Some e /\ a <= e)
  /\ (of_on_time_delivery row = Some "Late"%string
      <-> is_delivered o = true
          /\ ~ exists a e, of_actual_delivery_days row = Some a
                           /\ of_estimated_delivery_days row = Some e /\ a <= e).
Proof.
  intros H o. destruct (export_orders_fact_columns db row H) as [Ea [Ee [Ed Eo]]].
  fold o in Ea, Ee, Ed, Eo. rewrite Ea, Ee, Ed, Eo.
  unfold on_time_delivery, delivery_delay_days, actual_delivery_days,
    estimated_delivery_days, delivered_mask.
  destruct (is_delivered o);
    destruct (order_purchase_timestamp o) as [p |];
    destruct (order_delivered_customer_date o) as [d |];
    destruct (order_estimated_delivery_date o) as [e |];
    cbn [dt_diff_days opt_map2 negb le_zero];
    repeat split; try congruence; try tauto;
    try (intros [a [b [Ha [Hb Hab]]]]; congruence);
    try (intros [_ Hc]; congruence);
    try (intros Hc; exfalso; apply Hc; congruence).
  all: unfold on_time_label;
    try match goal with
        | |- context [?a <=? 0] => destruct (a <=? 0) eqn:E
        end.
  all: try (intros _; eexists; eexists; split; [reflexivity |];
            split; [reflexivity | lia]).
  all: try discriminate.
  all: try reflexivity.
  all: try (intros [a [b [Ha [Hb Hab]]]]; inversion Ha; inversion Hb; subst; lia).
  all: try (intros [_ Hc]; exfalso; apply Hc; eexists; eexists;
            split; [reflexivity |]; split; [reflexivity | lia]).
  all: try (intros _; split; [reflexivity |];
            intros [a [b [Ha [Hb Hab]]]]; inversion Ha; inversion Hb; subst; lia).
  all: try (intros [Hc _]; discriminate).
  all: match goal with
       | H0 : Some (on_time_label ?b) = _ |- _ =>
           destruct b eqn:E; cbn in H0; try discriminate
       end;
       intros [a [b' [Ha [Hb Hab]]]]; inversion Ha; inversion Hb; subst; lia.
Qed.

Lemma orders_fact_delivery_columns_witness :
  Forall (fun row =>
    let o := of_order row in
    (of_actual_delivery_days row <> None
     <-> is_delivered o = true /\ order_purchase_timestamp o <> None
         /\ order_delivered_customer_date o <> None)
    /\ (of_estimated_delivery_days row <> None
        <-> is_delivered o = true /\ order_purchase_timestamp o <> None
            /\ order_estimated_delivery_date o <> None)
    /\ (of_delivery_delay_days row <> None
        <-> of_actual_delivery_days row <> None
            /\ of_estimated_delivery_days row <> None)
    /\ (of_on_time_delivery row = None <-> is_delivered o = false)
    /\ (of_on_time_delivery row = Some "On Time"%string
        <-> exists a e, of_actual_delivery_days row = Some a
                        /\ of_estimated_delivery_days row = Some e /\ a <= e)
    /\ (of_on_time_delivery row = Some "Late"%string
        <-> is_delivered o = true
            /\ ~ exists a e, of_actual_delivery_days row = Some a
                             /\ of_estimated_delivery_days row = Some e /\ a <= e))
    (export_orders_fact sample_db)
  /\ map (fun row => (of_actual_delivery_days row, of_estimated_delivery_days row,
                      of_on_time_delivery row))
       (export_orders_fact sample_db)
     = [(Some 5, Some 5, Some "On Time"); (Some 2, Some 10, Some "On Time");
        (None, Some 17, Some "Late"); (None, None, None)]%string.
Proof.
  split; [| vm_compute; reflexivity].
  apply Forall_forall. intros row.
  apply (orders_fact_delivery_columns sample_db).
Defined.

(** ** Customer segments: grain and totals *)

(** A quantile cut labels every cell of its column, in order. *)
Lemma qcut_length (x : list (option Q)) (q : nat) (labels : list Z)
    (drop : bool) (l : list (option Z)) :
  qcut x q labels drop = OK l -> List.length l = List.length x.
Proof.
  unfold qcut, bind. intros H.
  destruct (_ && _).
  - destruct drop; [| discriminate].
    destruct (negb _); [discriminate |]. inversion H. apply length_map.
  - destruct (negb _); [discriminate |]. inversion H. apply length_map.
Qed.

Lemma map_fst_combine {A B} (l : list A) (l' : list B) :
  List.length l = List.length l' -> map fst (combine l l') = l.
Proof.
  revert l'. induction l as [| a t IH]; intros [| b t'] H; cbn in *;
    try discriminate; [reflexivity |].
  f_equal. apply IH. lia.
Qed.

Lemma purchase_dates_keys (cos : list customer_order) :
  NoDup (map pd_customer_unique_id (purchase_dates cos)).
Proof.
  unfold purchase_dates, groupby. rewrite map_map. cbn [pd_customer_unique_id].
  rewrite map_id. apply group_keys_NoDup, string_eqb_spec.
Qed.

(** The metrics column of the extract is the metrics table, row for row. *)
Lemma segment_rows_metrics_column (cos : list customer_order)
    (rfm : list rfm_metrics) (rs fs ms : list (option Z)) :
  List.length rs = List.length rfm ->
  List.length fs = List.length rfm ->
  List.length ms = List.length rfm ->
  map seg_metrics (segment_rows cos rfm rs fs ms) = rfm.
Proof.
  intros Hr Hf Hm. unfold segment_rows, zip3.
  set (Z3 := combine (combine (combine rfm rs) fs) ms).
  set (M := merge_left _ Z3 (purchase_dates cos)).
  assert (HM : map fst M = Z3).
  { apply merge_left_fst. intros x _.
    apply (filter_key_at_most_one pd_customer_unique_id _
             (rfm_customer_unique_id (fst (fst (fst x)))));
      [apply purchase_dates_keys |].
    intros d Hd. symmetry. now apply String.eqb_eq. }
  transitivity (map fst (map fst (map fst (map fst M)))).
  - rewrite !map_map. apply map_ext. intros [[[[x r] f] m] pd]. reflexivity.
  - rewrite HM. unfold Z3.
    rewrite map_fst_combine by (rewrite !length_combine; lia).
    rewrite map_fst_combine by (rewrite !length_combine; lia).
    apply map_fst_combine. lia.
Qed.

Lemma export_customer_segments_metrics (db : database) (rows : list segment_row) :
  export_customer_segments db = OK rows ->
  map seg_metrics rows = rfm_table (customer_orders db).
Proof.
  intros H. destruct (export_customer_segments_rows db rows H)
    as [rs [fs [ms [Hr [Hf [Hm ->]]]]]].
  unfold r_scores in Hr. unfold f_scores in Hf. unfold m_scores in Hm.
  apply qcut_length in Hr, Hf, Hm. rewrite !length_map in Hr, Hf, Hm.
  rewrite rank_first_length, length_map in Hf.
  now apply segment_rows_metrics_column.
Qed.

(** The rows of [customer_orders]: the delivered orders joined with their
    customers. *)
Lemma customer_orders_ids (db : database) (u : string) :
  In u (map co_customer_unique_id (customer_orders db))
  <-> exists c o,
        In c (customers db) /\ In o (orders db)
        /\ customer_id o = Some (c_customer_id c)
        /\ is_delivered o = true
        /\ customer_unique_id c = u.
Proof.
  unfold customer_orders.
  set (J := filter _ (inner_join _ (customers db) (orders db))).
  set (M := merge_left _ J (payments_per_order db)).
  assert (HJ : forall c o, In (c, o) J <->
             In c (customers db) /\ In o (orders db)
             /\ customer_id o = Some (c_customer_id c) /\ is_delivered o = true).
  { intros c o. unfold J. rewrite filter_In. unfold inner_join.
    rewrite in_flat_map. cbn [snd]. split.
    - intros [[c' [Hc Hin]] Hd]. apply in_map_iff in Hin.
      destruct Hin as [o' [Heq Ho]]. inversion Heq; subst.
      apply filter_In in Ho. destruct Ho as [Ho Hk].
      unfold sql_eq in Hk. destruct (customer_id o) as [k |]; [| discriminate].
      apply String.eqb_eq in Hk. subst k. auto.
    - intros [Hc [Ho [Hk Hd]]]. split; [| assumption].
      exists c. split; [assumption |]. apply in_map. apply filter_In.
      split; [assumption |]. unfold sql_eq. rewrite Hk. apply String.eqb_refl. }
  assert (HM : forall x, In x J <-> exists p, In (x, p) M).
  { intros x. split.
    - intros Hx. unfold M, merge_left.
      destruct (filter (fun p : string * Q => String.eqb (order_id (snd x)) (fst p))
                  (payments_per_order db)) as [| y more] eqn:E.
      + exists None. apply in_flat_map. exists x. split; [assumption |].
        rewrite E. now left.
      + exists (Some y). apply in_flat_map. exists x. split; [assumption |].
        rewrite E. now left.
    - intros [p Hp]. now apply merge_left_In_fst in Hp. }
  rewrite in_map_iff. split.
  - intros [co [<- Hco]]. apply in_map_iff in Hco.
    destruct Hco as [[[c o] p] [<- Hin]]. cbn [co_customer_unique_id].
    exists c, o. assert (Hj : In (c, o) J) by (apply HM; eauto).
    apply HJ in Hj. tauto.
  - intros [c [o [Hc [Ho [Hk [Hd <-]]]]]].
    assert (Hj : In (c, o) J) by (apply HJ; auto).
    apply HM in Hj. destruct Hj as [p Hp].
    eexists. split; [| apply in_map_iff; exists (c, o, p); split;
                       [reflexivity | exact Hp]].
    reflexivity.
Qed.

(** X5. When the segmentation pass completes, the extract holds exactly one
    row per customer_unique_id that has a delivered order: no customer is
    repeated, and a customer is present exactly when one of its customer ids
    carries a delivered order. *)
Theorem segments_one_row_per_customer (db : database) (rows : list segment_row) :
  export_customer_segments db = OK rows ->
  NoDup (map (fun row => rfm_customer_unique_id (seg_metrics row)) rows)
  /\ forall u,
       In u (map (fun row => rfm_customer_unique_id (seg_metrics row)) rows)
       <-> exists c o,
             In c (customers db) /\ In o (orders db)
             /\ customer_id o = Some (c_customer_id c)
             /\ is_delivered o = true
             /\ customer_unique_id c = u.
Proof.
  intros H.
  assert (Hids : map (fun row => rfm_customer_unique_id (seg_metrics row)) rows
                 = group_keys String.eqb String.leb
                     (map co_customer_unique_id (customer_orders db))).
  { rewrite <- (map_map seg_metrics rfm_customer_unique_id).
    rewrite (export_customer_segments_metrics db rows H).
    unfold rfm_table, groupby. rewrite map_map. cbn [rfm_agg rfm_customer_unique_id].
    apply map_id. }
  rewrite Hids. split.
  - apply group_keys_NoDup, string_eqb_spec.
  - intros u. rewrite (group_keys_In String.eqb string_eqb_spec).
    apply customer_orders_ids.
Qed.

Lemma segments_one_row_per_customer_witness :
  NoDup (map (fun row => rfm_customer_unique_id (seg_metrics row))
           (rows_of (export_customer_segments six_customers_db)))
  /\ forall u,
       In u (map (fun row => rfm_customer_unique_id (seg_metrics row))
               (rows_of (export_customer_segments six_customers_db)))
       <-> exists c o,
             In c (customers six_customers_db) /\ In o (orders six_customers_db)
             /\ customer_id o = Some (c_customer_id c)
             /\ is_delivered o = true
             /\ customer_unique_id c = u.
Proof.
  apply (segments_one_row_per_customer six_customers_db).
  vm_compute. reflexivity.
Defined.

(** A row falls into the group of exactly one of the distinct keys. *)
Lemma key_indicator_sum (x : string) (keys : list string) :
  NoDup keys -> In x keys ->
  fold_right Z.add 0 (map (fun k => if String.eqb x k then 1 else 0) keys) = 1.
Proof.
  induction keys as [| k t IH]; intros Hnd Hin; [contradiction |].
  inversion Hnd as [| ? ? Hnotin Hnd']; subst. cbn [map fold_right].
  destruct (String.eqb x k) eqn:E.
  - apply String.eqb_eq in E. subst k.
    assert (Hz : fold_right Z.add 0
                   (map (fun k => if String.eqb x k then 1 else 0) t) = 0).
    { clear IH Hnd Hnd' Hin. induction t as [| k' t' IH']; [reflexivity |].
      cbn [map fold_right]. destruct (String.eqb x k') eqn:E'.
      - apply String.eqb_eq in E'. subst k'. exfalso. apply Hnotin. now left.
      - rewrite IH'; [reflexivity |]. intros Hc. apply Hnotin. now right. }
    rewrite Hz. reflexivity.
  - destruct Hin as [-> | Hin]; [rewrite String.eqb_refl in E; discriminate |].
    rewrite IH by assumption. reflexivity.
Qed.

(** The groups of distinct keys that cover a frame partition it. *)
Lemma group_sizes_sum {R} (key : R -> string) (keys : list string) (rows : list R) :
  NoDup keys ->
  (forall r, In r rows -> In (key r) keys) ->
  fold_right Z.add 0
    (map (fun k => Z.of_nat (List.length (group String.eqb key k rows))) keys)
  = Z.of_nat (List.length rows).
Proof.
  intros Hnd. induction rows as [| a t IH]; intros Hcover.
  - cbn [group filter List.length]. clear Hnd Hcover.
    induction keys as [| k ks IHk]; [reflexivity |].
    cbn [map fold_right]. rewrite IHk. reflexivity.
  - assert (Hsplit : forall ks,
      fold_right Z.add 0
        (map (fun k => Z.of_nat (List.length (group String.eqb key k (a :: t)))) ks)
      = fold_right Z.add 0
          (map (fun k => if String.eqb (key a) k then 1 else 0) ks)
        + fold_right Z.add 0
            (map (fun k => Z.of_nat (List.length (group String.eqb key k t))) ks)).
    { induction ks as [| k ks IHk]; [reflexivity |].
      cbn [map fold_right]. rewrite IHk. unfold group at 1. cbn [filter].
      fold (group String.eqb key k t).
      destruct (String.eqb (key a) k); cbn [List.length]; lia. }
    rewrite Hsplit, IH by (intros r Hr; apply Hcover; now right).
    rewrite key_indicator_sum; [cbn [List.length]; lia | assumption |].
    apply Hcover. now left.
Qed.

(** The payments per order hold one row per order id. *)
Lemma payments_per_order_keys (db : database) :
  NoDup (map fst (payments_per_order db)).
Proof.
  unfold payments_per_order, sql_group_by. rewrite map_map. cbn [fst].
  rewrite map_id. apply unique_NoDup, string_eqb_spec.
Qed.

(** [customer_orders] has one row per pair of the join: the merge with the
    payments adds and removes none. *)
Lemma customer_orders_length (db : database) :
  List.length (customer_orders db)
  = List.length
      (filter (fun co : customer * order => is_delivered (snd co))
         (inner_join (fun c o => sql_eq (customer_id o) (c_customer_id c))
            (customers db) (orders db))).
Proof.
  unfold customer_orders. rewrite length_map.
  set (J := filter _ (inner_join _ (customers db) (orders db))).
  rewrite <- (length_map fst (merge_left _ J (payments_per_order db))).
  rewrite merge_left_fst; [reflexivity |].
  intros x _. apply (filter_key_at_most_one fst _ (order_id (snd x)));
    [apply payments_per_order_keys |].
  intros p Hp. symmetry. now apply String.eqb_eq.
Qed.

(** X6. When the segmentation pass completes, the frequencies of the extract
    add up to the number of rows of customer_orders, which is the number of
    pairs of a customers row and a delivered order with the same
    customer_id.  (So a delivered order counts once for each customers row
    that carries its customer_id, and not at all when no row does.) *)
Theorem segments_frequency_total (db : database) (rows : list segment_row) :
  export_customer_segments db = OK rows ->
  fold_right Z.add 0 (map (fun row => frequency (seg_metrics row)) rows)
  = Z.of_nat (List.length (customer_orders db))
  /\ List.length (customer_orders db)
     = List.length
         (filter (fun co : customer * order => is_delivered (snd co))
            (inner_join (fun c o => sql_eq (customer_id o) (c_customer_id c))
               (customers db) (orders db))).
Proof.
  intros H. split; [| apply customer_orders_length].
  rewrite <- (map_map seg_metrics frequency).
  rewrite (export_customer_segments_metrics db rows H).
  unfold rfm_table, groupby. rewrite map_map. cbn [rfm_agg frequency].
  apply group_sizes_sum.
  - apply group_keys_NoDup, string_eqb_spec.
  - intros r Hr. apply (group_keys_In String.eqb string_eqb_spec).
    now apply in_map.
Qed.

Lemma segments_frequency_total_witness :
  (fold_right Z.add 0
     (map (fun row => frequency (seg_metrics row))
        (rows_of (export_customer_segments six_customers_db)))
   = Z.of_nat (List.length (customer_orders six_customers_db))
   /\ List.length (customer_orders six_customers_db)
      = List.length
          (filter (fun co : customer * order => is_delivered (snd co))
             (inner_join (fun c o => sql_eq (customer_id o) (c_customer_id c))
                (customers six_customers_db) (orders six_customers_db))))
  /\ List.length (customer_orders six_customers_db) = 7%nat.
Proof.
  split; [| vm_compute; reflexivity].
  apply (segments_frequency_total six_customers_db).
  vm_compute. reflexivity.
Defined.

Lemma ts_min_In (l : list (option timestamp)) (m : timestamp) :
  ts_min l = Some m -> In (Some m) l.
Proof.
  revert m. induction l as [| x rest IH]; cbn [ts_min fold_right]; [discriminate |].
  intros m H. fold (ts_min rest) in H. destruct x as [a |]; [| right; now apply IH].
  destruct (ts_min rest) as [b |].
  - inversion H; subst. destruct (Z.min_spec a b) as [[_ ->] | [_ ->]].
    + now left.
    + right. now apply IH.
  - inversion H; subst. now left.
Qed.

Lemma ts_min_le_max (l : list (option timestamp)) (a b : timestamp) :
  ts_min l = Some a -> ts_max l = Some b -> a <= b.
Proof.
  intros Ha Hb. apply ts_min_In in Ha.
  destruct (ts_max_ge l a Ha) as [M [HM Hle]]. congruence.
Qed.

(** The date columns of a row of the extract are the first and the last
    purchase date of the group of its customer. *)
Lemma segment_rows_dates (cos : list customer_order) (rs fs ms : list (option Z))
    (row : segment_row) :
  In row (segment_rows cos (rfm_table cos) rs fs ms) ->
  let mine := group String.eqb co_customer_unique_id
                (rfm_customer_unique_id (seg_metrics row)) cos in
  first_purchase_date row = ts_min (map co_order_purchase_timestamp mine)
  /\ last_purchase_date row = ts_max (map co_order_purchase_timestamp mine)
  /\ customer_tenure_days row
     = dt_diff_days (last_purchase_date row) (first_purchase_date row)
  /\ avg_order_value row
     = fdiv_num (monetary (seg_metrics row)) (inject_Z (frequency (seg_metrics row))).
Proof.
  unfold segment_rows, zip3. intros H. apply in_map_iff in H.
  destruct H as [[[[[x r] f] m] pd] [<- H]].
  cbn [seg_metrics first_purchase_date last_purchase_date customer_tenure_days
       avg_order_value].
  assert (Hx : In x (rfm_table cos)).
  { apply merge_left_In_fst in H.
    apply in_combine_l in H. apply in_combine_l in H. now apply in_combine_l in H. }
  assert (Hkey : In (rfm_customer_unique_id x)
                   (group_keys String.eqb String.leb (map co_customer_unique_id cos))).
  { unfold rfm_table, groupby in Hx. apply in_map_iff in Hx.
    destruct Hx as [k [<- Hk]]. exact Hk. }
  destruct pd as [d |].
  - apply merge_left_In_snd in H. destruct H as [_ [Hd Heq]].
    cbn [fst] in Heq. apply String.eqb_eq in Heq.
    unfold purchase_dates, groupby in Hd. apply in_map_iff in Hd.
    destruct Hd as [k [<- _]]. cbn [pd_customer_unique_id] in Heq. subst k.
    cbn [pd_first_purchase_date pd_last_purchase_date]. auto.
  - exfalso. apply merge_left_In_None in H. destruct H as [_ Hno].
    specialize (Hno (mk_pd (rfm_customer_unique_id x)
                       (ts_min (map co_order_purchase_timestamp
                          (group String.eqb co_customer_unique_id
                             (rfm_customer_unique_id x) cos)))
                       (ts_max (map co_order_purchase_timestamp
                          (group String.eqb co_customer_unique_id
                             (rfm_customer_unique_id x) cos))))).
    cbn [fst pd_customer_unique_id] in Hno. rewrite String.eqb_refl in Hno.
    assert (Hc : true = false); [| discriminate].
    apply Hno. unfold purchase_dates, groupby. apply in_map_iff.
    exists (rfm_customer_unique_id x). split; [reflexivity | exact Hkey].
Qed.

(** The frequency of a row of the extract is the size of the group of its
    customer, at least 1. *)
Lemma segment_row_frequency (db : database)
    (rows : list segment_row) (row : segment_row) :
  export_customer_segments db = OK rows ->
  In row rows ->
  frequency (seg_metrics row)
  = Z.of_nat (List.length
      (group String.eqb co_customer_unique_id
         (rfm_customer_unique_id (seg_metrics row)) (customer_orders db)))
  /\ 1 <= frequency (seg_metrics row).
Proof.
  intros Hrun Hin.
  destruct (export_customer_segments_rows db rows Hrun) as [rs [fs [ms [_ [_ [_ ->]]]]]].
  apply segment_rows_metrics in Hin. destruct Hin as [Hx _].
  destruct (rfm_table_rows _ _ Hx) as [Hagg Hne].
  set (mine := group String.eqb co_customer_unique_id
                 (rfm_customer_unique_id (seg_metrics row)) (customer_orders db)) in *.
  assert (Hfreq : frequency (seg_metrics row) = Z.of_nat (List.length mine))
    by (rewrite Hagg at 1; reflexivity).
  split; [exact Hfreq |].
  rewrite Hfreq. destruct mine; [congruence | cbn [List.length]; lia].
Qed.

(** X7. For every customer of the extract the tenure, when present, is the
    whole-day difference between its last and its first delivered purchase
    and is never negative; it is 0 (or missing, without a purchase date) for
    a customer with a single delivered order.  The average order value is
    always a finite number, monetary divided by frequency. *)
Theorem segments_tenure_and_average (db : database) (rows : list segment_row)
    (row : segment_row) :
  export_customer_segments db = OK rows ->
  In row rows ->
  (forall d, customer_tenure_days row = Some d ->
             0 <= d
             /\ exists first last,
                  first_purchase_date row = Some first
                  /\ last_purchase_date row = Some last
                  /\ first <= last /\ d = td_days (last - first))
  /\ (frequency (seg_metrics row) = 1 ->
      customer_tenure_days row = Some 0 \/ customer_tenure_days row = None)
  /\ exists q, avg_order_value row = FNum q
               /\ (q == monetary (seg_metrics row)
                        / inject_Z (frequency (seg_metrics row)))%Q.
Proof.
  intros Hrun Hin.
  pose proof (segment_row_frequency db rows row Hrun Hin) as Hfreq.
  destruct (export_customer_segments_rows db rows Hrun) as [rs [fs [ms [_ [_ [_ ->]]]]]].
  destruct (segment_rows_dates _ _ _ _ _ Hin) as [Hfirst [Hlast [Hten Havg]]].
  set (mine := group String.eqb co_customer_unique_id
                 (rfm_customer_unique_id (seg_metrics row)) (customer_orders db)) in *.
  destruct Hfreq as [Hf1 Hf2]. fold mine in Hf1.
  split; [| split].
  - intros d Hd. rewrite Hten in Hd.
    destruct (last_purchase_date row) as [last |] eqn:El; [| discriminate].
    destruct (first_purchase_date row) as [first |] eqn:Ef; [| discriminate].
    cbn [dt_diff_days opt_map2] in Hd. inversion Hd; subst d.
    assert (Hle : first <= last)
      by (apply (ts_min_le_max (map co_order_purchase_timestamp mine)); congruence).
    split; [unfold td_days, SECONDS_PER_DAY; apply Z.div_pos; lia |].
    exists first, last. auto.
  - intros Hone. rewrite Hten, Hfirst, Hlast.
    rewrite Hf1 in Hone.
    destruct mine as [| a [| b more]]; cbn [List.length] in Hone; try lia.
    cbn [map ts_min ts_max fold_right].
    destruct (co_order_purchase_timestamp a) as [t |]; [left | right; reflexivity].
    cbn [dt_diff_days opt_map2]. f_equal. unfold td_days.
    rewrite Z.sub_diag. reflexivity.
  - rewrite Havg. unfold fdiv_num.
    assert (E : Qeq_bool (inject_Z (frequency (seg_metrics row))) 0 = false).
    { destruct (Qeq_bool _ 0) eqn:E; [| reflexivity].
      apply Qeq_bool_iff in E. change 0%Q with (inject_Z 0) in E.
      apply (proj1 (inject_Z_injective _ _)) in E. lia. }
    rewrite E. eexists. split; reflexivity.
Qed.

Lemma segments_tenure_and_average_witness :
  Forall (fun row =>
    (forall d, customer_tenure_days row = Some d ->
               0 <= d
               /\ exists first last,
                    first_purchase_date row = Some first
                    /\ last_purchase_date row = Some last
                    /\ first <= last /\ d = td_days (last - first))
    /\ (frequency (seg_metrics row) = 1 ->
        customer_tenure_days row = Some 0 \/ customer_tenure_days row = None)
    /\ exists q, avg_order_value row = FNum q
                 /\ (q == monetary (seg_metrics row)
                          / inject_Z (frequency (seg_metrics row)))%Q)
    (rows_of (export_customer_segments six_customers_db))
  /\ map customer_tenure_days (rows_of (export_customer_segments six_customers_db))
     = [Some 5; Some 0; Some 0; Some 0; Some 0; None].
Proof.
  split; [| vm_compute; reflexivity].
  apply Forall_forall. intros row Hin.
  apply (segments_tenure_and_average six_customers_db
           (rows_of (export_customer_segments six_customers_db)));
    [vm_compute; reflexivity | exact Hin].
Defined.

(** ** Quantile cuts: every present value is labelled *)

Lemma insert_Q_perm (x : Q) (l : list Q) : Permutation (x :: l) (insert_Q x l).
Proof.
  induction l as [| h t IH]; cbn [insert_Q]; [apply Permutation_refl |].
  destruct (Qle_bool x h); [apply Permutation_refl |].
  eapply perm_trans; [apply perm_swap | now apply perm_skip].
Qed.

Lemma sort_Q_perm (l : list Q) : Permutation l (sort_Q l).
Proof.
  induction l as [| h t IH]; cbn [sort_Q fold_right]; [apply Permutation_refl |].
  eapply perm_trans; [| apply insert_Q_perm]. now apply perm_skip.
Qed.

Lemma insert_Q_sorted (x : Q) (l : list Q) :
  StronglySorted Qle l -> StronglySorted Qle (insert_Q x l).
Proof.
  induction l as [| h t IH]; cbn [insert_Q]; intros Hs.
  - repeat constructor.
  - inversion Hs as [| ? ? Ht Hall]; subst.
    destruct (Qle_bool x h) eqn:E.
    + apply Qle_bool_iff in E. constructor; [assumption |].
      constructor; [assumption |].
      eapply Forall_impl; [| exact Hall]. intros a Ha. cbv beta in Ha.
      now apply (Qle_trans _ h).
    + assert (Hlt : (h < x)%Q).
      { apply Qnot_le_lt. intros Hc. apply Qle_bool_iff in Hc. congruence. }
      constructor; [now apply IH |].
      apply (Permutation_Forall (insert_Q_perm x t)).
      constructor; [now apply Qlt_le_weak | assumption].
Qed.

Lemma sort_Q_sorted (l : list Q) : StronglySorted Qle (sort_Q l).
Proof.
  induction l as [| h t IH]; cbn [sort_Q fold_right]; [constructor |].
  now apply insert_Q_sorted.
Qed.

(** In an ascending list the first cell is the least and the last the
    greatest. *)
Lemma sorted_first_least (l : list Q) (d v : Q) :
  StronglySorted Qle l -> In v l -> (nth 0 l d <= v)%Q.
Proof.
  intros Hs Hin. destruct l as [| h t]; [contradiction |]. cbn [nth].
  inversion Hs as [| ? ? _ Hall]; subst. destruct Hin as [<- | Hin].
  - apply Qle_refl.
  - rewrite Forall_forall in Hall. now apply Hall.
Qed.

Lemma sorted_last_greatest (l : list Q) (d v : Q) :
  StronglySorted Qle l -> In v l -> (v <= nth (List.length l - 1) l d)%Q.
Proof.
  revert v. induction l as [| h t IH]; intros v Hs Hin; [contradiction |].
  inversion Hs as [| ? ? Ht Hall]; subst.
  destruct t as [| h' t'].
  - destruct Hin as [<- | []]. cbn. apply Qle_refl.
  - replace (nth (List.length (h :: h' :: t') - 1) (h :: h' :: t') d)
      with (nth (List.length (h' :: t') - 1) (h' :: t') d)
      by (cbn [List.length Nat.sub]; rewrite ?Nat.sub_0_r; reflexivity).
    destruct Hin as [<- | Hin].
    + apply (Qle_trans _ h').
      * rewrite Forall_forall in Hall. apply Hall. now left.
      * apply IH; [assumption | now left].
    + now apply IH.
Qed.

(** The lowest and the highest edge are the least and the greatest value. *)
Lemma interpolate_first (sorted : list Q) (d : Q) (q : nat) :
  (interpolate sorted d q 0 == nth 0 sorted d)%Q.
Proof.
  unfold interpolate. rewrite Nat.mul_0_r.
  destruct q as [| q].
  - cbn [Nat.div Nat.modulo]. change (inject_Z (Z.of_nat 0)) with 0%Q.
    unfold Qdiv. ring.
  - rewrite Nat.Div0.div_0_l, Nat.Div0.mod_0_l.
    change (inject_Z (Z.of_nat 0)) with 0%Q. unfold Qdiv. ring.
Qed.

Lemma interpolate_last (sorted : list Q) (d : Q) (q : nat) :
  q <> 0%nat ->
  (interpolate sorted d q q == nth (List.length sorted - 1) sorted d)%Q.
Proof.
  intros Hq. unfold interpolate.
  rewrite Nat.div_mul, Nat.Div0.mod_mul by assumption.
  change (inject_Z (Z.of_nat 0)) with 0%Q. unfold Qdiv. ring.
Qed.

Lemma dropna_In {A} (l : list (option A)) (v : A) :
  In v (dropna l) <-> In (Some v) l.
Proof.
  induction l as [| [a |] t IH]; cbn [dropna In]; [tauto | |].
  - rewrite IH. split; intros [H | H]; auto; left; congruence.
  - rewrite IH. split; [auto | intros [H | H]; [discriminate | assumption]].
Qed.

(** Removing duplicates keeps the first cell and, for every cell, a cell
    equal to it. *)
Lemma unique_hd {K} (eqb : K -> K -> bool) (l : list K) (d : K) :
  hd d (unique eqb l) = hd d l.
Proof. destruct l as [| a t]; reflexivity. Qed.

Lemma drop_duplicates_from_covers {K} (eqb : K -> K -> bool)
    (eqb_refl : forall a, eqb a a = true) (l : list K) :
  forall seen a,
    In a l ->
    existsb (eqb a) seen = true
    \/ exists b, In b (drop_duplicates_from eqb (fun k => k) seen l)
                 /\ eqb a b = true.
Proof.
  induction l as [| h t IH]; intros seen a Hin; [contradiction |].
  cbn [drop_duplicates_from].
  destruct (existsb (eqb h) seen) eqn:E.
  - destruct Hin as [<- | Hin]; [now left | now apply IH].
  - destruct Hin as [<- | Hin].
    + right. exists h. split; [now left | apply eqb_refl].
    + destruct (IH (h :: seen) a Hin) as [Hs | [b [Hb Hab]]].
      * cbn [existsb] in Hs. apply orb_true_iff in Hs.
        destruct Hs as [Hs | Hs]; [| now left].
        right. exists h. split; [now left | assumption].
      * right. exists b. split; [now right | assumption].
Qed.

Lemma unique_covers {K} (eqb : K -> K -> bool)
    (eqb_refl : forall a, eqb a a = true) (l : list K) (a : K) :
  In a l -> exists b, In b (unique eqb l) /\ eqb a b = true.
Proof.
  intros Hin.
  destruct (drop_duplicates_from_covers eqb eqb_refl l [] a Hin) as [H | H];
    [discriminate | exact H].
Qed.

Lemma edge_eqb_refl (a : option Q) : edge_eqb a a = true.
Proof. destruct a as [q |]; [apply Qeq_bool_iff, Qeq_refl | reflexivity]. Qed.

Lemma filter_length_lt {A} (f : A -> bool) (l : list A) (a : A) :
  In a l -> f a = false -> (List.length (filter f l) < List.length l)%nat.
Proof.
  intros Hin Hf. induction l as [| h t IH]; [contradiction |].
  cbn [filter List.length]. pose proof (filter_length_le f t) as Hle.
  destruct Hin as [-> | Hin].
  - rewrite Hf. lia.
  - specialize (IH Hin). destruct (f h); cbn [List.length]; lia.
Qed.

(** The bins of a successful cut: one more edge than labels, the first edge
    at most every present value, and some edge at least every present
    value. *)
Lemma qcut_bins (x : list (option Q)) (q : nat) (labels : list Z)
    (drop : bool) (l : list (option Z)) :
  q <> 0%nat ->
  qcut x q labels drop = OK l ->
  exists bins,
    l = map (cut_cell bins labels) x
    /\ List.length labels = (List.length bins - 1)%nat
    /\ forall v, In (Some v) x ->
         exists e0 emax,
           hd None bins = Some e0 /\ (e0 <= v)%Q
           /\ In (Some emax) bins /\ (v <= emax)%Q.
Proof.
  intros Hq. unfold qcut, bind.
  set (vals := sort_Q (dropna x)).
  set (edges := map (quantile vals q) (seq 0 (S q))).
  assert (Hedges : forall v, In (Some v) x ->
            exists e0 emax,
              hd None edges = Some e0 /\ (e0 <= v)%Q
              /\ In (Some emax) edges /\ (v <= emax)%Q).
  { intros v Hv. apply dropna_In in Hv.
    apply (Permutation_in _ (sort_Q_perm (dropna x))) in Hv. fold vals in Hv.
    pose proof (sort_Q_sorted (dropna x)) as Hs. fold vals in Hs.
    destruct vals as [| first rest] eqn:Ev; [contradiction |].
    exists (interpolate (first :: rest) first q 0),
           (interpolate (first :: rest) first q q).
    split; [reflexivity |]. split.
    - rewrite interpolate_first. now apply sorted_first_least.
    - split.
      + unfold edges. apply in_map_iff. exists q. split; [reflexivity |].
        apply in_seq. lia.
      + rewrite interpolate_last by assumption. now apply sorted_last_greatest. }
  intros H.
  destruct (_ && _).
  - destruct drop; [| discriminate].
    destruct (negb _) eqn:El; [discriminate |]. inversion H; subst l.
    apply negb_false_iff, Nat.eqb_eq in El.
    exists (unique edge_eqb edges). split; [reflexivity |]. split; [exact El |].
    intros v Hv. destruct (Hedges v Hv) as [e0 [emax [H0 [Hle0 [Hin Hmax]]]]].
    destruct (unique_covers edge_eqb edge_eqb_refl edges (Some emax) Hin)
      as [b [Hb Heq]].
    destruct b as [e' |]; [| discriminate]. cbn [edge_eqb] in Heq.
    apply Qeq_bool_iff in Heq.
    exists e0, e'. rewrite unique_hd.
    split; [assumption |]. split; [assumption |]. split; [assumption |].
    apply (Qle_trans _ emax); [assumption |]. rewrite Heq. apply Qle_refl.
  - destruct (negb _) eqn:El; [discriminate |]. inversion H; subst l.
    apply negb_false_iff, Nat.eqb_eq in El.
    exists edges. auto.
Qed.

(** A present value within the edges has a bin and a label. *)
Lemma cut_cell_defined (bins : list (option Q)) (labels : list Z) (v e0 emax : Q) :
  labels <> [] ->
  List.length labels = (List.length bins - 1)%nat ->
  hd None bins = Some e0 -> (e0 <= v)%Q ->
  In (Some emax) bins -> (v <= emax)%Q ->
  exists z, cut_cell bins labels (Some v) = Some z /\ In z labels.
Proof.
  intros Hne Hlen Hhd Hlo Hin Hhi.
  assert (Hlab : (1 <= List.length labels)%nat)
    by (destruct labels; [congruence | cbn [List.length]; lia]).
  unfold cut_cell. rewrite Hhd. cbn [edge_eqb].
  assert (Hsome : forall i, (1 <= i)%nat -> (i < List.length bins)%nat ->
            exists z, (if (i =? List.length bins)%nat || (i =? 0)%nat
                       then None else nth_error labels (i - 1)) = Some z
                      /\ In z labels).
  { intros i H1 H2.
    replace (i =? List.length bins)%nat with false
      by (symmetry; apply Nat.eqb_neq; lia).
    replace (i =? 0)%nat with false by (symmetry; apply Nat.eqb_neq; lia).
    cbn [orb].
    destruct (nth_error labels (i - 1)) as [z |] eqn:E.
    - exists z. split; [reflexivity | now apply nth_error_In in E].
    - apply nth_error_None in E. lia. }
  destruct (Qeq_bool v e0) eqn:E0.
  - apply Hsome; lia.
  - apply Hsome.
    + destruct bins as [| b rest]; [discriminate |]. cbn [hd] in Hhd. subst b.
      unfold searchsorted_left. cbn [filter edge_ltb].
      assert (Hlt : Qle_bool v e0 = false).
      { destruct (Qle_bool v e0) eqn:E; [| reflexivity].
        apply Qle_bool_iff in E.
        assert (Heq : (v == e0)%Q) by (now apply Qle_antisym).
        apply Qeq_bool_iff in Heq. congruence. }
      rewrite Hlt. cbn [negb List.length]. lia.
    + unfold searchsorted_left. apply (filter_length_lt _ _ (Some emax)); [assumption |].
      cbn [edge_ltb]. apply negb_false_iff, Qle_bool_iff. assumption.
Qed.

Lemma zip3_In_maps {A} (g1 g3 : A -> option Z) (l : list A) :
  forall (fs : list (option Z)) x r f m,
    In (x, r, f, m) (zip3 l (map g1 l) fs (map g3 l)) ->
    In x l /\ r = g1 x /\ m = g3 x.
Proof.
  unfold zip3. induction l as [| a t IH]; intros fs x r f m Hin;
    [contradiction |].
  destruct fs as [| f0 fs']; [contradiction |].
  cbn [map combine] in Hin. destruct Hin as [Heq | Hin].
  - inversion Heq; subst. split; [now left | split; reflexivity].
  - destruct (IH fs' x r f m Hin) as [H1 [H2 H3]].
    split; [now right | split; assumption].
Qed.

(** The recency and the monetary score of a row of the extract are the cuts
    of its own recency and monetary value. *)
Lemma segment_rows_cells (cos : list customer_order) (rfm : list rfm_metrics)
    (fs : list (option Z)) (g1 g3 : rfm_metrics -> option Z) (row : segment_row) :
  In row (segment_rows cos rfm (map g1 rfm) fs (map g3 rfm)) ->
  r_score row = g1 (seg_metrics row) /\ m_score row = g3 (seg_metrics row).
Proof.
  unfold segment_rows. intros H. apply in_map_iff in H.
  destruct H as [[[[[x r] f] m] pd] [<- H]]. cbn [r_score m_score seg_metrics].
  apply merge_left_In_fst in H. apply zip3_In_maps in H. tauto.
Qed.

Lemma labels_1_5 (z : Z) :
  In z [1; 2; 3; 4; 5] \/ In z [5; 4; 3; 2; 1] -> 1 <= z <= 5.
Proof. cbn [In]. intros H. intuition lia. Qed.

(** X8. When the segmentation pass completes, no score is missing for a
    value that is present: every customer has a frequency score and a
    monetary score from 1 to 5, and the recency score is missing exactly
    for a customer whose recency is (a customer without purchase date). *)
Theorem segments_scores_defined (db : database) (rows : list segment_row)
    (row : segment_row) :
  export_customer_segments db = OK rows ->
  In row rows ->
  (r_score row = None <-> recency (seg_metrics row) = None)
  /\ (forall z, r_score row = Some z -> 1 <= z <= 5)
  /\ (exists z, f_score row = Some z /\ 1 <= z <= 5)
  /\ (exists z, m_score row = Some z /\ 1 <= z <= 5).
Proof.
  intros Hrun Hin.
  destruct (export_customer_segments_rows db rows Hrun)
    as [rs [fs [ms [Hr [Hf [Hm ->]]]]]].
  set (rfm := rfm_table (customer_orders db)) in *.
  pose proof (segment_rows_metrics _ _ _ _ _ _ Hin) as [Hx [_ [Hif _]]].
  unfold r_scores in Hr. unfold f_scores in Hf. unfold m_scores in Hm.
  destruct (qcut_bins _ _ _ _ _ (Nat.neq_succ_0 4) Hr) as [bR [ER [LR BR]]].
  destruct (qcut_bins _ _ _ _ _ (Nat.neq_succ_0 4) Hf) as [bF [EF [LF BF]]].
  destruct (qcut_bins _ _ _ _ _ (Nat.neq_succ_0 4) Hm) as [bM [EM [LM BM]]].
  rewrite map_map in ER, EM. subst rs ms.
  destruct (segment_rows_cells _ _ _ _ _ _ Hin) as [Er Em].
  set (x := seg_metrics row) in *.
  assert (HR : forall d, recency x = Some d ->
             exists z, r_score row = Some z /\ 1 <= z <= 5).
  { intros d Hd. rewrite Er, Hd. cbn [option_map].
    destruct (BR (inject_Z d)) as [e0 [emax [H0 [Hlo [Hmax Hhi]]]]].
    { apply in_map_iff. exists x. rewrite Hd. auto. }
    destruct (cut_cell_defined bR [5; 4; 3; 2; 1] (inject_Z d) e0 emax)
      as [z [Hz Hl]]; try assumption; [discriminate |].
    exists z. split; [exact Hz | apply labels_1_5; now right]. }
  split; [| split; [| split]].
  - split.
    + intros Hnone. destruct (recency x) as [d |] eqn:Ed; [| reflexivity].
      destruct (HR d eq_refl) as [z [Hz _]]. congruence.
    + intros Hnone. rewrite Er, Hnone. reflexivity.
  - intros z Hz.
    destruct (recency x) as [d |] eqn:Ed.
    + destruct (HR d eq_refl) as [z' [Hz' Hb]].
      assert (z = z') by congruence. now subst.
    + rewrite Er in Hz. discriminate.
  - subst fs. apply in_map_iff in Hif. destruct Hif as [c [Hc Hcin]].
    apply in_map_iff in Hcin. destruct Hcin as [k [<- Hk]].
    destruct (BF (inject_Z k)) as [e0 [emax [H0 [Hlo [Hmax Hhi]]]]].
    { apply in_map_iff. exists k. auto. }
    destruct (cut_cell_defined bF [1; 2; 3; 4; 5] (inject_Z k) e0 emax)
      as [z [Hz Hl]]; try assumption; [discriminate |].
    exists z. split; [congruence | apply labels_1_5; now left].
  - rewrite Em.
    destruct (BM (monetary x)) as [e0 [emax [H0 [Hlo [Hmax Hhi]]]]].
    { apply in_map_iff. exists x. auto. }
    destruct (cut_cell_defined bM [1; 2; 3; 4; 5] (monetary x) e0 emax)
      as [z [Hz Hl]]; try assumption; [discriminate |].
    exists z. split; [exact Hz | apply labels_1_5; now left].
Qed.

Lemma segments_scores_defined_witness :
  Forall (fun row =>
    (r_score row = None <-> recency (seg_metrics row) = None)
    /\ (forall z, r_score row = Some z -> 1 <= z <= 5)
    /\ (exists z, f_score row = Some z /\ 1 <= z <= 5)
    /\ (exists z, m_score row = Some z /\ 1 <= z <= 5))
    (rows_of (export_customer_segments six_customers_db))
  /\ List.length (rows_of (export_customer_segments six_customers_db)) = 6%nat.
Proof.
  split; [| vm_compute; reflexivity].
  apply Forall_forall. intros row Hin.
  apply (segments_scores_defined six_customers_db
           (rows_of (export_customer_segments six_customers_db)));
    [vm_compute; reflexivity | exact Hin].
Defined.

(** ** Quantile cuts: the labels follow the order of the values *)

Lemma filter_length_mono {A} (f g : A -> bool) (l : list A) :
  (forall a, f a = true -> g a = true) ->
  (List.length (filter f l) <= List.length (filter g l))%nat.
Proof.
  intros Himp. induction l as [| a t IH]; cbn [filter]; [lia |].
  destruct (f a) eqn:Ea.
  - rewrite (Himp a Ea). cbn [List.length]. lia.
  - destruct (g a); cbn [List.length]; lia.
Qed.

Lemma nth_labels_ascending (i : nat) (z : Z) :
  i <> 0%nat -> nth_error [1; 2; 3; 4; 5] (i - 1) = Some z -> z = Z.of_nat i.
Proof.
  intros Hi H.
  do 6 (destruct i as [| i];
        [cbn in H; first [congruence | inversion H; subst; reflexivity] |]).
  cbn in H. destruct i; discriminate.
Qed.

Lemma nth_labels_descending (i : nat) (z : Z) :
  i <> 0%nat -> nth_error [5; 4; 3; 2; 1] (i - 1) = Some z -> z = 6 - Z.of_nat i.
Proof.
  intros Hi H.
  do 6 (destruct i as [| i];
        [cbn in H; first [congruence | inversion H; subst; reflexivity] |]).
  cbn in H. destruct i; discriminate.
Qed.

(** The bin index of a cell, as [cut_cell] computes it, grows with the
    value. *)
Lemma bin_index_mono (bins : list (option Q)) (e0 v w : Q) :
  hd None bins = Some e0 -> (e0 <= v)%Q -> (v <= w)%Q ->
  ((if Qeq_bool v e0 then 1 else searchsorted_left bins v)
   <= (if Qeq_bool w e0 then 1 else searchsorted_left bins w))%nat.
Proof.
  intros Hhd Hlo Hvw.
  destruct bins as [| b rest]; [discriminate |]. cbn [hd] in Hhd. subst b.
  assert (Hhead : forall u, (e0 <= u)%Q -> Qeq_bool u e0 = false ->
            (1 <= searchsorted_left (Some e0 :: rest) u)%nat).
  { intros u Hu Hne. unfold searchsorted_left. cbn [filter edge_ltb].
    assert (Hlt : Qle_bool u e0 = false).
    { destruct (Qle_bool u e0) eqn:E; [| reflexivity].
      apply Qle_bool_iff in E.
      assert (Heq : (u == e0)%Q) by (now apply Qle_antisym).
      apply Qeq_bool_iff in Heq. congruence. }
    rewrite Hlt. cbn [negb List.length]. lia. }
  destruct (Qeq_bool v e0) eqn:Ev.
  - destruct (Qeq_bool w e0) eqn:Ew; [lia |].
    apply Hhead; [now apply (Qle_trans _ v) | assumption].
  - assert (Ew : Qeq_bool w e0 = false).
    { destruct (Qeq_bool w e0) eqn:E; [| reflexivity].
      apply Qeq_bool_iff in E.
      assert (Heq : (v == e0)%Q).
      { apply Qle_antisym; [| assumption]. rewrite <- E. assumption. }
      apply Qeq_bool_iff in Heq. congruence. }
    rewrite Ew. unfold searchsorted_left. apply filter_length_mono.
    intros [e |] He; cbn [edge_ltb] in *; [| discriminate].
    apply negb_true_iff in He. apply negb_true_iff.
    destruct (Qle_bool w e) eqn:E; [| reflexivity].
    apply Qle_bool_iff in E.
    assert (Hc : Qle_bool v e = true)
      by (apply Qle_bool_iff; now apply (Qle_trans _ w)).
    congruence.
Qed.

Lemma cut_cell_index (bins : list (option Q)) (labels : list Z) (e0 v : Q) (z : Z) :
  hd None bins = Some e0 ->
  cut_cell bins labels (Some v) = Some z ->
  (if Qeq_bool v e0 then 1 else searchsorted_left bins v)%nat <> 0%nat
  /\ nth_error labels
       ((if Qeq_bool v e0 then 1 else searchsorted_left bins v) - 1) = Some z.
Proof.
  intros Hhd H. unfold cut_cell in H. rewrite Hhd in H. cbn [edge_eqb] in H.
  set (i := if Qeq_bool v e0 then 1%nat else searchsorted_left bins v) in *.
  destruct (i =? List.length bins)%nat; [discriminate |].
  destruct (i =? 0)%nat eqn:E0; [discriminate |].
  apply Nat.eqb_neq in E0. cbn [orb] in H. auto.
Qed.

(** X9. When the segmentation pass completes, the scores follow the order of
    the values: of two customers the one with the smaller recency never has
    the lower recency score, and the one with the smaller monetary value
    never has the higher monetary score. *)
Theorem segments_scores_monotone (db : database) (rows : list segment_row)
    (a b : segment_row) :
  export_customer_segments db = OK rows ->
  In a rows -> In b rows ->
  (forall da db' za zb,
      recency (seg_metrics a) = Some da -> recency (seg_metrics b) = Some db' ->
      da <= db' ->
      r_score a = Some za -> r_score b = Some zb -> zb <= za)
  /\ (forall za zb,
        (monetary (seg_metrics a) <= monetary (seg_metrics b))%Q ->
        m_score a = Some za -> m_score b = Some zb -> za <= zb).
Proof.
  intros Hrun Ha Hb.
  destruct (export_customer_segments_rows db rows Hrun)
    as [rs [fs [ms [Hr [Hf [Hm ->]]]]]].
  set (rfm := rfm_table (customer_orders db)) in *.
  pose proof (segment_rows_metrics _ _ _ _ _ _ Ha) as [Hxa _].
  pose proof (segment_rows_metrics _ _ _ _ _ _ Hb) as [Hxb _].
  unfold r_scores in Hr. unfold m_scores in Hm.
  destruct (qcut_bins _ _ _ _ _ (Nat.neq_succ_0 4) Hr) as [bR [ER [LR BR]]].
  destruct (qcut_bins _ _ _ _ _ (Nat.neq_succ_0 4) Hm) as [bM [EM [LM BM]]].
  rewrite map_map in ER, EM. subst rs ms.
  destruct (segment_rows_cells _ _ _ _ _ _ Ha) as [Era Ema].
  destruct (segment_rows_cells _ _ _ _ _ _ Hb) as [Erb Emb].
  split.
  - intros da db' za zb Hda Hdb Hle Hza Hzb.
    rewrite Era, Hda in Hza. rewrite Erb, Hdb in Hzb. cbn [option_map] in Hza, Hzb.
    destruct (BR (inject_Z da)) as [e0 [_ [H0 [Hlo _]]]].
    { apply in_map_iff. exists (seg_metrics a). rewrite Hda. auto. }
    destruct (cut_cell_index _ _ e0 _ _ H0 Hza) as [Na La].
    destruct (cut_cell_index _ _ e0 _ _ H0 Hzb) as [Nb Lb].
    apply nth_labels_descending in La; [| assumption].
    apply nth_labels_descending in Lb; [| assumption].
    pose proof (bin_index_mono bR e0 (inject_Z da) (inject_Z db') H0 Hlo
                  ltac:(rewrite <- Zle_Qle; exact Hle)) as Hmono.
    lia.
  - intros za zb Hle Hza Hzb.
    rewrite Ema in Hza. rewrite Emb in Hzb.
    destruct (BM (monetary (seg_metrics a))) as [e0 [_ [H0 [Hlo _]]]].
    { apply in_map_iff. exists (seg_metrics a). auto. }
    destruct (cut_cell_index _ _ e0 _ _ H0 Hza) as [Na La].
    destruct (cut_cell_index _ _ e0 _ _ H0 Hzb) as [Nb Lb].
    apply nth_labels_ascending in La; [| assumption].
    apply nth_labels_ascending in Lb; [| assumption].
    pose proof (bin_index_mono bM e0 _ _ H0 Hlo Hle) as Hmono.
    lia.
Qed.

Lemma segments_scores_monotone_witness :
  Forall (fun a =>
    Forall (fun b =>
      (forall da db' za zb,
          recency (seg_metrics a) = Some da -> recency (seg_metrics b) = Some db' ->
          da <= db' ->
          r_score a = Some za -> r_score b = Some zb -> zb <= za)
      /\ (forall za zb,
            (monetary (seg_metrics a) <= monetary (seg_metrics b))%Q ->
            m_score a = Some za -> m_score b = Some zb -> za <= zb))
      (rows_of (export_customer_segments six_customers_db)))
    (rows_of (export_customer_segments six_customers_db))
  /\ map (fun row => (recency (seg_metrics row), r_score row))
       (rows_of (export_customer_segments six_customers_db))
     = [(Some 1, Some 5); (Some 5, Some 1); (Some 4, Some 2);
        (Some 3, Some 3); (Some 2, Some 4); (None, None)].
Proof.
  split; [| vm_compute; reflexivity].
  apply Forall_forall. intros a Ha. apply Forall_forall. intros b Hb.
  apply (segments_scores_monotone six_customers_db
           (rows_of (export_customer_segments six_customers_db)));
    [vm_compute; reflexivity | exact Ha | exact Hb].
Defined.

(** ** Monthly metrics: grain and counts *)

(** Every left row appears in a left join. *)
Lemma merge_left_complete {L R} (on : L -> R -> bool) (left : list L)
    (right : list R) (x : L) :
  In x left -> exists y, In (x, y) (merge_left on left right).
Proof.
  intros Hx. unfold merge_left.
  destruct (filter (on x) right) as [| y more] eqn:E.
  - exists None. apply in_flat_map. exists x. split; [assumption |].
    rewrite E. now left.
  - exists (Some y). apply in_flat_map. exists x. split; [assumption |].
    rewrite E. now left.
Qed.

(** The rows of [delivered]: the delivered orders joined with their
    customers. *)
Lemma delivered_rows (db : database) (cu : string) (month : option Z) :
  (exists r, In r (delivered db)
             /\ dr_customer_unique_id r = cu /\ dr_order_month r = month)
  <-> exists o c,
        In o (orders db) /\ In c (customers db)
        /\ customer_id o = Some (c_customer_id c)
        /\ is_delivered o = true
        /\ customer_unique_id c = cu
        /\ option_map to_period_M (order_purchase_timestamp o) = month.
Proof.
  unfold delivered.
  set (J := inner_join _ (orders db) (customers db)).
  set (P := merge_left _ J (payments_per_order db)).
  set (W := merge_left _ P (mm_reviews db)).
  assert (HJ : forall o c, In (o, c) J <->
             In o (orders db) /\ In c (customers db)
             /\ customer_id o = Some (c_customer_id c)).
  { intros o c. unfold J, inner_join. rewrite in_flat_map. split.
    - intros [o' [Ho Hin]]. apply in_map_iff in Hin.
      destruct Hin as [c' [Heq Hc]]. inversion Heq; subst.
      apply filter_In in Hc. destruct Hc as [Hc Hk].
      unfold sql_eq in Hk. destruct (customer_id o) as [k |]; [| discriminate].
      apply String.eqb_eq in Hk. subst k. auto.
    - intros [Ho [Hc Hk]]. exists o. split; [assumption |]. apply in_map.
      apply filter_In. split; [assumption |].
      unfold sql_eq. rewrite Hk. apply String.eqb_refl. }
  assert (HW : forall o c, In (o, c) J <-> exists p r, In (o, c, p, r) W).
  { intros o c. split.
    - intros Hj.
      destruct (merge_left_complete
                  (fun (oc : order * customer) (p : string * Q) =>
                     String.eqb (order_id (fst oc)) (fst p))
                  J (payments_per_order db) (o, c) Hj) as [p Hp].
      fold P in Hp.
      destruct (merge_left_complete
                  (fun (ocp : order * customer * option (string * Q)) r =>
                     String.eqb (order_id (fst (fst ocp))) (rv_order_id r))
                  P (mm_reviews db) (o, c, p) Hp) as [r Hr].
      exists p, r. exact Hr.
    - intros [p [r Hw]]. apply merge_left_In_fst in Hw.
      now apply merge_left_In_fst in Hw. }
  split.
  - intros [r [Hin [Hcu Hm]]]. apply in_map_iff in Hin.
    destruct Hin as [[[[o c] p] rv] [<- Hin]]. apply filter_In in Hin.
    destruct Hin as [Hin Hd]. cbn in Hcu, Hm.
    assert (Hj : In (o, c) J) by (apply HW; eauto).
    apply HJ in Hj. exists o, c. tauto.
  - intros [o [c [Ho [Hc [Hk [Hd [Hcu Hm]]]]]]].
    assert (Hj : In (o, c) J) by (apply HJ; auto).
    apply HW in Hj. destruct Hj as [p [rv Hw]].
    eexists. split; [apply in_map_iff; exists (o, c, p, rv); split;
                     [reflexivity | apply filter_In; split; [exact Hw | exact Hd]] |].
    cbn. auto.
Qed.

Lemma z_eqb_spec (a b : Z) : (a =? b) = true <-> a = b.
Proof. apply Z.eqb_eq. Qed.

Lemma month_keys_NoDup (rows : list delivered_row) : NoDup (month_keys rows).
Proof. apply group_keys_NoDup, z_eqb_spec. Qed.

Lemma month_keys_In (rows : list delivered_row) (k : Z) :
  In k (month_keys rows) <-> exists r, In r rows /\ dr_order_month r = Some k.
Proof.
  unfold month_keys. rewrite (group_keys_In Z.eqb z_eqb_spec), dropna_In, in_map_iff.
  split; intros [r [H1 H2]]; exists r; auto.
Qed.

Lemma new_customers_df_keys (rows : list delivered_row) :
  NoDup (map fst (new_customers_df rows)).
Proof.
  unfold new_customers_df. rewrite map_map. cbn [fst]. rewrite map_id.
  apply month_keys_NoDup.
Qed.

Lemma export_monthly_metrics_months (db : database) :
  map order_month (export_monthly_metrics db) = month_keys (delivered db).
Proof.
  unfold export_monthly_metrics.
  set (monthly := map _ (month_keys (delivered db))).
  set (M := merge_left _ monthly (new_customers_df (delivered db))).
  assert (HM : map fst M = monthly).
  { apply merge_left_fst. intros x _.
    apply (filter_key_at_most_one fst _ (fst x));
      [apply new_customers_df_keys |].
    intros n Hn. symmetry. now apply Z.eqb_eq. }
  transitivity (map fst (map fst M)).
  - rewrite !map_map. apply map_ext. intros [[k g] nc]. reflexivity.
  - rewrite HM. unfold monthly. rewrite map_map. cbn [fst]. apply map_id.
Qed.

(** X10. The monthly extract holds exactly one row per calendar month in
    which a delivered order of a known customer was purchased: no month is
    repeated, and a month is present exactly when such an order exists.
    Delivered orders without purchase timestamp belong to no month. *)
Theorem monthly_one_row_per_month (db : database) :
  NoDup (map order_month (export_monthly_metrics db))
  /\ forall k,
       In k (map order_month (export_monthly_metrics db))
       <-> exists o c t,
             In o (orders db) /\ In c (customers db)
             /\ customer_id o = Some (c_customer_id c)
             /\ is_delivered o = true
             /\ order_purchase_timestamp o = Some t
             /\ to_period_M t = k.
Proof.
  rewrite export_monthly_metrics_months. split; [apply month_keys_NoDup |].
  intros k. rewrite month_keys_In. split.
  - intros [r [Hin Hm]].
    destruct (proj1 (delivered_rows db (dr_customer_unique_id r) (Some k)))
      as [o [c [Ho [Hc [Hk [Hd [_ Hmonth]]]]]]]; [eauto |].
    destruct (order_purchase_timestamp o) as [t |] eqn:Et; [| discriminate].
    cbn [option_map] in Hmonth. inversion Hmonth.
    exists o, c, t. auto 10.
  - intros [o [c [t [Ho [Hc [Hk [Hd [Ht Hm]]]]]]]].
    destruct (proj2 (delivered_rows db (customer_unique_id c) (Some k)))
      as [r [Hin [_ Hr]]]; [| eauto].
    exists o, c. rewrite Ht. cbn [option_map]. rewrite Hm. auto 10.
Qed.

Lemma drop_duplicates_from_length {K R} (eqb : K -> K -> bool) (key : R -> K)
    (rows : list R) :
  forall seen,
    (List.length (drop_duplicates_from eqb key seen rows) <= List.length rows)%nat.
Proof.
  induction rows as [| a t IH]; intros seen; cbn [drop_duplicates_from List.length];
    [lia |].
  destruct (existsb (eqb (key a)) seen).
  - specialize (IH seen). lia.
  - cbn [List.length]. specialize (IH (key a :: seen)). lia.
Qed.

Lemma nunique_bounds (l : list string) :
  l <> [] -> 1 <= nunique l <= Z.of_nat (List.length l).
Proof.
  intros Hne. unfold nunique, unique, drop_duplicates.
  pose proof (drop_duplicates_from_length String.eqb (fun k : string => k) l [])
    as Hle.
  destruct l as [| a t]; [congruence |].
  cbn [drop_duplicates_from existsb] in *. cbn [List.length] in *. lia.
Qed.

Lemma month_group_nonempty (rows : list delivered_row) (k : Z) :
  In k (month_keys rows) -> month_group k rows <> [].
Proof.
  intros Hk. apply month_keys_In in Hk. destruct Hk as [r [Hin Hm]].
  intros Hempty.
  assert (Hg : In r (month_group k rows)).
  { unfold month_group. apply filter_In. split; [assumption |].
    rewrite Hm. cbn [opt_eqb]. apply Z.eqb_refl. }
  rewrite Hempty in Hg. contradiction.
Qed.

(** X11. Every month row counts the delivered orders of its month and their
    distinct customers, at least one and at most one per order.  The
    new-customer count is never 0: it is at least 1 and at most the distinct
    count, with the returning count their difference, or both counts are
    missing (a month in which nobody bought for the first time). *)
Theorem monthly_counts (db : database) (row : monthly_row) :
  In row (export_monthly_metrics db) ->
  let g := month_group (order_month row) (delivered db) in
  total_orders row = Z.of_nat (List.length g)
  /\ unique_customers row = nunique (map dr_customer_unique_id g)
  /\ 1 <= unique_customers row <= total_orders row
  /\ match new_customers row with
     | Some n =>
         1 <= n <= unique_customers row
         /\ returning_customers row = Some (unique_customers row - n)
     | None => returning_customers row = None
     end.
Proof.
  intros Hin. pose proof (monthly_new_returning db row Hin) as Hnr.
  unfold export_monthly_metrics in Hin. apply in_map_iff in Hin.
  destruct Hin as [[[k g] nc] [<- H]].
  cbn [order_month total_orders unique_customers new_customers
       returning_customers] in *.
  assert (Hg : In (k, g) (map (fun k => (k, month_group k (delivered db)))
                             (month_keys (delivered db)))).
  { destruct nc; [apply merge_left_In_snd in H | apply merge_left_In_None in H];
      tauto. }
  apply in_map_iff in Hg. destruct Hg as [k0 [Heq Hk]]. inversion Heq; subst k0 g.
  pose proof (month_group_nonempty _ _ Hk) as Hne.
  assert (Hne' : map dr_customer_unique_id (month_group k (delivered db)) <> [])
    by (destruct (month_group k (delivered db)); [congruence | discriminate]).
  pose proof (nunique_bounds _ Hne') as Hb. rewrite length_map in Hb.
  split; [reflexivity |]. split; [reflexivity |]. split; [exact Hb |].
  destruct nc as [[k' n] |]; cbn [option_map snd opt_map2] in *; [| reflexivity].
  destruct Hnr as [Hret [_ Hup]]. split; [| exact Hret].
  split; [| exact Hup].
  apply merge_left_In_snd in H. destruct H as [_ [Hn Hkk]].
  cbn [fst] in Hkk. apply Z.eqb_eq in Hkk. subst k'.
  unfold new_customers_df in Hn. apply in_map_iff in Hn.
  destruct Hn as [k1 [Heq1 Hk1]]. inversion Heq1; subst.
  pose proof (month_group_nonempty _ _ Hk1) as Hne1.
  apply nunique_bounds.
  destruct (month_group k _); [congruence | discriminate].
Qed.

Lemma monthly_counts_witness :
  Forall (fun row =>
    let g := month_group (order_month row) (delivered sample_db) in
    total_orders row = Z.of_nat (List.length g)
    /\ unique_customers row = nunique (map dr_customer_unique_id g)
    /\ 1 <= unique_customers row <= total_orders row
    /\ match new_customers row with
       | Some n =>
           1 <= n <= unique_customers row
           /\ returning_customers row = Some (unique_customers row - n)
       | None => returning_customers row = None
       end)
    (export_monthly_metrics sample_db)
  /\ map (fun row => (order_month row, total_orders row, unique_customers row,
                      new_customers row, returning_customers row))
       (export_monthly_metrics sample_db)
     = [(648, 1, 1, Some 1, Some 0); (649, 2, 2, Some 1, Some 1)].
Proof.
  split; [| vm_compute; reflexivity].
  apply Forall_forall. intros row.
  apply (monthly_counts sample_db).
Defined.

(** ** Rates are percentages *)

(** Rounding half to even stays between integer bounds. *)
Lemma round_half_even_bounds (a b : Z) (y : Q) :
  (inject_Z a <= y)%Q -> (y <= inject_Z b)%Q ->
  a <= round_half_even y <= b.
Proof.
  intros Ha Hb. unfold round_half_even.
  pose proof (Qfloor_le y) as Hfl. pose proof (Qlt_floor y) as Hfu.
  set (f := Qfloor y) in *.
  assert (Haf : a <= f).
  { assert (H : (inject_Z a < inject_Z (f + 1))%Q)
      by (eapply Qle_lt_trans; eassumption).
    rewrite <- Zlt_Qlt in H. lia. }
  assert (Hfb : f <= b).
  { assert (H : (inject_Z f <= inject_Z b)%Q)
      by (eapply Qle_trans; eassumption).
    rewrite <- Zle_Qle in H. exact H. }
  assert (Hup : (0 < y - inject_Z f)%Q -> f + 1 <= b).
  { intros Hpos.
    assert (H : (inject_Z f < inject_Z b)%Q).
    { apply (Qlt_le_trans _ y); [| assumption].
      apply (Qplus_lt_l _ _ (- inject_Z f)). rewrite Qplus_opp_r. exact Hpos. }
    rewrite <- Zlt_Qlt in H. lia. }
  destruct (Qcompare (y - inject_Z f) (1 # 2)) eqn:E.
  - apply Qeq_alt in E.
    assert (Hpos : (0 < y - inject_Z f)%Q) by (rewrite E; reflexivity).
    specialize (Hup Hpos). destruct (Z.even f); lia.
  - lia.
  - apply Qgt_alt in E.
    assert (Hpos : (0 < y - inject_Z f)%Q)
      by (apply (Qlt_trans _ (1 # 2)); [reflexivity | exact E]).
    specialize (Hup Hpos). lia.
Qed.

Lemma qsum_bool_bounds (l : list bool) :
  (0 <= qsum (map (fun b : bool => if b then 1%Q else 0%Q) l))%Q
  /\ (qsum (map (fun b : bool => if b then 1%Q else 0%Q) l)
      <= inject_Z (Z.of_nat (List.length l)))%Q.
Proof.
  induction l as [| b t [IH1 IH2]].
  - split; apply Qle_refl.
  - cbn [map List.length]. unfold qsum in *. cbn [fold_right].
    rewrite Nat2Z.inj_succ, <- Z.add_1_l, inject_Z_plus.
    change (inject_Z 1) with 1%Q.
    set (s := fold_right Qplus 0%Q _) in *. set (n := inject_Z _) in *.
    destruct b; split.
    + apply (Qle_trans _ (0 + 0)); [apply Qle_refl |].
      apply Qplus_le_compat; [discriminate | assumption].
    + apply Qplus_le_compat; [apply Qle_refl | assumption].
    + rewrite Qplus_0_l. assumption.
    + rewrite Qplus_0_l. apply (Qle_trans _ (0 + n)); [now rewrite Qplus_0_l |].
      apply Qplus_le_compat; [discriminate | apply Qle_refl].
Qed.

(** The mean of a non-empty boolean column is a number between 0 and 1. *)
Lemma mean_bool_bounds (l : list bool) :
  l <> [] -> exists q, mean_bool l = FNum q /\ (0 <= q)%Q /\ (q <= 1)%Q.
Proof.
  intros Hne. unfold mean_bool, qmean, fdiv_num. rewrite length_map.
  destruct (qsum_bool_bounds l) as [H0 H1].
  set (s := qsum _) in *.
  assert (Hn : (0 < inject_Z (Z.of_nat (List.length l)))%Q).
  { change 0%Q with (inject_Z 0). rewrite <- Zlt_Qlt.
    destruct l; [congruence | cbn [List.length]; lia]. }
  set (n := inject_Z _) in *.
  assert (E : Qeq_bool n 0 = false).
  { destruct (Qeq_bool n 0) eqn:E; [| reflexivity].
    apply Qeq_bool_iff in E. rewrite E in Hn. discriminate. }
  rewrite E. eexists. split; [reflexivity |]. split.
  - apply Qle_shift_div_l; [assumption |]. now rewrite Qmult_0_l.
  - apply Qle_shift_div_r; [assumption |]. now rewrite Qmult_1_l.
Qed.

(** A rate between 0 and 1, as a percentage rounded to two decimals, is a
    number of hundredths between 0 and 100. *)
Lemma percent_round2_bounds (q : Q) :
  (0 <= q)%Q -> (q <= 1)%Q ->
  exists c, fround2 (fscale (FNum q) 100) = FNum (inject_Z c / 100)
            /\ 0 <= c <= 10000.
Proof.
  intros H0 H1. cbn [fscale fround2 fround_to].
  exists (round_half_even (q * 100 * 100)). split; [reflexivity |].
  apply round_half_even_bounds.
  - change (inject_Z 0) with 0%Q.
    apply (Qle_trans _ (0 * 100 * 100)); [discriminate |].
    apply Qmult_le_compat_r; [| discriminate].
    apply Qmult_le_compat_r; [assumption | discriminate].
  - change (inject_Z 10000) with (1 * 100 * 100)%Q.
    apply Qmult_le_compat_r; [| discriminate].
    apply Qmult_le_compat_r; [assumption | discriminate].
Qed.

(** X12. The on-time delivery rate of every month row is a percentage with
    two decimals between 0 and 100; it is never missing, since a month row
    holds at least one delivered order. *)
Theorem monthly_on_time_rate_is_percentage (db : database) (row : monthly_row) :
  In row (export_monthly_metrics db) ->
  exists c, on_time_delivery_rate row = FNum (inject_Z c / 100)
            /\ 0 <= c <= 10000.
Proof.
  intros Hin. unfold export_monthly_metrics in Hin. apply in_map_iff in Hin.
  destruct Hin as [[[k g] nc] [<- H]]. cbn [on_time_delivery_rate].
  assert (Hg : In (k, g) (map (fun k => (k, month_group k (delivered db)))
                             (month_keys (delivered db)))).
  { destruct nc; [apply merge_left_In_snd in H | apply merge_left_In_None in H];
      tauto. }
  apply in_map_iff in Hg. destruct Hg as [k0 [Heq Hk]]. inversion Heq; subst k0 g.
  pose proof (month_group_nonempty _ _ Hk) as Hne.
  destruct (mean_bool_bounds (map dr_is_on_time (month_group k (delivered db))))
    as [q [Hq [H0 H1]]].
  { destruct (month_group k (delivered db)); [congruence | discriminate]. }
  rewrite Hq. now apply percent_round2_bounds.
Qed.

Lemma monthly_on_time_rate_is_percentage_witness :
  Forall (fun row =>
    exists c, on_time_delivery_rate row = FNum (inject_Z c / 100)
              /\ 0 <= c <= 10000)
    (export_monthly_metrics sample_db)
  /\ List.length (export_monthly_metrics sample_db) = 2%nat.
Proof.
  split; [| vm_compute; reflexivity].
  apply Forall_forall. intros row.
  apply (monthly_on_time_rate_is_percentage sample_db).
Defined.

(** ** Seller performance: grain, normalization and ranks *)

Lemma inner_join_In {L R} (on : L -> R -> bool) (left : list L) (right : list R)
    (x : L) (y : R) :
  In (x, y) (inner_join on left right)
  <-> In x left /\ In y right /\ on x y = true.
Proof.
  unfold inner_join. rewrite in_flat_map. split.
  - intros [a [Ha Hin]]. apply in_map_iff in Hin.
    destruct Hin as [b [Heq Hb]]. inversion Heq; subst.
    apply filter_In in Hb. tauto.
  - intros [Hx [Hy Hon]]. exists x. split; [assumption |].
    apply in_map. apply filter_In. auto.
Qed.

Lemma seller_items_In (db : database) (s : seller) (oi : order_item) :
  In (s, oi) (seller_items db)
  <-> In s (sellers db) /\ In oi (order_items db)
      /\ seller_id s = i_seller_id oi
      /\ exists o, In o (orders db) /\ i_order_id oi = order_id o
                   /\ is_delivered o = true.
Proof.
  unfold seller_items. rewrite in_map_iff. split.
  - intros [[[s' oi'] o] [Heq Hin]]. cbn [fst] in Heq. inversion Heq; subst.
    apply filter_In in Hin. destruct Hin as [Hin Hd]. cbn [snd] in Hd.
    apply inner_join_In in Hin. destruct Hin as [Hso [Ho Hk]].
    apply inner_join_In in Hso. destruct Hso as [Hs [Hoi Hks]].
    cbn [snd] in Hk. apply String.eqb_eq in Hk, Hks. eauto 10.
  - intros [Hs [Hoi [Hks [o [Ho [Hk Hd]]]]]].
    exists (s, oi, o). split; [reflexivity |]. apply filter_In.
    split; [| exact Hd]. apply inner_join_In. split; [| split; [exact Ho |]].
    + apply inner_join_In. split; [exact Hs | split; [exact Hoi |]].
      now apply String.eqb_eq.
    + cbn [snd]. now apply String.eqb_eq.
Qed.

Lemma seller_frame_ids (db : database) :
  map sm_seller_id (seller_frame db)
  = group_keys String.eqb String.leb
      (map (fun si : seller * order_item => seller_id (fst si)) (seller_items db)).
Proof.
  unfold seller_frame.
  set (M1 := merge_left _ (seller_revenue db) (seller_reviews db)).
  set (M2 := merge_left _ M1 (seller_delivery db)).
  assert (H1 : map fst M1 = seller_revenue db).
  { apply merge_left_fst. intros x _.
    apply (filter_key_at_most_one (fun r : string * fval * Z => fst (fst r)) _
             (fst (fst (fst (fst (fst x)))))).
    - unfold seller_reviews, groupby. rewrite map_map. cbn [fst].
      rewrite map_id. apply group_keys_NoDup, string_eqb_spec.
    - intros r Hr. symmetry. now apply String.eqb_eq. }
  assert (H2 : map fst M2 = M1).
  { apply merge_left_fst. intros x _.
    apply (filter_key_at_most_one (fun d : string * fval * fval => fst (fst d)) _
             (fst (fst (fst (fst (fst (fst x))))))).
    - unfold seller_delivery, groupby. rewrite map_map. cbn [fst].
      rewrite map_id. apply group_keys_NoDup, string_eqb_spec.
    - intros d Hd. symmetry. now apply String.eqb_eq. }
  transitivity (map (fun x : string * Z * Q * Q * string * string =>
                       fst (fst (fst (fst (fst x)))))
                  (map fst (map fst M2))).
  - rewrite !map_map. apply map_ext.
    intros [[[[[[[k n] rev] fr] city] st] rv] dv]. reflexivity.
  - rewrite H2, H1. unfold seller_revenue, groupby. rewrite map_map. cbn [fst].
    apply map_id.
Qed.

Lemma score_sellers_metrics (frame : list seller_metrics) :
  map sp_metrics (score_sellers frame) = frame.
Proof.
  unfold score_sellers.
  rewrite map_map.
  rewrite (map_combine_fst _ (fun s => s)).
  - apply map_id.
  - unfold rank_min_desc. now rewrite !length_map.
  - intros s rank. reflexivity.
Qed.

(** X13. The seller extract holds exactly one row per seller of the sellers
    table that has an item in a delivered order: no seller is repeated, and
    a seller without such an item is absent. *)
Theorem sellers_one_row_per_seller (db : database) :
  NoDup (map (fun row => sm_seller_id (sp_metrics row))
           (export_seller_performance db))
  /\ forall sid,
       In sid (map (fun row => sm_seller_id (sp_metrics row))
                 (export_seller_performance db))
       <-> exists s oi o,
             In s (sellers db) /\ In oi (order_items db) /\ In o (orders db)
             /\ seller_id s = sid /\ i_seller_id oi = sid
             /\ i_order_id oi = order_id o /\ is_delivered o = true.
Proof.
  unfold export_seller_performance.
  rewrite <- (map_map sp_metrics sm_seller_id), score_sellers_metrics,
    seller_frame_ids.
  split; [apply group_keys_NoDup, string_eqb_spec |].
  intros sid. rewrite (group_keys_In String.eqb string_eqb_spec), in_map_iff.
  split.
  - intros [[s oi] [Hid Hin]]. cbn [fst] in Hid.
    apply seller_items_In in Hin.
    destruct Hin as [Hs [Hoi [Hk [o [Ho [Hko Hd]]]]]].
    exists s, oi, o. repeat split; try assumption. congruence.
  - intros [s [oi [o [Hs [Hoi [Ho [Hid [Hk [Hko Hd]]]]]]]]].
    exists (s, oi). split; [exact Hid |]. apply seller_items_In.
    split; [exact Hs |]. split; [exact Hoi |]. split; [congruence |].
    exists o. auto.
Qed.

Lemma q_min_le (l : list Q) (x : Q) : In x l -> (q_min l <= x)%Q.
Proof.
  destruct l as [| h t]; [contradiction |]. cbn [q_min].
  revert x. induction t as [| a t IH]; intros x Hin; cbn [fold_right].
  - destruct Hin as [<- | []]. apply Qle_refl.
  - set (m := fold_right _ h t) in *.
    assert (Hm : forall y, In y (h :: t) -> (m <= y)%Q) by (intros y Hy; now apply IH).
    destruct (Qle_bool a m) eqn:E.
    + apply Qle_bool_iff in E. destruct Hin as [<- | [<- | Hin]].
      * apply (Qle_trans _ m); [assumption | apply Hm; now left].
      * apply Qle_refl.
      * apply (Qle_trans _ m); [assumption | apply Hm; now right].
    + assert (Hlt : (m <= a)%Q).
      { apply Qlt_le_weak, Qnot_le_lt. intros Hc. apply Qle_bool_iff in Hc.
        congruence. }
      destruct Hin as [<- | [<- | Hin]].
      * apply Hm. now left.
      * assumption.
      * apply Hm. now right.
Qed.

Lemma q_max_ge (l : list Q) (x : Q) : In x l -> (x <= q_max l)%Q.
Proof.
  destruct l as [| h t]; [contradiction |]. cbn [q_max].
  revert x. induction t as [| a t IH]; intros x Hin; cbn [fold_right].
  - destruct Hin as [<- | []]. apply Qle_refl.
  - set (m := fold_right _ h t) in *.
    assert (Hm : forall y, In y (h :: t) -> (y <= m)%Q) by (intros y Hy; now apply IH).
    destruct (Qle_bool m a) eqn:E.
    + apply Qle_bool_iff in E. destruct Hin as [<- | [<- | Hin]].
      * apply (Qle_trans _ m); [apply Hm; now left | assumption].
      * apply Qle_refl.
      * apply (Qle_trans _ m); [apply Hm; now right | assumption].
    + assert (Hlt : (a <= m)%Q).
      { apply Qlt_le_weak, Qnot_le_lt. intros Hc. apply Qle_bool_iff in Hc.
        congruence. }
      destruct Hin as [<- | [<- | Hin]].
      * apply Hm. now left.
      * assumption.
      * apply Hm. now right.
Qed.

(** X14. When two sellers differ in total revenue, the revenue score of
    every seller is a number between 0 and 100, the min-max position of its
    revenue: 0 for a seller with the least revenue and 100 for one with the
    greatest. *)
Theorem revenue_score_between_0_and_100 (frame : list seller_metrics)
    (s1 s2 : seller_metrics) (row : seller_performance_row) :
  In s1 frame -> In s2 frame ->
  (sm_total_revenue s1 < sm_total_revenue s2)%Q ->
  In row (score_sellers frame) ->
  let revenues := map sm_total_revenue frame in
  let x := sm_total_revenue (sp_metrics row) in
  exists q,
    sp_revenue_score row = FNum q
    /\ (q == (x - q_min revenues) / (q_max revenues - q_min revenues) * 100)%Q
    /\ (0 <= q)%Q /\ (q <= 100)%Q
    /\ ((x == q_min revenues)%Q -> (q == 0)%Q)
    /\ ((x == q_max revenues)%Q -> (q == 100)%Q).
Proof.
  intros H1 H2 Hlt Hrow revenues x.
  assert (Hx : In x revenues).
  { unfold x, revenues. apply in_map.
    rewrite <- (score_sellers_metrics frame). now apply in_map. }
  assert (Hscore : sp_revenue_score row = revenue_score revenues x).
  { unfold score_sellers in Hrow. apply in_map_iff in Hrow.
    destruct Hrow as [[s rank] [<- _]]. reflexivity. }
  pose proof (q_min_le revenues x Hx) as Hmin.
  pose proof (q_max_ge revenues x Hx) as Hmax.
  assert (Hspan : (0 < q_max revenues - q_min revenues)%Q).
  { pose proof (q_min_le revenues _ (in_map sm_total_revenue _ _ H1)) as Ha.
    pose proof (q_max_ge revenues _ (in_map sm_total_revenue _ _ H2)) as Hb.
    fold revenues in Ha, Hb.
    apply (Qplus_lt_l _ _ (q_min revenues)). rewrite Qplus_0_l.
    unfold Qminus. rewrite <- Qplus_assoc, (Qplus_comm (- _)), Qplus_opp_r,
      Qplus_0_r.
    apply (Qle_lt_trans _ (sm_total_revenue s1)); [assumption |].
    apply (Qlt_le_trans _ (sm_total_revenue s2)); assumption. }
  set (span := (q_max revenues - q_min revenues)%Q) in *.
  assert (E : Qeq_bool span 0 = false).
  { destruct (Qeq_bool span 0) eqn:E; [| reflexivity].
    apply Qeq_bool_iff in E. rewrite E in Hspan. discriminate. }
  exists ((x - q_min revenues) / span * 100)%Q.
  split.
  { rewrite Hscore. unfold revenue_score, fdiv_num. fold span. rewrite E.
    reflexivity. }
  split; [reflexivity |].
  assert (Hnum0 : (0 <= x - q_min revenues)%Q).
  { apply (Qplus_le_l _ _ (q_min revenues)). rewrite Qplus_0_l.
    unfold Qminus. rewrite <- Qplus_assoc, (Qplus_comm (- _)), Qplus_opp_r,
      Qplus_0_r. assumption. }
  assert (Hnum1 : (x - q_min revenues <= span)%Q).
  { unfold span, Qminus. apply Qplus_le_compat; [assumption | apply Qle_refl]. }
  assert (Hfrac0 : (0 <= (x - q_min revenues) / span)%Q).
  { apply Qle_shift_div_l; [assumption |]. now rewrite Qmult_0_l. }
  assert (Hfrac1 : ((x - q_min revenues) / span <= 1)%Q).
  { apply Qle_shift_div_r; [assumption |]. now rewrite Qmult_1_l. }
  split.
  { apply (Qle_trans _ (0 * 100)); [discriminate |].
    apply Qmult_le_compat_r; [assumption | discriminate]. }
  split.
  { apply (Qle_trans _ (1 * 100)); [| discriminate].
    apply Qmult_le_compat_r; [assumption | discriminate]. }
  split.
  - intros Heq. rewrite Heq. unfold Qminus. rewrite Qplus_opp_r.
    unfold Qdiv. ring.
  - intros Heq.
    assert (Hs : (x - q_min revenues == span)%Q) by (unfold span; now rewrite Heq).
    rewrite Hs. field. intros Hc. rewrite Hc in Hspan. discriminate.
Qed.

Lemma revenue_score_between_0_and_100_witness :
  Forall (fun row =>
    let revenues := map sm_total_revenue (seller_frame ranked_db) in
    let x := sm_total_revenue (sp_metrics row) in
    exists q,
      sp_revenue_score row = FNum q
      /\ (q == (x - q_min revenues) / (q_max revenues - q_min revenues) * 100)%Q
      /\ (0 <= q)%Q /\ (q <= 100)%Q
      /\ ((x == q_min revenues)%Q -> (q == 0)%Q)
      /\ ((x == q_max revenues)%Q -> (q == 100)%Q))
    (export_seller_performance ranked_db)
  /\ map (fun s => (sm_seller_id s, sm_total_revenue s)) (seller_frame ranked_db)
     = [("s1"%string, 100%Q); ("s2"%string, 200%Q); ("s3"%string, 150%Q)].
Proof.
  split; [| vm_compute; reflexivity].
  apply Forall_forall. intros row Hrow.
  apply (revenue_score_between_0_and_100 (seller_frame ranked_db)
           (nth 0 (seller_frame ranked_db) (nth 0 (seller_frame ranked_db)
              (mk_seller_metrics "" 0 0 0 "" "" FNaN None FNaN FNaN)))
           (nth 1 (seller_frame ranked_db)
              (mk_seller_metrics "" 0 0 0 "" "" FNaN None FNaN FNaN)));
    [vm_compute; auto | vm_compute; auto | vm_compute; reflexivity | exact Hrow].
Defined.

(** X15. Every seller rank that is present lies between 1 and the number of
    sellers, and a seller whose composite score is a number that no other
    seller exceeds has rank 1. *)
Theorem seller_rank_range (db : database) (row : seller_performance_row) :
  In row (export_seller_performance db) ->
  (forall r, seller_rank row = Some r ->
             1 <= r <= Z.of_nat (List.length (export_seller_performance db)))
  /\ (fisnan (sp_composite_score row) = false ->
      (forall other, In other (export_seller_performance db) ->
                     fltb (sp_composite_score row) (sp_composite_score other) = false) ->
      seller_rank row = Some 1).
Proof.
  unfold export_seller_performance. intros Hin.
  destruct (score_sellers_rank _ _ Hin) as [Hrank Hmem].
  set (out := score_sellers (seller_frame db)) in *.
  set (cs := map sp_composite_score out) in *.
  split.
  - intros r Hr. rewrite Hrank in Hr. unfold rank_cell in Hr.
    destruct (fisnan (sp_composite_score row)); [discriminate |].
    assert (Hr' : r = 1 + count_if (fun y => fltb (sp_composite_score row) y) cs)
      by congruence.
    rewrite Hr'. clear Hr Hr'. unfold count_if.
    pose proof (filter_length_lt (fun y => fltb (sp_composite_score row) y) cs
                  (sp_composite_score row) Hmem (fltb_irrefl _)) as Hlt.
    assert (Hlen : List.length cs = List.length out)
      by (unfold cs; apply length_map).
    lia.
  - intros Hnan Htop. rewrite Hrank. unfold rank_cell. rewrite Hnan.
    f_equal. unfold count_if.
    assert (Hnil : filter (fun y => fltb (sp_composite_score row) y) cs = []).
    { destruct (filter _ cs) as [| y more] eqn:E; [reflexivity |]. exfalso.
      assert (Hy : In y (filter (fun y => fltb (sp_composite_score row) y) cs))
        by (rewrite E; now left).
      apply filter_In in Hy. destruct Hy as [Hy Hlt].
      unfold cs in Hy. apply in_map_iff in Hy. destruct Hy as [o [<- Ho]].
      rewrite (Htop o Ho) in Hlt. discriminate. }
    rewrite Hnil. reflexivity.
Qed.

Lemma seller_rank_range_witness :
  Forall (fun row =>
    (forall r, seller_rank row = Some r ->
               1 <= r <= Z.of_nat (List.length (export_seller_performance ranked_db)))
    /\ (fisnan (sp_composite_score row) = false ->
        (forall other, In other (export_seller_performance ranked_db) ->
                       fltb (sp_composite_score row) (sp_composite_score other)
                       = false) ->
        seller_rank row = Some 1))
    (export_seller_performance ranked_db)
  /\ map seller_rank (export_seller_performance ranked_db)
     = [Some 2; Some 2; Some 1].
Proof.
  split; [| vm_compute; reflexivity].
  apply Forall_forall. intros row.
  apply (seller_rank_range ranked_db).
Defined.

(** A seller whose mean review score or on-time rate is missing in the
    merged frame has a NaN composite score and a missing rank, whatever its
    revenue. *)
Lemma composite_nan_when_mean_missing
    (frame : list seller_metrics) (row : seller_performance_row) :
  In row (score_sellers frame) ->
  sm_avg_review_score (sp_metrics row) = FNaN
  \/ sm_on_time_rate (sp_metrics row) = FNaN ->
  sp_composite_score row = FNaN /\ seller_rank row = None.
Proof.
  intros Hin Hmiss.
  destruct (score_sellers_rank _ _ Hin) as [Hrank _].
  assert (Hc : sp_composite_score row = FNaN).
  { unfold score_sellers in Hin. apply in_map_iff in Hin.
    destruct Hin as [[s rank] [<- _]].
    cbn [sp_composite_score sp_metrics] in *. unfold composite_score.
    assert (Hr : forall y, fadd y FNaN = FNaN) by (intros [? | ? |]; reflexivity).
    destruct Hmiss as [-> | ->].
    - cbn [review_score_normalized fscale]. rewrite Hr. reflexivity.
    - cbn [delivery_score fscale]. rewrite Hr. reflexivity. }
  split; [exact Hc |]. rewrite Hrank, Hc. reflexivity.
Qed.

Lemma pair_eqb_spec (a b : string * string) : pair_eqb a b = true <-> a = b.
Proof.
  destruct a as [a1 a2], b as [b1 b2]. unfold pair_eqb. cbn [fst snd].
  rewrite andb_true_iff, !String.eqb_eq. split.
  - intros [-> ->]. reflexivity.
  - intros H. inversion H. auto.
Qed.

(** The review rows of the seller frame come from a review joined to an item
    of the seller. *)
Lemma seller_review_rows_In (db : database) (x : string * string * Z) :
  In x (seller_review_rows db) ->
  exists r oi, In r (order_reviews db) /\ In oi (order_items db)
               /\ rv_order_id r = i_order_id oi
               /\ fst (fst x) = i_seller_id oi
               /\ snd x = review_score r.
Proof.
  unfold seller_review_rows. intros H.
  apply (drop_duplicates_incl pair_eqb pair_eqb_spec) in H.
  apply in_map_iff in H. destruct H as [[r oi] [<- Hin]].
  apply inner_join_In in Hin. destruct Hin as [Hr [Hoi Hk]].
  apply String.eqb_eq in Hk. exists r, oi. auto.
Qed.

(** A seller none of whose items belongs to a reviewed order has a missing
    mean review score in the merged frame. *)
Lemma seller_frame_no_review (db : database) (s : seller_metrics) :
  In s (seller_frame db) ->
  (forall r oi, In r (order_reviews db) -> In oi (order_items db) ->
                rv_order_id r = i_order_id oi ->
                i_seller_id oi <> sm_seller_id s) ->
  sm_avg_review_score s = FNaN.
Proof.
  unfold seller_frame. intros Hin Hno. apply in_map_iff in Hin.
  destruct Hin as [[[[[[[[k n] rev] fr] city] st] rv] dv] [<- H]].
  cbn [sm_avg_review_score sm_seller_id] in *.
  destruct rv as [x |]; [| reflexivity]. exfalso.
  assert (H1 : In (k, n, rev, fr, city, st, Some x)
                 (merge_left
                    (fun (x : string * Z * Q * Q * string * string)
                         (r : string * fval * Z) =>
                       String.eqb (fst (fst (fst (fst (fst x))))) (fst (fst r)))
                    (seller_revenue db) (seller_reviews db))).
  { destruct dv; [apply merge_left_In_snd in H | apply merge_left_In_None in H];
      tauto. }
  apply merge_left_In_snd in H1. destruct H1 as [_ [Hx Hk]].
  cbn [fst] in Hk. apply String.eqb_eq in Hk.
  unfold seller_reviews, groupby in Hx. apply in_map_iff in Hx.
  destruct Hx as [k' [<- Hk']]. cbn [fst] in Hk. subst k'.
  apply (group_keys_In String.eqb string_eqb_spec) in Hk'.
  apply in_map_iff in Hk'. destruct Hk' as [y [Hy Hyin]].
  destruct (seller_review_rows_In db y Hyin) as [r [oi [Hr [Hoi [Hko [Hs _]]]]]].
  apply (Hno r oi Hr Hoi Hko). congruence.
Qed.

(** X16. A seller none of whose items belongs to a reviewed order has no
    mean review score; its composite score is NaN and its rank missing,
    whatever its revenue and its deliveries. *)
Theorem seller_without_review_is_unranked (db : database)
    (row : seller_performance_row) :
  In row (export_seller_performance db) ->
  (forall r oi, In r (order_reviews db) -> In oi (order_items db) ->
                rv_order_id r = i_order_id oi ->
                i_seller_id oi <> sm_seller_id (sp_metrics row)) ->
  sp_composite_score row = FNaN /\ seller_rank row = None.
Proof.
  unfold export_seller_performance. intros Hin Hno.
  apply (composite_nan_when_mean_missing _ _ Hin). left.
  apply (seller_frame_no_review db); [| exact Hno].
  rewrite <- (score_sellers_metrics (seller_frame db)). now apply in_map.
Qed.

Lemma seller_without_review_is_unranked_witness :
  Forall (fun row => sp_composite_score row = FNaN /\ seller_rank row = None)
    (filter (fun row => String.eqb (sm_seller_id (sp_metrics row)) "s3")
       (export_seller_performance ranked_no_review_db))
  /\ map (fun row => (sm_seller_id (sp_metrics row), seller_rank row))
       (export_seller_performance ranked_no_review_db)
     = [("s1"%string, Some 2); ("s2"%string, Some 1); ("s3"%string, None)].
Proof.
  split; [| vm_compute; reflexivity].
  apply Forall_forall. intros row Hin. apply filter_In in Hin.
  destruct Hin as [Hin Hid]. apply String.eqb_eq in Hid.
  apply (seller_without_review_is_unranked ranked_no_review_db row Hin).
  rewrite Hid. intros r oi Hr Hoi Hk.
  cbn [ranked_no_review_db order_reviews order_items In] in Hr, Hoi.
  destruct Hr as [<- | [<- | []]];
    destruct Hoi as [<- | [<- | [<- | []]]];
    cbn in Hk |- *; congruence.
Defined.

(* ------------------------------------------------------------------ *)
(** ** Product sales *)

Lemma export_product_sales_items (sd : sales_database) :
  map ps_item (export_product_sales sd)
  = map (fun x => fst (fst (fst (fst x))))
      (merge_left (fun (x : sales_item * option product
                            * option category_translation * option seller) od =>
                     String.eqb (i_order_id (si_item (fst (fst (fst x)))))
                       (od_order_id od))
         (product_sales_query sd) (order_dates sd)).
Proof.
  unfold export_product_sales. rewrite map_map. apply map_ext.
  intros [[[[oi p] t] s] od]. reflexivity.
Qed.

(** The rows of a left join: a left row with a matching right row, or with a
    missing right side when no right row matches. *)
Lemma merge_left_In {L R} (on : L -> R -> bool) (left : list L) (right : list R)
    (x : L) (y : option R) :
  In (x, y) (merge_left on left right) ->
  In x left
  /\ match y with
     | Some v => In v right /\ on x v = true
     | None => forall v, In v right -> on x v = false
     end.
Proof.
  intros H. split; [now apply merge_left_In_fst in H |].
  destruct y as [v |].
  - apply merge_left_In_snd in H. tauto.
  - apply merge_left_In_None in H. tauto.
Qed.

Lemma sql_eq_true (a : option string) (b : string) :
  sql_eq a b = true <-> a = Some b.
Proof.
  destruct a as [x |]; cbn [sql_eq].
  - rewrite String.eqb_eq. split; congruence.
  - split; discriminate.
Qed.

(** Where the columns of a product sales row come from. *)
Lemma export_product_sales_parts (sd : sales_database) (row : product_sales_row) :
  In row (export_product_sales sd) ->
  In (ps_item row) (sd_order_items sd)
  /\ match ps_product row with
     | Some p => In p (sd_products sd)
                 /\ product_id p = si_product_id (ps_item row)
     | None => forall p, In p (sd_products sd) ->
                         product_id p <> si_product_id (ps_item row)
     end
  /\ match ps_translation row with
     | Some t => In t (sd_product_category_translation sd)
                 /\ joined_category (ps_product row)
                    = Some (t_product_category_name t)
     | None => forall t, In t (sd_product_category_translation sd) ->
                         joined_category (ps_product row)
                         <> Some (t_product_category_name t)
     end
  /\ match ps_seller row with
     | Some s => In s (sd_sellers sd)
                 /\ seller_id s = i_seller_id (si_item (ps_item row))
     | None => forall s, In s (sd_sellers sd) ->
                         seller_id s <> i_seller_id (si_item (ps_item row))
     end
  /\ match ps_order_date row with
     | Some od => In od (order_dates sd)
                  /\ od_order_id od = i_order_id (si_item (ps_item row))
     | None => forall od, In od (order_dates sd) ->
                          od_order_id od <> i_order_id (si_item (ps_item row))
     end
  /\ ps_order_month row
     = period_astype_str
         (option_map to_period_M (merged_purchase (ps_order_date row)))
  /\ ps_order_year row
     = option_map dt_year (merged_purchase (ps_order_date row))
  /\ total_item_value row
     = (price (si_item (ps_item row)) + freight_value (si_item (ps_item row)))%Q
  /\ ps_product_category_name_english row = fillna_unknown (ps_translation row).
Proof.
  unfold export_product_sales. intros Hin. apply in_map_iff in Hin.
  destruct Hin as [[[[[oi p] t] s] od] [<- H]].
  cbn [ps_item ps_product ps_translation ps_seller ps_order_date ps_order_month
       ps_order_year total_item_value ps_product_category_name_english].
  apply merge_left_In in H. destruct H as [H Hod].
  unfold product_sales_query in H.
  apply merge_left_In in H. destruct H as [H Hs].
  apply merge_left_In in H. destruct H as [H Ht].
  apply merge_left_In in H. destruct H as [H Hp].
  cbn [fst snd] in *.
  repeat split; try reflexivity; try assumption.
  - destruct p as [p |].
    + destruct Hp as [Hp1 Hp2]. apply String.eqb_eq in Hp2. auto.
    + intros q Hq Heq. specialize (Hp q Hq).
      rewrite Heq, String.eqb_refl in Hp. discriminate.
  - destruct t as [t |].
    + destruct Ht as [Ht1 Ht2]. apply sql_eq_true in Ht2. auto.
    + intros q Hq Heq. specialize (Ht q Hq).
      apply (proj2 (sql_eq_true _ _)) in Heq. congruence.
  - destruct s as [s |].
    + destruct Hs as [Hs1 Hs2]. apply String.eqb_eq in Hs2. auto.
    + intros q Hq Heq. specialize (Hs q Hq).
      rewrite Heq, String.eqb_refl in Hs. discriminate.
  - destruct od as [od |].
    + destruct Hod as [Ho1 Ho2]. apply String.eqb_eq in Ho2. auto.
    + intros q Hq Heq. specialize (Hod q Hq).
      rewrite Heq, String.eqb_refl in Hod. discriminate.
Qed.

(** The month of a date lies in 1..12 and its day in 1..31. *)
Lemma civil_from_days_range (z : Z) :
  let '(_, m, d) := civil_from_days z in 1 <= m <= 12 /\ 1 <= d <= 31.
Proof.
  unfold civil_from_days.
  set (z' := z + 719468).
  set (era := z' / 146097).
  set (doe := z' - era * 146097).
  assert (Hdoe : 0 <= doe < 146097).
  { subst doe era. pose proof (Z.mod_pos_bound z' 146097 ltac:(lia)).
    rewrite Z.mod_eq in H by lia. lia. }
  clearbody doe. clear z' era.
  set (yoe := (doe - doe / 1460 + doe / 36524 - doe / 146096) / 365).
  set (doy := doe - (365 * yoe + yoe / 4 - yoe / 100)).
  assert (Hdoy : 0 <= doy <= 365).
  { subst doy yoe. Z.to_euclidean_division_equations; lia. }
  clearbody doy. clear yoe Hdoe doe.
  set (mp := (5 * doy + 2) / 153).
  assert (Hmp : 0 <= mp <= 11 /\ 1 <= doy - (153 * mp + 2) / 5 + 1 <= 31).
  { subst mp. Z.to_euclidean_division_equations; lia. }
  clearbody mp. destruct (mp <? 10) eqn:E;
    [apply Z.ltb_lt in E | apply Z.ltb_ge in E]; lia.
Qed.

(** [dt.year] and [dt.to_period('M')] agree on the year. *)
Lemma dt_year_of_period (t : timestamp) :
  dt_year t = 1970 + to_period_M t / 12.
Proof.
  unfold dt_year, to_period_M.
  pose proof (civil_from_days_range (t / SECONDS_PER_DAY)) as H.
  destruct (civil_from_days (t / SECONDS_PER_DAY)) as [[y m] d].
  destruct H as [Hm _].
  replace ((y - 1970) * 12 + (m - 1)) with ((m - 1) + (y - 1970) * 12) by ring.
  rewrite Z.div_add by lia. rewrite Z.div_small by lia. ring.
Qed.

(** X17. When product ids, translated category names, seller ids and order
    ids are keys of their tables, the product sales hold exactly the order
    items, each once and in the order of the table. *)
Theorem product_sales_one_row_per_item (sd : sales_database) :
  NoDup (map product_id (sd_products sd)) ->
  NoDup (map t_product_category_name (sd_product_category_translation sd)) ->
  NoDup (map seller_id (sd_sellers sd)) ->
  NoDup (map order_id (sd_orders sd)) ->
  map ps_item (export_product_sales sd) = sd_order_items sd.
Proof.
  intros Hp Ht Hs Ho. rewrite export_product_sales_items.
  assert (Hod : NoDup (map od_order_id (order_dates sd))).
  { unfold order_dates. rewrite map_map. exact Ho. }
  assert (Hfst : forall (l : list (sales_item * option product
                                   * option category_translation * option seller
                                   * option order_date)),
             map (fun x => fst (fst (fst (fst x)))) l
             = map fst (map fst (map fst (map fst l)))).
  { intros l. rewrite !map_map. reflexivity. }
  rewrite Hfst. rewrite merge_left_fst.
  2:{ intros x _. apply (filter_key_at_most_one od_order_id _
                           (i_order_id (si_item (fst (fst (fst x))))) _ Hod).
      intros r Hr. apply String.eqb_eq in Hr. now symmetry. }
  unfold product_sales_query. rewrite merge_left_fst.
  2:{ intros x _. apply (filter_key_at_most_one seller_id _
                           (i_seller_id (si_item (fst (fst x)))) _ Hs).
      intros r Hr. apply String.eqb_eq in Hr. now symmetry. }
  rewrite merge_left_fst.
  2:{ intros x _.
      apply (filter_key_at_most_one t_product_category_name _
               (match joined_category (snd x) with
                | Some c => c
                | None => EmptyString
                end) _ Ht).
      intros r Hr. apply sql_eq_true in Hr. rewrite Hr. reflexivity. }
  apply merge_left_fst.
  intros x _. apply (filter_key_at_most_one product_id _ (si_product_id x) _ Hp).
  intros r Hr. apply String.eqb_eq in Hr. now symmetry.
Qed.

Lemma product_sales_one_row_per_item_witness :
  map ps_item (export_product_sales sales_sample_db)
  = sd_order_items sales_sample_db
  /\ List.length (export_product_sales sales_sample_db) = 4%nat.
Proof.
  split; [| vm_compute; reflexivity].
  apply (product_sales_one_row_per_item sales_sample_db); cbn;
    repeat constructor; cbn; intuition discriminate.
Defined.

(** X18. Without any assumption on keys the joins are left joins all the
    way: every order item reaches the product sales, nothing else does, and
    there are at least as many rows as order items. *)
Theorem product_sales_keeps_every_item (sd : sales_database) :
  (forall oi, In oi (map ps_item (export_product_sales sd))
              <-> In oi (sd_order_items sd))
  /\ (List.length (sd_order_items sd)
      <= List.length (export_product_sales sd))%nat.
Proof.
  assert (Hlen : forall {L R} (on : L -> R -> bool) (l : list L) (r : list R),
             (List.length l <= List.length (merge_left on l r))%nat).
  { intros L R on l r. induction l as [| x rest IH]; cbn [merge_left flat_map];
      [apply Nat.le_refl |].
    fold (merge_left on rest r). rewrite length_app. cbn [List.length].
    destruct (filter (on x) r) as [| y more]; cbn [List.length map]; lia. }
  split.
  - intros oi. split.
    + intros H. apply in_map_iff in H. destruct H as [row [<- Hrow]].
      now apply export_product_sales_parts in Hrow.
    + intros H. rewrite export_product_sales_items. unfold product_sales_query.
      destruct (merge_left_complete
                  (fun oi p => String.eqb (si_product_id oi) (product_id p))
                  (sd_order_items sd) (sd_products sd) oi H) as [p Hp].
      destruct (merge_left_complete
                  (fun (x : sales_item * option product) t =>
                     sql_eq (joined_category (snd x)) (t_product_category_name t))
                  _ (sd_product_category_translation sd) _ Hp) as [t Ht].
      destruct (merge_left_complete
                  (fun (x : sales_item * option product
                            * option category_translation) s =>
                     String.eqb (i_seller_id (si_item (fst (fst x)))) (seller_id s))
                  _ (sd_sellers sd) _ Ht) as [s Hs].
      destruct (merge_left_complete
                  (fun (x : sales_item * option product
                            * option category_translation * option seller) od =>
                     String.eqb (i_order_id (si_item (fst (fst (fst x)))))
                       (od_order_id od))
                  _ (order_dates sd) _ Hs) as [od Hod].
      apply in_map_iff. exists (oi, p, t, s, od). split; [reflexivity | exact Hod].
  - unfold export_product_sales, product_sales_query. rewrite length_map.
    eapply Nat.le_trans; [| apply Hlen].
    eapply Nat.le_trans; [| apply Hlen].
    eapply Nat.le_trans; [| apply Hlen].
    apply Hlen.
Qed.

(** X19. The English category of a product sales row is never missing: it
    is the English name of a translation of the category of the product of
    the item, and the text Unknown when the item has no product in the
    table, the product has no category, the category has no translation, or
    the translation has no English name. *)
Theorem product_sales_category (sd : sales_database) (row : product_sales_row) :
  In row (export_product_sales sd) ->
  match ps_product row with
  | None =>
      (forall p, In p (sd_products sd) ->
                 product_id p <> si_product_id (ps_item row))
      /\ ps_product_category_name_english row = "Unknown"%string
  | Some p =>
      In p (sd_products sd) /\ product_id p = si_product_id (ps_item row)
      /\ match product_category_name p with
         | None => ps_product_category_name_english row = "Unknown"%string
         | Some c =>
             (exists t, In t (sd_product_category_translation sd)
                        /\ t_product_category_name t = c
                        /\ ps_product_category_name_english row
                           = match product_category_name_english t with
                             | Some e => e
                             | None => "Unknown"%string
                             end)
             \/ ((forall t, In t (sd_product_category_translation sd) ->
                            t_product_category_name t <> c)
                 /\ ps_product_category_name_english row = "Unknown"%string)
         end
  end.
Proof.
  intros Hin. apply export_product_sales_parts in Hin.
  destruct Hin as (_ & Hp & Ht & _ & _ & _ & _ & _ & He).
  rewrite He. destruct (ps_product row) as [p |]; cbn [joined_category] in Ht.
  - destruct Hp as [Hp1 Hp2]. split; [exact Hp1 | split; [exact Hp2 |]].
    destruct (ps_translation row) as [t |]; cbn [fillna_unknown].
    + destruct Ht as [Ht1 Ht2]. rewrite Ht2. left. exists t. auto.
    + destruct (product_category_name p) as [c |]; [| reflexivity].
      right. split; [| reflexivity]. intros t Hin Heq. apply (Ht t Hin).
      now rewrite Heq.
  - split; [exact Hp |].
    destruct (ps_translation row) as [t |]; [| reflexivity].
    destruct Ht as [_ Ht2]. discriminate.
Qed.

Lemma product_sales_category_witness :
  Forall (fun row =>
            match ps_product row with
            | None =>
                (forall p, In p (sd_products sales_sample_db) ->
                           product_id p <> si_product_id (ps_item row))
                /\ ps_product_category_name_english row = "Unknown"%string
            | Some p =>
                In p (sd_products sales_sample_db)
                /\ product_id p = si_product_id (ps_item row)
                /\ match product_category_name p with
                   | None =>
                       ps_product_category_name_english row = "Unknown"%string
                   | Some c =>
                       (exists t,
                           In t (sd_product_category_translation sales_sample_db)
                           /\ t_product_category_name t = c
                           /\ ps_product_category_name_english row
                              = match product_category_name_english t with
                                | Some e => e
                                | None => "Unknown"%string
                                end)
                       \/ ((forall t,
                               In t (sd_product_category_translation
                                       sales_sample_db) ->
                               t_product_category_name t <> c)
                           /\ ps_product_category_name_english row
                              = "Unknown"%string)
                   end
            end)
    (export_product_sales sales_sample_db)
  /\ map (fun row => (si_product_id (ps_item row),
                      ps_product_category_name_english row))
       (export_product_sales sales_sample_db)
     = [("p1", "health_beauty"); ("p2", "Unknown"); ("p3", "Unknown");
        ("p4", "Unknown")]%string.
Proof.
  split; [| vm_compute; reflexivity].
  apply Forall_forall. intros row Hin.
  exact (product_sales_category sales_sample_db row Hin).
Defined.

(** The rendering of an integer never starts like the text NaT. *)
Lemma string_of_Z_not_NaT (z : Z) (rest : string) :
  (string_of_Z z ++ rest)%string <> "NaT"%string.
Proof.
  unfold string_of_Z. destruct (Z.to_int z) as [u | u];
    destruct u; cbn; discriminate.
Qed.

Lemma period_astype_str_NaT (p : option Z) :
  period_astype_str p = "NaT"%string <-> p = None.
Proof.
  destruct p as [x |]; cbn [period_astype_str].
  - split; [| discriminate]. unfold period_M_str. intros H.
    now apply string_of_Z_not_NaT in H.
  - split; reflexivity.
Qed.

(** The text of the month of a timestamp: its year, a dash and its month
    number on two digits. *)
Lemma period_M_str_of_timestamp (t : timestamp) :
  exists m, 1 <= m <= 12
            /\ period_M_str (to_period_M t)
               = (string_of_Z (dt_year t) ++ "-" ++ pad2 m)%string.
Proof.
  unfold period_M_str. rewrite dt_year_of_period.
  exists (to_period_M t mod 12 + 1). split; [| reflexivity].
  pose proof (Z.mod_pos_bound (to_period_M t) 12 ltac:(lia)). lia.
Qed.

(** X20. The time dimensions of a product sales row are those of the
    purchase of the order of the item.  When the order is not in the orders
    table or has no purchase timestamp the year is missing and the month is
    the text NaT, not a missing cell; the year is missing exactly when the
    month is that text.  When present, the month is the text of the year, a
    dash and a month number of 1..12 on two digits.  The total item value
    is price plus freight. *)
Theorem product_sales_time_dimensions (sd : sales_database)
    (row : product_sales_row) :
  In row (export_product_sales sd) ->
  ((exists o, In o (sd_orders sd)
              /\ order_id o = i_order_id (si_item (ps_item row))
              /\ ps_order_month row
                 = period_astype_str
                     (option_map to_period_M (order_purchase_timestamp o))
              /\ ps_order_year row
                 = option_map dt_year (order_purchase_timestamp o))
   \/ ((forall o, In o (sd_orders sd) ->
                  order_id o <> i_order_id (si_item (ps_item row)))
       /\ ps_order_month row = "NaT"%string /\ ps_order_year row = None))
  /\ (ps_order_month row = "NaT"%string <-> ps_order_year row = None)
  /\ (forall y, ps_order_year row = Some y ->
                exists m, 1 <= m <= 12
                          /\ ps_order_month row
                             = (string_of_Z y ++ "-" ++ pad2 m)%string)
  /\ total_item_value row
     = (price (si_item (ps_item row)) + freight_value (si_item (ps_item row)))%Q.
Proof.
  intros Hin. apply export_product_sales_parts in Hin.
  destruct Hin as (_ & _ & _ & _ & Hod & Hm & Hy & Htot & _).
  rewrite Hm, Hy. split; [| split; [| split; [| exact Htot]]].
  - destruct (ps_order_date row) as [od |]; cbn [merged_purchase].
    + destruct Hod as [Hod1 Hod2]. unfold order_dates in Hod1.
      apply in_map_iff in Hod1. destruct Hod1 as [o [<- Ho]].
      cbn [od_order_id od_order_purchase_timestamp] in *.
      left. exists o. auto.
    + right. split; [| split; reflexivity]. intros o Ho Heq.
      apply (Hod (mk_order_date (order_id o) (order_purchase_timestamp o)
                    (order_status o))); [| exact Heq].
      unfold order_dates. apply in_map_iff. exists o. auto.
  - rewrite period_astype_str_NaT.
    destruct (merged_purchase (ps_order_date row)); cbn [option_map];
      split; congruence.
  - intros y. destruct (merged_purchase (ps_order_date row)) as [t |];
      cbn [option_map period_astype_str]; [| discriminate].
    intros H. injection H as <-. apply period_M_str_of_timestamp.
Qed.

Lemma product_sales_time_dimensions_witness :
  Forall (fun row =>
            (ps_order_month row = "NaT"%string <-> ps_order_year row = None)
            /\ (forall y, ps_order_year row = Some y ->
                          exists m, 1 <= m <= 12
                                    /\ ps_order_month row
                                       = (string_of_Z y ++ "-" ++ pad2 m)%string))
    (export_product_sales sales_sample_db)
  /\ map (fun row => (i_order_id (si_item (ps_item row)),
                      ps_order_month row, ps_order_year row))
       (export_product_sales sales_sample_db)
     = [("o1", "2024-01", Some 2024); ("o1", "2024-01", Some 2024);
        ("o2", "NaT", None); ("o9", "NaT", None)]%string.
Proof.
  split; [| vm_compute; reflexivity].
  apply Forall_forall. intros row Hin.
  destruct (product_sales_time_dimensions sales_sample_db row Hin)
    as (_ & H1 & H2 & _).
  split; assumption.
Defined.

(* ------------------------------------------------------------------ *)
(** ** Monthly totals *)

Lemma month_indicator_sum (x : option Z) (keys : list Z) :
  NoDup keys -> (forall v, x = Some v -> In v keys) ->
  fold_right Z.add 0 (map (fun k => if opt_eqb x (Some k) then 1 else 0) keys)
  = if isna x then 0 else 1.
Proof.
  destruct x as [v |]; cbn [isna opt_eqb].
  - intros Hnd Hin. specialize (Hin v eq_refl).
    induction keys as [| k t IH]; [contradiction |].
    inversion Hnd as [| ? ? Hnotin Hnd']; subst. cbn [map fold_right].
    destruct (v =? k) eqn:E.
    + apply Z.eqb_eq in E. subst k.
      assert (Hz : fold_right Z.add 0
                     (map (fun k => if v =? k then 1 else 0) t) = 0).
      { clear IH Hnd Hnd' Hin. induction t as [| k' t' IH']; [reflexivity |].
        cbn [map fold_right]. destruct (v =? k') eqn:E'.
        - apply Z.eqb_eq in E'. subst k'. exfalso. apply Hnotin. now left.
        - rewrite IH'; [reflexivity |]. intros Hc. apply Hnotin. now right. }
      rewrite Hz. reflexivity.
    + destruct Hin as [-> | Hin]; [rewrite Z.eqb_refl in E; discriminate |].
      rewrite IH by assumption. reflexivity.
  - intros _ _. induction keys as [| k t IH]; [reflexivity |].
    cbn [map fold_right]. rewrite IH. reflexivity.
Qed.

(** The month groups partition the rows that have a month. *)
Lemma month_group_sizes_sum (keys : list Z) (rows : list delivered_row) :
  NoDup keys ->
  (forall r v, In r rows -> dr_order_month r = Some v -> In v keys) ->
  fold_right Z.add 0
    (map (fun k => Z.of_nat (List.length (month_group k rows))) keys)
  = Z.of_nat (List.length
                (filter (fun r => negb (isna (dr_order_month r))) rows)).
Proof.
  intros Hnd. induction rows as [| a t IH]; intros Hcover.
  - cbn [month_group filter List.length]. clear Hnd Hcover.
    induction keys as [| k ks IHk]; [reflexivity |].
    cbn [map fold_right]. rewrite IHk. reflexivity.
  - assert (Hsplit : forall ks,
      fold_right Z.add 0
        (map (fun k => Z.of_nat (List.length (month_group k (a :: t)))) ks)
      = fold_right Z.add 0
          (map (fun k => if opt_eqb (dr_order_month a) (Some k) then 1 else 0) ks)
        + fold_right Z.add 0
            (map (fun k => Z.of_nat (List.length (month_group k t))) ks)).
    { induction ks as [| k ks IHk]; [reflexivity |].
      cbn [map fold_right]. rewrite IHk. unfold month_group at 1. cbn [filter].
      fold (month_group k t).
      destruct (opt_eqb (dr_order_month a) (Some k)); cbn [List.length]; lia. }
    rewrite Hsplit, IH by (intros r v Hr; apply Hcover; now right).
    rewrite month_indicator_sum;
      [| assumption | intros v Hv; apply (Hcover a v); [now left | assumption]].
    cbn [filter]. destruct (isna (dr_order_month a)); cbn [negb List.length]; lia.
Qed.

Lemma export_monthly_metrics_totals (db : database) :
  map total_orders (export_monthly_metrics db)
  = map (fun k => Z.of_nat (List.length (month_group k (delivered db))))
      (month_keys (delivered db)).
Proof.
  unfold export_monthly_metrics.
  set (monthly := map _ (month_keys (delivered db))).
  set (M := merge_left _ monthly (new_customers_df (delivered db))).
  assert (HM : map fst M = monthly).
  { apply merge_left_fst. intros x _.
    apply (filter_key_at_most_one fst _ (fst x));
      [apply new_customers_df_keys |].
    intros n Hn. symmetry. now apply Z.eqb_eq. }
  transitivity (map (fun m : Z * list delivered_row =>
                       Z.of_nat (List.length (snd m))) (map fst M)).
  - rewrite !map_map. apply map_ext. intros [[k g] nc]. reflexivity.
  - rewrite HM. unfold monthly. rewrite map_map. reflexivity.
Qed.

(** X21. The monthly order counts add up to the number of delivered rows
    that have a purchase month: every such order is counted in exactly one
    month, and a delivered order without purchase timestamp is counted in
    none. *)
Theorem monthly_total_orders_sum (db : database) :
  fold_right Z.add 0 (map total_orders (export_monthly_metrics db))
  = Z.of_nat (List.length
                (filter (fun r => negb (isna (dr_order_month r)))
                   (delivered db))).
Proof.
  rewrite export_monthly_metrics_totals.
  apply month_group_sizes_sum; [apply month_keys_NoDup |].
  intros r v Hr Hv. apply month_keys_In. exists r. auto.
Qed.

(* ------------------------------------------------------------------ *)
(** ** Seller scores *)

(** The columns of a scored row are those of its merged row. *)
Lemma score_sellers_row (frame : list seller_metrics)
    (row : seller_performance_row) :
  In row (score_sellers frame) ->
  let revenues := map sm_total_revenue frame in
  let s := sp_metrics row in
  In s frame
  /\ sp_revenue_score row = revenue_score revenues (sm_total_revenue s)
  /\ sp_review_score_normalized row
     = review_score_normalized (sm_avg_review_score s)
  /\ sp_delivery_score row = delivery_score (sm_on_time_rate s)
  /\ sp_composite_score row = composite_score revenues s
  /\ avg_review_score row = fround2 (sm_avg_review_score s)
  /\ on_time_rate row = fround2 (fscale (sm_on_time_rate s) 100).
Proof.
  intros Hin revenues s.
  assert (Hs : In s frame).
  { unfold s.
    assert (H : In (sp_metrics row) (map sp_metrics (score_sellers frame)))
      by now apply in_map.
    now rewrite score_sellers_metrics in H. }
  split; [exact Hs |].
  unfold score_sellers in Hin. apply in_map_iff in Hin.
  destruct Hin as [[s0 rank] [<- _]]. repeat split.
Qed.

(** A key of a frame has a non-empty group. *)
Lemma group_nonempty {R} (key : R -> string) (k : string) (rows : list R) :
  In k (map key rows) -> group String.eqb key k rows <> [].
Proof.
  intros Hin Hc. apply in_map_iff in Hin. destruct Hin as [r [Hk Hr]].
  assert (H : In r (group String.eqb key k rows)).
  { unfold group. apply filter_In. split; [exact Hr |]. now apply String.eqb_eq. }
  rewrite Hc in H. contradiction.
Qed.

(** The on-time rate of a merged seller row: missing when the seller has no
    row in the delivery frame, else the mean of the flags of its rows. *)
Lemma seller_frame_on_time (db : database) (s : seller_metrics) :
  In s (seller_frame db) ->
  (sm_on_time_rate s = FNaN
   /\ forall d, In d (delivery db) -> dl_seller_id d <> sm_seller_id s)
  \/ (group String.eqb dl_seller_id (sm_seller_id s) (delivery db) <> []
      /\ sm_on_time_rate s
         = mean_bool (map dl_is_on_time
                        (group String.eqb dl_seller_id (sm_seller_id s)
                           (delivery db)))).
Proof.
  unfold seller_frame. intros Hin. apply in_map_iff in Hin.
  destruct Hin as [[[[[[[[k n] rev] fr] city] st] rv] dv] [<- H]].
  cbn [sm_on_time_rate sm_seller_id].
  apply merge_left_In in H. destruct H as [_ Hdv]. cbn [fst] in Hdv.
  destruct dv as [x |].
  - right. destruct Hdv as [Hx Hk]. apply String.eqb_eq in Hk.
    unfold seller_delivery, groupby in Hx. apply in_map_iff in Hx.
    destruct Hx as [k' [<- Hk']]. cbn [fst snd] in *. subst k'.
    apply (group_keys_In String.eqb string_eqb_spec) in Hk'.
    split; [now apply group_nonempty | reflexivity].
  - left. split; [reflexivity |]. intros d Hd Heq.
    specialize (Hdv (k, mean_bool (map dl_is_on_time
                                     (group String.eqb dl_seller_id k (delivery db))),
                     mean_skipna (map dl_delivery_days
                                    (group String.eqb dl_seller_id k (delivery db))))).
    cbn [fst] in Hdv. rewrite String.eqb_refl in Hdv.
    assert (Hc : true = false); [| discriminate]. apply Hdv.
    unfold seller_delivery, groupby. apply in_map_iff. exists k.
    split; [reflexivity |].
    apply (group_keys_In String.eqb string_eqb_spec).
    rewrite <- Heq. now apply in_map.
Qed.

(** X22. The on-time rate of a seller is missing exactly when the seller
    has no row in the delivery frame (no delivered order with delivery and
    estimated dates); otherwise it is a fraction q of 0..1, the delivery
    score is q * 100 and the exported rate a percentage with two decimals
    between 0 and 100. *)
Theorem seller_on_time_rate_is_percentage (db : database)
    (row : seller_performance_row) :
  In row (export_seller_performance db) ->
  (sm_on_time_rate (sp_metrics row) = FNaN
   /\ sp_delivery_score row = FNaN /\ on_time_rate row = FNaN
   /\ forall d, In d (delivery db) ->
                dl_seller_id d <> sm_seller_id (sp_metrics row))
  \/ (exists q c,
        sm_on_time_rate (sp_metrics row) = FNum q
        /\ (0 <= q)%Q /\ (q <= 1)%Q
        /\ sp_delivery_score row = FNum (q * 100)
        /\ on_time_rate row = FNum (inject_Z c / 100)
        /\ 0 <= c <= 10000
        /\ exists d, In d (delivery db)
                     /\ dl_seller_id d = sm_seller_id (sp_metrics row)).
Proof.
  unfold export_seller_performance. intros Hin.
  destruct (score_sellers_row _ _ Hin) as (Hs & _ & _ & Hd & _ & _ & Ho).
  rewrite Hd, Ho.
  destruct (seller_frame_on_time db _ Hs) as [[Hnan Hno] | [Hne Hrate]].
  - left. rewrite Hnan. repeat split. exact Hno.
  - right.
    destruct (mean_bool_bounds
                (map dl_is_on_time
                   (group String.eqb dl_seller_id (sm_seller_id (sp_metrics row))
                      (delivery db)))) as [q [Hq [H0 H1]]].
    { destruct (group String.eqb dl_seller_id _ (delivery db));
        [congruence | discriminate]. }
    rewrite Hrate, Hq.
    destruct (percent_round2_bounds q H0 H1) as [c [Hc Hcb]].
    exists q, c. repeat split; try assumption; try lia.
    destruct (group String.eqb dl_seller_id (sm_seller_id (sp_metrics row))
                (delivery db)) as [| d g] eqn:E; [congruence |].
    assert (Hd' : In d (group String.eqb dl_seller_id
                          (sm_seller_id (sp_metrics row)) (delivery db)))
      by (rewrite E; now left).
    unfold group in Hd'. apply filter_In in Hd'. destruct Hd' as [Hd1 Hd2].
    apply String.eqb_eq in Hd2. exists d. auto.
Qed.

Lemma seller_on_time_rate_is_percentage_witness :
  Forall (fun row =>
    (sm_on_time_rate (sp_metrics row) = FNaN
     /\ sp_delivery_score row = FNaN /\ on_time_rate row = FNaN
     /\ forall d, In d (delivery sample_db) ->
                  dl_seller_id d <> sm_seller_id (sp_metrics row))
    \/ (exists q c,
          sm_on_time_rate (sp_metrics row) = FNum q
          /\ (0 <= q)%Q /\ (q <= 1)%Q
          /\ sp_delivery_score row = FNum (q * 100)
          /\ on_time_rate row = FNum (inject_Z c / 100)
          /\ 0 <= c <= 10000
          /\ exists d, In d (delivery sample_db)
                       /\ dl_seller_id d = sm_seller_id (sp_metrics row)))
    (export_seller_performance sample_db)
  /\ export_seller_performance sample_db <> [].
Proof.
  split; [| vm_compute; discriminate].
  apply Forall_forall. intros row Hrow.
  exact (seller_on_time_rate_is_percentage sample_db row Hrow).
Defined.

Lemma qsum_bounds (a b : Q) (l : list Q) :
  (forall x, In x l -> (a <= x)%Q /\ (x <= b)%Q) ->
  (a * inject_Z (Z.of_nat (List.length l)) <= qsum l)%Q
  /\ (qsum l <= b * inject_Z (Z.of_nat (List.length l)))%Q.
Proof.
  induction l as [| x t IH]; intros H.
  - unfold qsum. cbn [fold_right List.length Z.of_nat].
    change (inject_Z 0) with 0%Q. split; lra.
  - destruct IH as [IH1 IH2]; [intros y Hy; apply H; now right |].
    destruct (H x (or_introl eq_refl)) as [Hx1 Hx2].
    unfold qsum in *. cbn [fold_right List.length].
    rewrite Nat2Z.inj_succ, <- Z.add_1_l, inject_Z_plus.
    change (inject_Z 1) with 1%Q.
    set (s := fold_right Qplus 0%Q t) in *.
    set (n := inject_Z (Z.of_nat (List.length t))) in *.
    split; lra.
Qed.

(** The mean of a non-empty column lies between any two bounds of its
    cells. *)
Lemma qmean_bounds (a b : Q) (l : list Q) :
  l <> [] ->
  (forall x, In x l -> (a <= x)%Q /\ (x <= b)%Q) ->
  exists q, qmean l = FNum q /\ (a <= q)%Q /\ (q <= b)%Q.
Proof.
  intros Hne H. destruct (qsum_bounds a b l H) as [H1 H2].
  unfold qmean, fdiv_num.
  assert (Hn : (0 < inject_Z (Z.of_nat (List.length l)))%Q).
  { change 0%Q with (inject_Z 0). rewrite <- Zlt_Qlt.
    destruct l; [congruence | cbn [List.length]; lia]. }
  set (n := inject_Z _) in *.
  assert (E : Qeq_bool n 0 = false).
  { destruct (Qeq_bool n 0) eqn:E; [| reflexivity].
    apply Qeq_bool_iff in E. rewrite E in Hn. discriminate. }
  rewrite E. eexists. split; [reflexivity |]. split.
  - apply Qle_shift_div_l; assumption.
  - apply Qle_shift_div_r; assumption.
Qed.

(** The revenue score is NaN when all revenues are equal, and lies in
    0..100 otherwise; it is never infinite. *)
Lemma revenue_score_cases (revenues : list Q) (x : Q) :
  In x revenues ->
  revenue_score revenues x = FNaN
  \/ exists q, revenue_score revenues x = FNum q /\ (0 <= q)%Q /\ (q <= 100)%Q.
Proof.
  intros Hx. pose proof (q_min_le revenues x Hx) as Hmin.
  pose proof (q_max_ge revenues x Hx) as Hmax.
  unfold revenue_score, fdiv_num.
  set (lo := q_min revenues) in *. set (hi := q_max revenues) in *.
  destruct (Qeq_bool (hi - lo) 0) eqn:E.
  - left. apply Qeq_bool_iff in E.
    assert (E' : Qeq_bool (x - lo) 0 = true) by (apply Qeq_bool_iff; lra).
    rewrite E'. reflexivity.
  - right. apply Qeq_bool_neq in E.
    assert (Hspan : (0 < hi - lo)%Q).
    { destruct (Qlt_le_dec 0 (hi - lo)) as [Hlt | Hle]; [exact Hlt |].
      exfalso. apply E. lra. }
    exists ((x - lo) / (hi - lo) * 100)%Q. split; [reflexivity |].
    assert (Hfrac0 : (0 <= (x - lo) / (hi - lo))%Q).
    { apply Qle_shift_div_l; [assumption | lra]. }
    assert (Hfrac1 : ((x - lo) / (hi - lo) <= 1)%Q).
    { apply Qle_shift_div_r; [assumption | lra]. }
    set (f := ((x - lo) / (hi - lo))%Q) in *. split; lra.
Qed.

(** The mean review score of a merged seller row is missing or lies between
    the bounds of the review scores. *)
Lemma seller_frame_review_range (db : database) (s : seller_metrics) :
  (forall r, In r (order_reviews db) -> 1 <= review_score r <= 5) ->
  In s (seller_frame db) ->
  sm_avg_review_score s = FNaN
  \/ exists q, sm_avg_review_score s = FNum q /\ (1 <= q)%Q /\ (q <= 5)%Q.
Proof.
  intros Hscores Hin. unfold seller_frame in Hin. apply in_map_iff in Hin.
  destruct Hin as [[[[[[[[k n] rev] fr] city] st] rv] dv] [<- H]].
  cbn [sm_avg_review_score].
  apply merge_left_In in H. destruct H as [H _].
  apply merge_left_In in H. destruct H as [_ Hrv].
  destruct rv as [x |]; [| now left]. right.
  destruct Hrv as [Hx _].
  unfold seller_reviews, groupby in Hx. apply in_map_iff in Hx.
  destruct Hx as [k' [<- Hk']]. cbn [fst snd].
  apply (group_keys_In String.eqb string_eqb_spec) in Hk'.
  apply group_nonempty in Hk'.
  set (g := group String.eqb (fun x : string * string * Z => fst (fst x)) k'
              (seller_review_rows db)) in *.
  apply qmean_bounds.
  - destruct g; [congruence | discriminate].
  - intros y Hy. apply in_map_iff in Hy. destruct Hy as [x0 [<- Hx0]].
    unfold g, group in Hx0. apply filter_In in Hx0. destruct Hx0 as [Hx0 _].
    destruct (seller_review_rows_In db x0 Hx0) as [r [_ [Hr [_ [_ [_ ->]]]]]].
    specialize (Hscores r Hr).
    change 1%Q with (inject_Z 1). change 5%Q with (inject_Z 5).
    rewrite <- !Zle_Qle. exact Hscores.
Qed.

(** X23. When every review score of the table lies in 1..5, the composite
    score of a seller is NaN or a number of two decimals between 8 and 100:
    the three weights add up to one, the revenue and delivery scores lie in
    0..100 and the review score in 20..100. *)
Theorem seller_composite_score_range (db : database)
    (row : seller_performance_row) :
  (forall r, In r (order_reviews db) -> 1 <= review_score r <= 5) ->
  In row (export_seller_performance db) ->
  sp_composite_score row = FNaN
  \/ exists c, sp_composite_score row = FNum (inject_Z c / 100)
               /\ 800 <= c <= 10000.
Proof.
  unfold export_seller_performance. intros Hscores Hin.
  destruct (score_sellers_row _ _ Hin) as (Hs & _ & _ & _ & Hc & _ & _).
  rewrite Hc. unfold composite_score.
  set (s := sp_metrics row) in *.
  assert (Hr : forall y, fadd y FNaN = FNaN) by (intros [? | ? |]; reflexivity).
  destruct (revenue_score_cases (map sm_total_revenue (seller_frame db))
              (sm_total_revenue s) (in_map _ _ _ Hs))
    as [-> | [rs [-> [Hrs0 Hrs1]]]]; [now left |].
  destruct (seller_frame_review_range db s Hscores Hs)
    as [-> | [a [-> [Ha0 Ha1]]]].
  { left. cbn [review_score_normalized fscale]. rewrite Hr. reflexivity. }
  destruct (seller_frame_on_time db s Hs) as [[-> _] | [Hne ->]].
  { left. cbn [delivery_score fscale]. rewrite Hr. reflexivity. }
  destruct (mean_bool_bounds
              (map dl_is_on_time
                 (group String.eqb dl_seller_id (sm_seller_id s) (delivery db))))
    as [o [-> [Ho0 Ho1]]].
  { destruct (group String.eqb dl_seller_id _ (delivery db));
      [congruence | discriminate]. }
  right. cbn [review_score_normalized delivery_score fscale fadd].
  unfold fround2. cbn [fround_to].
  eexists. split; [reflexivity |].
  apply round_half_even_bounds.
  - change (inject_Z 800) with 800%Q. lra.
  - change (inject_Z 10000) with 10000%Q. lra.
Qed.

Lemma seller_composite_score_range_witness :
  Forall (fun row =>
            sp_composite_score row = FNaN
            \/ exists c, sp_composite_score row = FNum (inject_Z c / 100)
                         /\ 800 <= c <= 10000)
    (export_seller_performance ranked_no_review_db)
  /\ map sp_composite_score (export_seller_performance ranked_no_review_db)
     = [FNum (7000 # 100); FNum (10000 # 100); FNaN].
Proof.
  split; [| vm_compute; reflexivity].
  apply Forall_forall. intros row Hrow.
  apply (seller_composite_score_range ranked_no_review_db row); [| exact Hrow].
  intros r Hr. cbn [ranked_no_review_db order_reviews In] in Hr.
  destruct Hr as [<- | [<- | []]]; cbn [review_score]; lia.
Defined.

(* ------------------------------------------------------------------ *)
(** ** Orders fact: no order is dropped *)

(** Whatever the customers table holds, the left joins keep every order and
    bring in nothing else: an order without customer, payment or review is
    in the extract, and the extract has at least as many rows as the orders
    table. *)
Lemma export_orders_fact_keeps_every_order (db : database) :
  (forall o, In o (map of_order (export_orders_fact db)) <-> In o (orders db))
  /\ (List.length (orders db) <= List.length (export_orders_fact db))%nat.
Proof.
  assert (Hlen : forall {L R} (on : L -> R -> bool) (l : list L) (r : list R),
             (List.length l <= List.length (merge_left on l r))%nat).
  { intros L R on l r. induction l as [| x rest IH]; cbn [merge_left flat_map];
      [apply Nat.le_refl |].
    fold (merge_left on rest r). rewrite length_app. cbn [List.length].
    destruct (filter (on x) r) as [| y more]; cbn [List.length map]; lia. }
  split.
  - intros o. split.
    + intros H. apply in_map_iff in H. destruct H as [row [<- Hrow]].
      now apply export_orders_fact_parts in Hrow.
    + intros H. unfold export_orders_fact, of_orders_df.
      destruct (merge_left_complete
                  (fun o c => sql_eq (customer_id o) (c_customer_id c))
                  (orders db) (customers db) o H) as [c Hc].
      destruct (merge_left_complete
                  (fun (oc : order * option customer) p =>
                     String.eqb (order_id (fst oc)) (pa_order_id p))
                  _ (of_payments_df db) _ Hc) as [p Hp].
      destruct (merge_left_complete
                  (fun (ocp : order * option customer * option payment_agg) r =>
                     String.eqb (order_id (fst (fst ocp))) (rv_order_id r))
                  _ (of_reviews_df db) _ Hp) as [r Hr].
      apply in_map_iff. eexists. split; [| apply in_map_iff; exists (o, c, p, r);
        split; [reflexivity | exact Hr]]. reflexivity.
  - unfold export_orders_fact, of_orders_df. rewrite length_map.
    eapply Nat.le_trans; [| apply Hlen].
    eapply Nat.le_trans; [| apply Hlen].
    apply Hlen.
Qed.
